(** * link-checker-pro: the crawl-and-verify pipeline of [backend/server.js]

    A shallow embedding of the scanner's classifier, status verifier, crawler
    and scan orchestrator, and the properties its specification states about
    them.

    Conventions of the embedding.
    - JavaScript strings are [string]s of bytes; [toLowerCase] is the ASCII
      lower-casing (the patterns the code searches for are ASCII).
    - A status is a number or one of the sentinel strings the code produces;
      it is the tagged union [Status].
    - Everything the code obtains from outside (the crawler's browser, the
      verification browser, the HTTP client, the text-analysis service, the
      screenshot browser, [new URL], [Array.prototype.sort]) is a field of
      the record [World]; the functions that perform I/O take a [World] and
      return, next to their result, the list of I/O events they performed.
    - JavaScript numbers that are divided ([healthScore], [avgImpactScore])
      are IEEE-754 binary64 [float]s; counters and scores are [nat] and [Z]. *)

From Stdlib Require Import ZArith Floats Uint63 Ascii String.
From stdpp Require Import base decidable option list gmap strings pretty sorting.

Local Open Scope string_scope.
Local Open Scope list_scope.

(** ** Strings *)

Module Js.

(** [String.prototype.toLowerCase], on ASCII. *)
Definition lowerChar (c : ascii) : ascii :=
  let n := nat_of_ascii c in
  if ((65 <=? n) && (n <=? 90))%nat then ascii_of_nat (n + 32) else c.

Fixpoint toLowerCase (s : string) : string :=
  match s with
  | EmptyString => EmptyString
  | String c s' => String (lowerChar c) (toLowerCase s')
  end.

(** [s.startsWith(p)] *)
Fixpoint startsWith (s p : string) {struct p} : bool :=
  match p, s with
  | EmptyString, _ => true
  | String _ _, EmptyString => false
  | String a p', String b s' => if Ascii.eqb a b then startsWith s' p' else false
  end.

(** [s.includes(p)] *)
Fixpoint includes (s p : string) : bool :=
  startsWith s p ||
  match s with
  | EmptyString => false
  | String _ s' => includes s' p
  end.

(** [patterns.some(p => s.includes(p))] *)
Definition someIncluded (patterns : list string) (s : string) : bool :=
  existsb (includes s) patterns.

(** Truthiness of a string: the empty string is falsy. *)
Definition truthy (s : string) : bool :=
  match s with EmptyString => false | _ => true end.

(** [a || b] on strings. *)
Definition orElse (a : option string) (b : string) : string :=
  match a with
  | Some s => if truthy s then s else b
  | None => b
  end.

End Js.

(** ** Regular expressions

    The one regular expression of the verifier (the e-mail pattern) is anchored
    at both ends and uses only character classes, concatenation and
    repetition, so [RegExp.prototype.test] is full-string matching, here by
    Brzozowski derivatives. *)

Module Re.

Inductive regex : Type :=
| Void : regex
| Eps : regex
| Class (p : ascii -> bool) : regex
| Cat (r1 r2 : regex) : regex
| Alt (r1 r2 : regex) : regex
| Star (r : regex) : regex.

Fixpoint nullable (r : regex) : bool :=
  match r with
  | Void => false
  | Eps => true
  | Class _ => false
  | Cat r1 r2 => nullable r1 && nullable r2
  | Alt r1 r2 => nullable r1 || nullable r2
  | Star _ => true
  end.

Fixpoint deriv (c : ascii) (r : regex) : regex :=
  match r with
  | Void => Void
  | Eps => Void
  | Class p => if p c then Eps else Void
  | Cat r1 r2 =>
      if nullable r1 then Alt (Cat (deriv c r1) r2) (deriv c r2)
      else Cat (deriv c r1) r2
  | Alt r1 r2 => Alt (deriv c r1) (deriv c r2)
  | Star r1 => Cat (deriv c r1) (Star r1)
  end.

(** [/^r$/.test(s)] *)
Fixpoint test (r : regex) (s : string) : bool :=
  match s with
  | EmptyString => nullable r
  | String c s' => test (deriv c r) s'
  end.

(** The language of a regular expression, as a relation. *)
Inductive matches : regex -> string -> Prop :=
| m_eps : matches Eps ""
| m_class p c : p c = true -> matches (Class p) (String c "")
| m_cat r1 r2 s1 s2 : matches r1 s1 -> matches r2 s2 -> matches (Cat r1 r2) (s1 +:+ s2)
| m_alt_l r1 r2 s : matches r1 s -> matches (Alt r1 r2) s
| m_alt_r r1 r2 s : matches r2 s -> matches (Alt r1 r2) s
| m_star_nil r : matches (Star r) ""
| m_star_cons r s1 s2 : matches r s1 -> matches (Star r) s2 -> matches (Star r) (s1 +:+ s2).

(** A literal word. *)
Fixpoint lit (w : string) : regex :=
  match w with
  | EmptyString => Eps
  | String c w' => Cat (Class (Ascii.eqb c)) (lit w')
  end.

(** [r+] and [r{2,}] *)
Definition plus (r : regex) : regex := Cat r (Star r).
Definition atLeast2 (r : regex) : regex := Cat r (Cat r (Star r)).

Definition inRange (lo hi : nat) (c : ascii) : bool :=
  let n := nat_of_ascii c in ((lo <=? n) && (n <=? hi))%nat.

Definition isLower : ascii -> bool := inRange 97 122.
Definition isUpper : ascii -> bool := inRange 65 90.
Definition isDigit : ascii -> bool := inRange 48 57.
Definition isAlpha (c : ascii) : bool := isLower c || isUpper c.
Definition isAlnum (c : ascii) : bool := isAlpha c || isDigit c.

End Re.

(** ** Link classifier *)

(** [isAffiliateLink]: the URL is an affiliate or tracking redirector. *)
Definition affiliatePatterns : list string :=
  [ "/api/click"; "/track"; "/aff"; "/redirect"; "/redir"; "/goto"; "/out";
    "clickid"; "affid"; "tid=" ].

Definition isAffiliateLink (url : string) : bool :=
  Js.someIncluded affiliatePatterns (Js.toLowerCase url).

(** [isTrackingPixel]: the URL is a tracking pixel or analytics beacon. *)
Definition trackingPatterns : list string :=
  [ "bat.bing.com"; "google-analytics.com"; "googletagmanager.com";
    "facebook.com/tr"; "doubleclick.net"; "analytics."; "/pixel"; "/beacon";
    "track.php"; "collect?" ].

Definition isTrackingPixel (url : string) : bool :=
  Js.someIncluded trackingPatterns (Js.toLowerCase url).

(** The status of a verification outcome: an HTTP status code, or one of the
    strings ['ERROR'], ['DNS_ERROR'], ['TIMEOUT'], ['CONNECTION_REFUSED'] and
    ['Invalid'] (a malformed e-mail address). *)
Inductive Status : Type :=
| HTTP (code : Z)
| ERROR
| DNS_ERROR
| TIMEOUT
| CONNECTION_REFUSED
| Invalid.

#[global] Instance Status_eq_dec : EqDecision Status.
Proof. solve_decision. Defined.

(** [status === n] for a number [n]. *)
Definition isCode (status : Status) (n : Z) : bool :=
  match status with HTTP c => (c =? n)%Z | _ => false end.

(** [status >= n]: a sentinel string converts to NaN, and the comparison is false. *)
Definition geCode (status : Status) (n : Z) : bool :=
  match status with HTTP c => (n <=? c)%Z | _ => false end.

(** [status < n] *)
Definition ltCode (status : Status) (n : Z) : bool :=
  match status with HTTP c => (c <? n)%Z | _ => false end.

(** [typeof status === 'number'] *)
Definition isNumber (status : Status) : bool :=
  match status with HTTP _ => true | _ => false end.

(** [isSuccessStatus]: every 2xx code, and 304. *)
Definition isSuccessStatus (status : Status) : bool :=
  if isNumber status && geCode status 200 && ltCode status 300 then true
  else if isCode status 304 then true
  else false.

(** [determinePriorityFromStatus]: the fallback priority. *)
Definition determinePriorityFromStatus (status : Status) : string :=
  if isCode status 404 || isCode status 500 || bool_decide (status = ERROR) then "Critical"
  else if isCode status 403 || isCode status 401 || bool_decide (status = TIMEOUT) then "High"
  else if geCode status 300 && ltCode status 400 then "Medium"
  else "Low".

(** [getIssueType]: the fallback issue-type label. *)
Definition getIssueType (status : Status) : string :=
  if isCode status 404 then "Broken Link (404)"
  else if isCode status 403 then "Access Forbidden (403)"
  else if isCode status 401 then "Unauthorized (401)"
  else if isCode status 500 || geCode status 500 then "Server Error (500+)"
  else if bool_decide (status = TIMEOUT) then "Timeout Error"
  else if bool_decide (status = DNS_ERROR) then "DNS Error"
  else if bool_decide (status = CONNECTION_REFUSED) then "Connection Refused"
  else if bool_decide (status = ERROR) then "Connection Error"
  else if isCode status 304 then "Not Modified (Cached)"
  else if geCode status 300 && ltCode status 400 then "Redirect"
  else "Unknown Issue".

(** [calculateImpactScore(linkData, appearanceCount)]: of [linkData] the
    function reads [status] and [context]. [rawImpactScore] is the value of
    the variable [score] before the final clamp. *)
Definition rawImpactScore (status : Status) (context : string) (appearanceCount : nat) : Z :=
  let score := 50%Z in
  let score :=
    if isCode status 404 then (score + 30)%Z
    else if geCode status 500 then (score + 35)%Z
    else if isCode status 403 then (score + 20)%Z
    else if geCode status 300 && ltCode status 400 then (score + 10)%Z
    else score in
  let score :=
    if Js.includes (Js.toLowerCase context) "cta" ||
       Js.includes (Js.toLowerCase context) "button" then (score + 20)%Z else score in
  let score :=
    if Js.includes (Js.toLowerCase context) "hero" ||
       Js.includes (Js.toLowerCase context) "header" then (score + 15)%Z else score in
  let score :=
    if Js.includes (Js.toLowerCase context) "navigation" then (score + 10)%Z else score in
  (score + Z.min (Z.of_nat appearanceCount * 5) 20)%Z.

Definition calculateImpactScore (status : Status) (context : string) (appearanceCount : nat) : Z :=
  Z.min (Z.max (rawImpactScore status context appearanceCount) 0) 100.

(** ** Data model *)

(** The kind of a reference: ['link'], ['image'], ['css'], ['script']. *)
Inductive LinkType : Type := link | image | css | script.

#[global] Instance LinkType_eq_dec : EqDecision LinkType.
Proof. solve_decision. Defined.

(** What the in-page extraction returns for one element. *)
Module Raw.
Record t : Type := mk { url : string; text : string; context : string; type : LinkType }.
End Raw.

(** A reference: an extracted element with the page it was found on. *)
Module Link.
Record t : Type :=
  mk { url : string; text : string; context : string; type : LinkType; pageUrl : string }.

(** [{ ...link, pageUrl: currentUrl }] *)
Definition ofRaw (currentUrl : string) (r : Raw.t) : t :=
  mk (Raw.url r) (Raw.text r) (Raw.context r) (Raw.type r) currentUrl.
End Link.

(** A verification outcome. A flag the JavaScript object does not carry is
    [false]; a missing [redirectCount] or [finalUrl] is [None]. *)
Module Info.
Record t : Type :=
  mk { status : Status;
       statusText : string;
       responseTime : Z;
       redirectCount : option Z;
       finalUrl : option string;
       checkedWithBrowser : bool;
       isAffiliate : bool;
       treatAsWorking : bool;
       skip : bool }.

(** An outcome with [status], [statusText] and [responseTime] only. *)
Definition basic (status : Status) (statusText : string) (responseTime : Z) : t :=
  mk status statusText responseTime None None false false false false.
End Info.

(** The answer of the text-analysis service, as [analyzeWithAI] parses it. *)
Module Ai.
Record t : Type :=
  mk { analysis : string; suggestedFix : option string; issueType : string; priority : string }.
End Ai.

(** A reported issue: one element of [results]. *)
Module Issue.
Record t : Type :=
  mk { id : nat;
       pageUrl : string;
       linkText : string;
       linkUrl : string;
       status : Status;
       statusText : string;
       responseTime : Z;
       redirectCount : Z;
       finalUrl : string;
       priority : string;
       type : string;
       context : string;
       aiAnalysis : string;
       suggestedFix : option string;
       impactScore : Z;
       appearancesCount : nat;
       linkType : LinkType;
       screenshot : option string }.
End Issue.

(** ** The outside world *)

(** [page.goto] of the verification browser: the response's status, status
    text, the page's final URL and the measured time, or an exception. *)
Inductive BrowserResult : Type :=
| BrowserResponse (status : Z) (statusText finalUrl : string) (responseTime : Z)
| BrowserFailure (message : string).

(** [axios.get] with [validateStatus: () => true]: a response (status, status
    text, [_redirectCount], [responseUrl], measured time), or an error with
    its [code], its [response] when it has one, and its [message]. *)
Inductive AxiosResult : Type :=
| AxiosResponse (status : Z) (statusText : string) (redirectCount : option Z)
    (responseUrl : option string) (responseTime : Z)
| AxiosFailure (code : option string) (response : option (Z * string)) (message : string).

(** What one iteration of the crawl obtains for a page: [browser.newPage]
    threw, the navigation or the extraction threw, or the extracted elements. *)
Inductive PageResult : Type :=
| TabFailed
| LoadFailed
| Loaded (links : list Raw.t).

Record World : Type :=
  { (* [new URL(u).hostname]; [None] when the constructor throws *)
    hostname : string -> option string;
    (* the crawl browser *)
    loadPage : string -> PageResult;
    (* the verification browser and the HTTP client *)
    browserGoto : string -> BrowserResult;
    axiosGet : string -> AxiosResult;
    (* [analyzeWithAI({linkText, linkUrl, context, status})] *)
    analyzeWithAI : string -> string -> string -> Status -> option Ai.t;
    (* [takeErrorScreenshot(pageUrl, linkText, linkUrl, browser)] *)
    takeErrorScreenshot : string -> string -> string -> option string;
    (* [Array.prototype.sort(compare)]; the comparison is [None] for NaN *)
    arraySort : (Issue.t -> Issue.t -> option Z) -> list Issue.t -> list Issue.t }.

(** A conforming [sort] rearranges the array. *)
Definition SortConforms (w : World) : Prop :=
  forall cmp l, arraySort w cmp l ≡ₚ l.

(** What a scan does after the crawl: the calls of [checkLinkStatus], the
    requests they make, and the calls of [analyzeWithAI] and
    [takeErrorScreenshot]. *)
Inductive Event : Type :=
| Verify (url : string)
| BrowserGoto (url : string)
| HttpGet (url : string)
| Analyze (url : string)
| Capture (pageUrl linkText linkUrl : string).

#[global] Instance Event_eq_dec : EqDecision Event.
Proof. solve_decision. Defined.

(** ** Status verifier *)

(** [/^mailto:[a-zA-Z0-9._-]+@[a-zA-Z0-9.-]+\.[a-zA-Z]{2,}$/] *)
Definition isLocalChar (c : ascii) : bool :=
  Re.isAlnum c || Ascii.eqb c "." || Ascii.eqb c "_" || Ascii.eqb c "-".
Definition isDomainChar (c : ascii) : bool :=
  Re.isAlnum c || Ascii.eqb c "." || Ascii.eqb c "-".

Definition emailPattern : Re.regex :=
  Re.Cat (Re.lit "mailto:")
    (Re.Cat (Re.plus (Re.Class isLocalChar))
       (Re.Cat (Re.Class (Ascii.eqb "@"))
          (Re.Cat (Re.plus (Re.Class isDomainChar))
             (Re.Cat (Re.Class (Ascii.eqb "."))
                (Re.atLeast2 (Re.Class Re.isAlpha)))))).

(** [checkLinkWithBrowser]: open the link in the verification browser. *)
Definition checkLinkWithBrowser (w : World) (url : string) : Info.t * list Event :=
  match browserGoto w url with
  | BrowserResponse status statusText finalUrl responseTime =>
      (Info.mk (HTTP status) statusText responseTime (Some 0%Z) (Some finalUrl)
         true true false false, [BrowserGoto url])
  | BrowserFailure message =>
      (Info.mk ERROR message 0 None None true true false false, [BrowserGoto url])
  end.

(** [checkLinkStatus(url, browser)]; [browser] tells whether a browser handle
    was passed. *)
Definition checkLinkStatus (w : World) (url : string) (browser : bool) : Info.t * list Event :=
  if isTrackingPixel url then
    (Info.mk (HTTP 200) "Tracking Pixel" 0 None None false false false true, [])
  else if Js.startsWith url "data:" || Js.startsWith url "blob:" then
    (Info.mk (HTTP 200) "Inline Content" 0 None None false false false true, [])
  else if Js.startsWith url "mailto:" then
    (Info.basic (if Re.test emailPattern url then HTTP 200 else Invalid)
       (if Re.test emailPattern url then "Valid Email" else "Malformed Email") 0, [])
  else if Js.startsWith url "tel:" then
    (Info.basic (HTTP 200) "Phone Link" 0, [])
  else if Js.startsWith url "javascript:" || Js.startsWith url "#" then
    (Info.basic (HTTP 200) "Internal Reference" 0, [])
  else if browser && isAffiliateLink url then
    let '(result, io) := checkLinkWithBrowser w url in
    if isCode (Info.status result) 403 then
      (Info.mk (Info.status result) "Anti-bot protection (link works in browsers)"
         (Info.responseTime result) (Info.redirectCount result) (Info.finalUrl result)
         (Info.checkedWithBrowser result) (Info.isAffiliate result) true (Info.skip result), io)
    else (result, io)
  else
    match axiosGet w url with
    | AxiosResponse status statusText redirectCount responseUrl responseTime =>
        (Info.mk (HTTP status) statusText responseTime
           (Some (match redirectCount with Some n => n | None => 0%Z end))
           (Some (Js.orElse responseUrl url)) false false false false, [HttpGet url])
    | AxiosFailure code response message =>
        (if bool_decide (code = Some "ENOTFOUND") then
           Info.basic DNS_ERROR "Domain not found" 0
         else if bool_decide (code = Some "ETIMEDOUT") || bool_decide (code = Some "ECONNABORTED") then
           Info.basic TIMEOUT "Request timeout" 10000
         else if bool_decide (code = Some "ECONNREFUSED") then
           Info.basic CONNECTION_REFUSED "Connection refused" 0
         else match response with
              | Some (status, statusText) => Info.basic (HTTP status) statusText 0
              | None => Info.basic ERROR message 0
              end, [HttpGet url])
    end.

(** ** Site crawler *)

Module Crawl.

(** What the crawl does, in order: [visited.add(url)] and [page.goto(url)]. *)
Inductive Event : Type :=
| Visit (url : string)
| Navigate (url : string).

#[global] Instance Event_eq_dec : EqDecision Event.
Proof. solve_decision. Defined.

(** The variables of [crawlWebsite]: the set [visited] in insertion order, the
    array [toVisit], the array [allLinks], and the events so far. *)
Record State : Type :=
  mk { visited : list string;
       toVisit : list string;
       allLinks : list Link.t;
       trace : list Event }.

(** [const toVisit = [domain]] with everything else empty. *)
Definition init (domain : string) : State := mk [] [domain] [] [].

(** [toVisit.shift()] *)
Definition shift (st : State) : State :=
  mk (visited st) (tail (toVisit st)) (allLinks st) (trace st).

(** [set.add(x)] on a set kept in insertion order. *)
Definition setAdd (x : string) (s : list string) : list string :=
  if bool_decide (x ∈ s) then s else s ++ [x].

(** The filter of [internalLinks]: an anchor, not an affiliate link, whose
    host name is the root's. *)
Definition isInternal (w : World) (baseDomain : string) (l : Raw.t) : bool :=
  if negb (bool_decide (Raw.type l = link)) then false
  else if isAffiliateLink (Raw.url l) then false
  else match hostname w (Raw.url l) with
       | Some linkHostname => bool_decide (linkHostname = baseDomain)
       | None => false
       end.

Definition internalLinks (w : World) (baseDomain : string) (links : list Raw.t) : list string :=
  map Raw.url (List.filter (isInternal w baseDomain) links).

(** The body of [internalLinks.forEach]. *)
Definition enqueue (visited : list string) (toVisit : list string) (l : string) : list string :=
  if negb (bool_decide (l ∈ visited)) && negb (bool_decide (l ∈ toVisit))
  then toVisit ++ [l] else toVisit.

(** The loop body from [visited.add(currentUrl)] on, in the state after the
    [shift]. *)
Definition visitPage (w : World) (baseDomain currentUrl : string) (st : State) : State :=
  let visited' := setAdd currentUrl (visited st) in
  match loadPage w currentUrl with
  | TabFailed =>
      mk visited' (toVisit st) (allLinks st) (trace st ++ [Visit currentUrl])
  | LoadFailed =>
      mk visited' (toVisit st) (allLinks st)
        (trace st ++ [Visit currentUrl; Navigate currentUrl])
  | Loaded links =>
      mk visited'
        (fold_left (enqueue visited') (internalLinks w baseDomain links) (toVisit st))
        (allLinks st ++ map (Link.ofRaw currentUrl) links)
        (trace st ++ [Visit currentUrl; Navigate currentUrl])
  end.

(** One iteration of the [while] loop; [None] when its condition is false. *)
Definition step (w : World) (baseDomain : string) (maxPages : nat) (st : State) : option State :=
  match toVisit st with
  | [] => None
  | currentUrl :: _ =>
      if (length (visited st) <? maxPages)%nat then
        if bool_decide (currentUrl ∈ visited st) then Some (shift st)
        else Some (visitPage w baseDomain currentUrl (shift st))
      else None
  end.

(** The iterations that [continue]: the queue [q] is [toVisit st]; [visit]
    is what happens from the first URL that is not visited yet. *)
Fixpoint drain (visit : string -> State -> State) (maxPages : nat)
    (q : list string) (st : State) : State :=
  match q with
  | [] => st
  | currentUrl :: rest =>
      if (length (visited st) <? maxPages)%nat then
        if bool_decide (currentUrl ∈ visited st) then drain visit maxPages rest (shift st)
        else visit currentUrl (shift st)
      else st
  end.

(** The [while] loop. Every page visit uses one unit of [budget]; the loop
    never needs more than [maxPages - visited.size] of them. *)
Fixpoint loop (w : World) (baseDomain : string) (maxPages : nat) (budget : nat)
    (st : State) : State :=
  drain
    (match budget with
     | O => fun _ st' => st'
     | S b => fun currentUrl st' => loop w baseDomain maxPages b (visitPage w baseDomain currentUrl st')
     end) maxPages (toVisit st) st.

(** The URLs the trace navigated to. *)
Definition navigations (t : list Event) : list string :=
  omap (fun e => match e with Navigate u => Some u | Visit _ => None end) t.

(** The states of a crawl of [domain]. *)
Definition Reachable (w : World) (baseDomain : string) (maxPages : nat)
    (domain : string) (st : State) : Prop :=
  rtc (fun a b => step w baseDomain maxPages a = Some b) (init domain) st.

End Crawl.

(** [crawlWebsite(domain, maxPages)]: [None] when [new URL(domain)] throws;
    [pages] is [Array.from(visited)]. *)
Definition crawlState (w : World) (domain : string) (maxPages : nat) : option Crawl.State :=
  match hostname w domain with
  | None => None
  | Some baseDomain => Some (Crawl.loop w baseDomain maxPages maxPages (Crawl.init domain))
  end.

Definition crawlWebsite (w : World) (domain : string) (maxPages : nat)
    : option (list string * list Link.t) :=
  match crawlState w domain maxPages with
  | None => None
  | Some st => Some (Crawl.visited st, Crawl.allLinks st)
  end.

(** ** Numbers *)

Module Num.

(** A count as a JavaScript number. *)
Definition ofNat (n : nat) : float := PrimFloat.of_uint63 (Uint63.of_Z (Z.of_nat n)).

(** An integer as a JavaScript number. *)
Definition ofZ (z : Z) : float :=
  if (z <? 0)%Z then PrimFloat.opp (PrimFloat.of_uint63 (Uint63.of_Z (- z)))
  else PrimFloat.of_uint63 (Uint63.of_Z z).

(** [Math.round]: the closest integer, a tie going up; NaN, the infinities and
    the zeros are returned as they are, and a negative argument that rounds to
    zero gives the negative zero. A finite float is [m * 2^e]: with [e >= 0]
    it is an integer already; otherwise the rounded value is
    [floor ((2 m + 2^-e) / 2^(1 - e))], computed on integers. *)
Definition round (x : float) : float :=
  match Prim2SF x with
  | S754_finite s m e =>
      if (0 <=? e)%Z then x
      else
        let d := (2 ^ (- e))%Z in
        let n := if s then Z.neg m else Z.pos m in
        let r := ((2 * n + d) / (2 * d))%Z in
        if (r =? 0)%Z then (if s then PrimFloat.opp PrimFloat.zero else PrimFloat.zero)
        else ofZ r
  | _ => x
  end.

End Num.

(** ** Scan orchestrator *)

(** [linkAppearances]: the map built by
    [links.forEach(link => map.set(link.url, (map.get(link.url) || 0) + 1))]. *)
Definition countAppearance (m : gmap string nat) (l : Link.t) : gmap string nat :=
  <[Link.url l := default 0 (m !! Link.url l) + 1]> m.

Definition linkAppearances (links : list Link.t) : gmap string nat :=
  fold_left countAppearance links ∅.

(** [Array.from(new Set(xs))]: the distinct elements, in the order of their
    first occurrence. *)
Definition setFromList (xs : list string) : list string :=
  fold_left (fun s x => Crawl.setAdd x s) xs [].

(** [links.find(l => l.url === url)] *)
Definition findByUrl (links : list Link.t) (url : string) : option Link.t :=
  List.find (fun l => bool_decide (Link.url l = url)) links.

(** [uniqueLinks]: for every distinct URL, the first link that carries it. *)
Definition uniqueLinks (links : list Link.t) : list Link.t :=
  omap (findByUrl links) (setFromList (map Link.url links)).

(** A status inside a template literal. *)
Definition statusToString (status : Status) : string :=
  match status with
  | HTTP c => pretty c
  | ERROR => "ERROR"
  | DNS_ERROR => "DNS_ERROR"
  | TIMEOUT => "TIMEOUT"
  | CONNECTION_REFUSED => "CONNECTION_REFUSED"
  | Invalid => "Invalid"
  end.

(** [statusInfo.redirectCount > 0] *)
Definition hasRedirects (statusInfo : Info.t) : bool :=
  match Info.redirectCount statusInfo with Some n => (0 <? n)%Z | None => false end.

Definition needsAnalysis (statusInfo : Info.t) (l : Link.t) : bool :=
  negb (isCode (Info.status statusInfo) 200) ||
  hasRedirects statusInfo ||
  Js.includes (Js.toLowerCase (Link.context l)) "cta" ||
  Js.includes (Js.toLowerCase (Link.context l)) "button".

Definition isActualIssue (statusInfo : Info.t) : bool :=
  negb (isSuccessStatus (Info.status statusInfo)) &&
  negb (Info.treatAsWorking statusInfo) &&
  negb (isCode (Info.status statusInfo) 200) &&
  negb (isNumber (Info.status statusInfo) &&
        geCode (Info.status statusInfo) 300 &&
        ltCode (Info.status statusInfo) 400).

(** [aiAnalysis && aiAnalysis.issueType !== 'No Issue'] *)
Definition aiFlags (aiAnalysis : option Ai.t) : bool :=
  match aiAnalysis with
  | Some a => negb (bool_decide (Ai.issueType a = "No Issue"))
  | None => false
  end.

Definition friendlyMessage (statusInfo : Info.t) (aiAnalysis : option Ai.t) : string :=
  let status := Info.status statusInfo in
  let message :=
    if isCode status 404 then
      "Page not found (404). This link is broken and leads nowhere."
    else if isCode status 403 then
      "Access forbidden (403). The server is blocking access to this page."
    else if isCode status 500 then
      "Server error (500). The destination server has internal problems."
    else if bool_decide (status = TIMEOUT) then
      "Request timeout. The page took too long to respond."
    else if bool_decide (status = DNS_ERROR) then
      "Domain not found. The website address doesn't exist."
    else if bool_decide (status = CONNECTION_REFUSED) then
      "Connection refused. The server is not accepting connections."
    else if bool_decide (status = ERROR) then
      "Connection error: " +:+ Info.statusText statusInfo
    else if hasRedirects statusInfo && geCode status 300 && ltCode status 400 then
      "Working but has " +:+ pretty (default 0%Z (Info.redirectCount statusInfo)) +:+
      " redirect(s) which may slow page load."
    else
      Js.orElse (Ai.analysis <$> aiAnalysis)
        ("Link returned " +:+ statusToString status +:+ " status") in
  if Info.isAffiliate statusInfo then
    message +:+ " [Affiliate link - only checked if it opens, destination not scanned]"
  else if Info.checkedWithBrowser statusInfo then
    message +:+ " (Verified with browser)"
  else message.

Definition shouldTakeScreenshot (statusInfo : Info.t) : bool :=
  (isCode (Info.status statusInfo) 404 ||
   isCode (Info.status statusInfo) 500 ||
   bool_decide (Info.status statusInfo = ERROR) ||
   bool_decide (Info.status statusInfo = DNS_ERROR) ||
   bool_decide (Info.status statusInfo = TIMEOUT)) &&
  negb (Info.treatAsWorking statusInfo).

(** [aiAnalysis?.suggestedFix || null] *)
Definition suggestedFixOf (aiAnalysis : option Ai.t) : option string :=
  match aiAnalysis with
  | Some a =>
      match Ai.suggestedFix a with
      | Some s => if Js.truthy s then Some s else None
      | None => None
      end
  | None => None
  end.

(** The body of [for (const link of uniqueLinks)] when [results] holds [n]
    issues: the issue it pushes, if any, and the I/O of the iteration. *)
Definition checkOne (w : World) (appearances : gmap string nat)
    (n : nat) (l : Link.t) : option Issue.t * list Event :=
  let '(statusInfo, io) := checkLinkStatus w (Link.url l) true in
  let io := Verify (Link.url l) :: io in
  if Info.skip statusInfo then (None, io)
  else
    let appearanceCount := default 0 (appearances !! Link.url l) in
    let aiAnalysis :=
      if needsAnalysis statusInfo l then
        analyzeWithAI w (Link.text l) (Link.url l) (Link.context l) (Info.status statusInfo)
      else None in
    let io := io ++ (if needsAnalysis statusInfo l then [Analyze (Link.url l)] else []) in
    let impactScore :=
      calculateImpactScore (Info.status statusInfo) (Link.context l) appearanceCount in
    if isCode (Info.status statusInfo) 403 && Info.isAffiliate statusInfo then (None, io)
    else if isCode (Info.status statusInfo) 304 then (None, io)
    else if isActualIssue statusInfo || aiFlags aiAnalysis then
      let screenshot :=
        if shouldTakeScreenshot statusInfo then
          takeErrorScreenshot w (Link.pageUrl l) (Link.text l) (Link.url l)
        else None in
      let io := io ++ (if shouldTakeScreenshot statusInfo
                       then [Capture (Link.pageUrl l) (Link.text l) (Link.url l)] else []) in
      (Some
         (Issue.mk (n + 1) (Link.pageUrl l) (Link.text l) (Link.url l)
            (Info.status statusInfo) (Info.statusText statusInfo)
            (Info.responseTime statusInfo)
            (default 0%Z (Info.redirectCount statusInfo))
            (Js.orElse (Info.finalUrl statusInfo) (Link.url l))
            (Js.orElse (Ai.priority <$> aiAnalysis)
               (determinePriorityFromStatus (Info.status statusInfo)))
            (Js.orElse (Ai.issueType <$> aiAnalysis) (getIssueType (Info.status statusInfo)))
            (Link.context l)
            (friendlyMessage statusInfo aiAnalysis)
            (suggestedFixOf aiAnalysis)
            impactScore appearanceCount (Link.type l) screenshot), io)
    else (None, io).

(** The loop over [uniqueLinks], from the [results] and the events so far. *)
Fixpoint checkAll (w : World) (appearances : gmap string nat)
    (todo : list Link.t) (acc : list Issue.t * list Event) : list Issue.t * list Event :=
  match todo with
  | [] => acc
  | l :: todo' =>
      let '(pushed, io) := checkOne w appearances (length (fst acc)) l in
      checkAll w appearances todo' (fst acc ++ option_list pushed, snd acc ++ io)
  end.

(** [Math.round(((totalLinks - issueLinks) / totalLinks) * 100)] *)
Definition healthScore (totalLinks issueLinks : nat) : float :=
  Num.round
    (PrimFloat.mul
       (PrimFloat.div (PrimFloat.sub (Num.ofNat totalLinks) (Num.ofNat issueLinks))
          (Num.ofNat totalLinks))
       (Num.ofNat 100)).

(** [results.length > 0 ? Math.round(sum / results.length) : 0] *)
Definition avgImpactScore (results : list Issue.t) : float :=
  if (0 <? length results)%nat then
    Num.round
      (PrimFloat.div (Num.ofZ (fold_left (fun acc r => (acc + Issue.impactScore r)%Z) results 0%Z))
         (Num.ofNat (length results)))
  else Num.ofNat 0.

Record Stats : Type :=
  { totalPages : nat;
    totalLinks : nat;
    brokenLinks : nat;
    criticalIssues : nat;
    highIssues : nat;
    avgImpact : float }.

Definition countPriority (p : string) (results : list Issue.t) : nat :=
  length (List.filter (fun r => bool_decide (Issue.priority r = p)) results).

(** The comparison of the final [sort]:
    [priorityOrder[a.priority] - priorityOrder[b.priority]]. *)
Definition priorityOrder (p : string) : option Z :=
  if bool_decide (p = "Critical") then Some 0%Z
  else if bool_decide (p = "High") then Some 1%Z
  else if bool_decide (p = "Medium") then Some 2%Z
  else if bool_decide (p = "Low") then Some 3%Z
  else None.

Definition comparePriority (a b : Issue.t) : option Z :=
  match priorityOrder (Issue.priority a), priorityOrder (Issue.priority b) with
  | Some x, Some y => Some (x - y)%Z
  | _, _ => None
  end.

(** The document the scan answers with ([score] is its [healthScore],
    [avgImpact] its [stats.avgImpactScore]), and the I/O it performed. *)
Record Report : Type :=
  { score : float;
    stats : Stats;
    results : list Issue.t;
    pages : list string;
    events : list Event }.

(** The issues of a scan whose crawl found [links], in the order they were
    pushed. *)
Definition scanLinks (w : World) (links : list Link.t) : list Issue.t * list Event :=
  checkAll w (linkAppearances links) (uniqueLinks links) ([], []).

(** The handler of [POST /api/scan] for [domain], when no browser fails to
    launch; [None] is the answer [400 Invalid domain URL]. The default
    [maxPages] is 50. *)
Definition scan (w : World) (domain : string) : option Report :=
  match crawlWebsite w domain 50 with
  | None => None
  | Some (pages, links) =>
      let '(results, io) := scanLinks w links in
      Some {| score := healthScore (length links) (length results);
              stats := {| totalPages := length pages;
                          totalLinks := length links;
                          brokenLinks := length results;
                          criticalIssues := countPriority "Critical" results;
                          highIssues := countPriority "High" results;
                          avgImpact := avgImpactScore results |};
              results := arraySort w comparePriority results;
              pages := pages;
              events := io |}
  end.

(** ** A small site

    A concrete world, used to run the definitions: the site [https://site.test/]
    with a failing page, a broken link referenced twice, two affiliate links
    (one answered 403, one 404), an image answered 502, a mail link that a
    tracking pattern matches, and a link to another host. *)

Module Example.

(** The host of an [https://] URL: the text up to the first slash after the
    scheme. Anything else does not parse. *)
Fixpoint upToSlash (s : string) : string :=
  match s with
  | EmptyString => EmptyString
  | String c s' => if Ascii.eqb c "/" then EmptyString else String c (upToSlash s')
  end.

Definition hostOf (u : string) : option string :=
  if Js.startsWith u "https://" then Some (upToSlash (String.substring 8 (String.length u) u))
  else None.

(** A stable insertion sort for a comparison [cmp]: [a] stays before [b]
    unless [cmp a b > 0]. *)
Definition keepsOrder (cmp : Issue.t -> Issue.t -> option Z) (a b : Issue.t) : bool :=
  match cmp a b with Some z => (z <=? 0)%Z | None => true end.

Fixpoint insertBy (cmp : Issue.t -> Issue.t -> option Z) (x : Issue.t) (l : list Issue.t)
    : list Issue.t :=
  match l with
  | [] => [x]
  | y :: l' => if keepsOrder cmp x y then x :: y :: l' else y :: insertBy cmp x l'
  end.

Definition sortBy (cmp : Issue.t -> Issue.t -> option Z) (l : list Issue.t) : list Issue.t :=
  foldr (insertBy cmp) [] l.

Definition root : string := "https://site.test/".
Definition about : string := "https://site.test/about".
Definition missing : string := "https://site.test/missing".
Definition partner : string := "https://site.test/out/partner".
Definition deal : string := "https://site.test/goto/deal".
Definition banner : string := "https://cdn.test/banner.png".
Definition pixelMail : string := "mailto:team@analytics.site.test?subject=Hi".
Definition elsewhere : string := "https://other.test/page".

Definition rootLinks : list Raw.t :=
  [ Raw.mk about "About" "nav#menu" link;
    Raw.mk missing "Old page" "header#top.hero - CTA button" link;
    Raw.mk missing "Old page (footer)" "footer" link;
    Raw.mk partner "Partner" "main" link;
    Raw.mk deal "Deal" "main" link;
    Raw.mk banner "Banner" "div.hero" image;
    Raw.mk pixelMail "Write us" "footer" link;
    Raw.mk elsewhere "Elsewhere" "footer" link ].

Definition lowPriority : Ai.t := Ai.mk "The offer has expired." None "Broken Link" "Low".

Definition site : World :=
  {| hostname := hostOf;
     loadPage u :=
       if bool_decide (u = root) then Loaded rootLinks
       else if bool_decide (u = about) then LoadFailed
       else Loaded [];
     browserGoto u :=
       if bool_decide (u = partner) then BrowserResponse 403 "Forbidden" u 120
       else if bool_decide (u = deal) then BrowserResponse 404 "Not Found" u 90
       else BrowserFailure "net::ERR_ABORTED";
     axiosGet u :=
       if bool_decide (u = missing) then AxiosResponse 404 "Not Found" None None 35
       else if bool_decide (u = banner) then AxiosResponse 502 "Bad Gateway" None None 50
       else AxiosResponse 200 "OK" None None 20;
     analyzeWithAI _ u _ _ := if bool_decide (u = deal) then Some lowPriority else None;
     takeErrorScreenshot _ _ _ := Some "iVBORw0KGgo=";
     arraySort := sortBy |}.

(** A site whose only page does not load. *)
Definition deadSite : World :=
  {| hostname := hostOf;
     loadPage _ := LoadFailed;
     browserGoto _ := BrowserFailure "net::ERR_ABORTED";
     axiosGet _ := AxiosFailure (Some "ENOTFOUND") None "getaddrinfo ENOTFOUND";
     analyzeWithAI _ _ _ _ := None;
     takeErrorScreenshot _ _ _ := None;
     arraySort := sortBy |}.

End Example.

(** * The specification's words

    What the specification says, stated on its own, to be compared with the
    code. *)

Module Spec.

(** Every character of [s] satisfies [p]. *)
Fixpoint allChars (p : ascii -> bool) (s : string) : bool :=
  match s with
  | EmptyString => true
  | String c s' => p c && allChars p s'
  end.

(** The conservative e-mail shape: [mailto:], a non-empty local part of
    letters, digits, dots, underscores and hyphens, an [@], a non-empty domain
    of letters, digits, dots and hyphens, a dot, and at least two letters. *)
Definition EmailShape (url : string) : Prop :=
  exists localPart domain tld : string,
    url = "mailto:" +:+ localPart +:+ "@" +:+ domain +:+ "." +:+ tld /\
    localPart <> "" /\ allChars isLocalChar localPart = true /\
    domain <> "" /\ allChars isDomainChar domain = true /\
    (2 <= String.length tld)%nat /\ allChars Re.isAlpha tld = true.

(** The context mentions [word], whatever the case. *)
Definition mentions (context word : string) : bool :=
  Js.includes (Js.toLowerCase context) word.

(** The score added for the status: 30 for 404, 35 for a status from 500 on,
    20 for 403, 10 for a 3xx. *)
Definition statusBonus (status : Status) : Z :=
  match status with
  | HTTP c =>
      if (c =? 404)%Z then 30
      else if (500 <=? c)%Z then 35
      else if (c =? 403)%Z then 20
      else if ((300 <=? c) && (c <? 400))%Z then 10
      else 0
  | _ => 0
  end%Z.

(** The score added for the context: 20 for a call to action, 15 for the hero
    or header, 10 for the navigation. *)
Definition contextBonus (context : string) : Z :=
  ((if mentions context "cta" || mentions context "button" then 20 else 0) +
   (if mentions context "hero" || mentions context "header" then 15 else 0) +
   (if mentions context "navigation" then 10 else 0))%Z.

(** [min(n * 5, 20)] *)
Definition appearanceBonus (n : nat) : Z := Z.min (Z.of_nat n * 5) 20.

Definition clamp (lo hi x : Z) : Z := Z.min (Z.max x lo) hi.

Definition impactScore (status : Status) (context : string) (n : nat) : Z :=
  clamp 0 100 (50 + statusBonus status + contextBonus context + appearanceBonus n).

(** The number of pages on which [url] appears. *)
Definition pagesWith (links : list Link.t) (url : string) : nat :=
  length (setFromList
            (map Link.pageUrl (List.filter (fun l => bool_decide (Link.url l = url)) links))).

(** The number of references that carry [url]. *)
Definition referencesTo (links : list Link.t) (url : string) : nat :=
  length (List.filter (fun l => bool_decide (Link.url l = url)) links).

End Spec.

(** The fallback priority as the specification's table words it: Critical
    for 404 and every 5xx, High for 403, 401 and a timeout, Medium for every
    3xx, Low for everything else. *)
Module Claimed.

Definition priority (status : Status) : string :=
  match status with
  | HTTP c =>
      if (c =? 404)%Z || ((500 <=? c) && (c <=? 599))%Z then "Critical"
      else if (c =? 403)%Z || (c =? 401)%Z then "High"
      else if ((300 <=? c) && (c <=? 399))%Z then "Medium"
      else "Low"
  | TIMEOUT => "High"
  | _ => "Low"
  end.

(** The statuses for which the specification asks for a screenshot. *)
Definition evidenceWorthy (status : Status) : bool :=
  match status with
  | HTTP c => (c =? 404)%Z || ((500 <=? c) && (c <=? 599))%Z
  | ERROR | DNS_ERROR | TIMEOUT => true
  | _ => false
  end.

End Claimed.

(** ** Reading a scan *)

(** The issue [i] with another [id]. *)
Definition withId (n : nat) (i : Issue.t) : Issue.t :=
  Issue.mk n (Issue.pageUrl i) (Issue.linkText i) (Issue.linkUrl i) (Issue.status i)
    (Issue.statusText i) (Issue.responseTime i) (Issue.redirectCount i) (Issue.finalUrl i)
    (Issue.priority i) (Issue.type i) (Issue.context i) (Issue.aiAnalysis i)
    (Issue.suggestedFix i) (Issue.impactScore i) (Issue.appearancesCount i)
    (Issue.linkType i) (Issue.screenshot i).

(** The URLs passed to [checkLinkStatus], and the target URLs passed to
    [takeErrorScreenshot], in order. *)
Definition verifications (evs : list Event) : list string :=
  omap (fun e => match e with Verify u => Some u | _ => None end) evs.

Definition captures (evs : list Event) : list string :=
  omap (fun e => match e with Capture _ _ u => Some u | _ => None end) evs.

(** The outcome the scan obtains for [url]. *)
Definition outcome (w : World) (url : string) : Info.t := fst (checkLinkStatus w url true).

(** The answer of the analysis the scan asks for the link [l], if it asks. *)
Definition analysisOf (w : World) (l : Link.t) : option Ai.t :=
  if needsAnalysis (outcome w (Link.url l)) l then
    analyzeWithAI w (Link.text l) (Link.url l) (Link.context l)
      (Info.status (outcome w (Link.url l)))
  else None.

(** The references the crawl of [domain] collects. *)
Definition scannedLinks (w : World) (domain : string) : list Link.t :=
  match crawlWebsite w domain 50 with
  | Some (_, links) => links
  | None => []
  end.

(** The URL reaches the branch of [checkLinkStatus] that uses the browser: it
    is affiliate-class, and no earlier branch answers it. *)
Definition browserVerified (url : string) : bool :=
  negb (isTrackingPixel url) &&
  negb (Js.startsWith url "data:" || Js.startsWith url "blob:") &&
  negb (Js.startsWith url "mailto:") &&
  negb (Js.startsWith url "tel:") &&
  negb (Js.startsWith url "javascript:" || Js.startsWith url "#") &&
  isAffiliateLink url.

(** The iteration for the link [l] pushes an issue. *)
Definition pushes (w : World) (l : Link.t) : bool :=
  negb (Info.skip (outcome w (Link.url l))) &&
  negb (isCode (Info.status (outcome w (Link.url l))) 403 &&
        Info.isAffiliate (outcome w (Link.url l))) &&
  negb (isCode (Info.status (outcome w (Link.url l))) 304) &&
  (isActualIssue (outcome w (Link.url l)) || aiFlags (analysisOf w l)).

(** The health score the specification asks for: undefined without links,
    and otherwise [100 * (totalLinks - issueCount) / totalLinks] rounded to
    the closest integer, a tie going up as [Math.round] does. *)
Definition specHealthScore (totalLinks issueCount : nat) : option Z :=
  if (totalLinks =? 0)%nat then None
  else Some ((200 * (Z.of_nat totalLinks - Z.of_nat issueCount) + Z.of_nat totalLinks)
             / (2 * Z.of_nat totalLinks))%Z.

(** ** The scans of the small site *)

Module Run.

Definition blank : Report :=
  {| score := Num.ofNat 0;
     stats := {| totalPages := 0; totalLinks := 0; brokenLinks := 0;
                 criticalIssues := 0; highIssues := 0; avgImpact := Num.ofNat 0 |};
     results := [];
     pages := [];
     events := [] |}.

(** The report of the scan of [Example.site]. *)
Definition siteReport : Report :=
  Eval vm_compute in default blank (scan Example.site Example.root).

(** Its issues for one URL. *)
Definition issuesFor (url : string) : list Issue.t :=
  List.filter (fun i => bool_decide (Issue.linkUrl i = url)) (results siteReport).

(** Its first issue: the broken link [Example.missing]. *)
Definition firstIssue : Issue.t :=
  Eval vm_compute in default (withId 0 (Issue.mk 0 "" "" "" Invalid "" 0 0 "" "" "" "" "" None 0 0 link None))
                       (head (results siteReport)).

(** The state of the crawl of [Example.site] after its first iteration. *)
Definition afterRoot : Crawl.State :=
  Eval vm_compute in
    default (Crawl.init Example.root)
      (Crawl.step Example.site "site.test" 50 (Crawl.init Example.root)).

End Run.

(** ** Reading a crawl *)

(** The URLs the trace marked visited. *)
Definition visits (t : list Crawl.Event) : list string :=
  omap (fun e => match e with Crawl.Visit u => Some u | Crawl.Navigate _ => None end) t.

(** A target that may be followed: not an affiliate link, on the root's host. *)
Definition followable (w : World) (baseDomain url : string) : Prop :=
  isAffiliateLink url = false /\ hostname w url = Some baseDomain.

(** A trace made of the two things an iteration can do: mark a URL visited
    and fail to open a tab, or mark it visited and navigate to it. *)
Inductive Blocks : list Crawl.Event -> Prop :=
| blocks_nil : Blocks []
| blocks_tab t u : Blocks t -> Blocks (t ++ [Crawl.Visit u])
| blocks_nav t u : Blocks t -> Blocks (t ++ [Crawl.Visit u; Crawl.Navigate u]).

(** What holds of every state of a crawl of [domain]. *)
Record CrawlInv (w : World) (baseDomain : string) (maxPages : nat) (domain : string)
    (st : Crawl.State) : Prop :=
  { inv_nodup : NoDup (Crawl.visited st);
    inv_bound : length (Crawl.visited st) <= maxPages;
    inv_queue : forall u, u ∈ Crawl.toVisit st -> u = domain \/ followable w baseDomain u;
    inv_blocks : Blocks (Crawl.trace st);
    inv_visits : visits (Crawl.trace st) = Crawl.visited st;
    inv_links : forall l, l ∈ Crawl.allLinks st -> Link.pageUrl l ∈ Crawl.visited st }.


(** * Further code

    The rest of [backend/server.js] and the dashboard component, and what the
    theorems about them need. *)

(** What a visited page adds to [allLinks]: its extracted elements, each with
    the page's URL, or nothing when the tab or the navigation failed. *)
Definition pageReferences (w : World) (page : string) : list Link.t :=
  match loadPage w page with
  | Loaded links => map (Link.ofRaw page) links
  | TabFailed | LoadFailed => []
  end.

(** The URL an event of the scan is about. *)
Definition eventUrl (e : Event) : string :=
  match e with
  | Verify u | BrowserGoto u | HttpGet u | Analyze u | Capture _ _ u => u
  end.

(** The URL is answered by [checkLinkStatus] as a tracking pixel or as inline
    content. *)
Definition skipped (url : string) : bool :=
  isTrackingPixel url || Js.startsWith url "data:" || Js.startsWith url "blob:".

(** The URL is answered by [checkLinkStatus] without a request: it is skipped,
    or it is a [mailto:], [tel:], [javascript:] or fragment link. *)
Definition answeredLocally (url : string) : bool :=
  skipped url || Js.startsWith url "mailto:" || Js.startsWith url "tel:" ||
  Js.startsWith url "javascript:" || Js.startsWith url "#".

(** The URL reaches the [axios.get] of [checkLinkStatus]: no earlier branch
    answers it, and it is not verified with the browser. *)
Definition httpVerified (url : string) (browser : bool) : bool :=
  negb (answeredLocally url) && negb (browser && isAffiliateLink url).

(** The error codes that [checkLinkStatus] gives a status of their own. *)
Definition sentinelCode (code : option string) : bool :=
  bool_decide (code = Some "ENOTFOUND") || bool_decide (code = Some "ETIMEDOUT") ||
  bool_decide (code = Some "ECONNABORTED") || bool_decide (code = Some "ECONNREFUSED").

(** One of the four priority levels. *)
Definition isLevel (p : string) : bool :=
  bool_decide (p = "Critical") || bool_decide (p = "High") ||
  bool_decide (p = "Medium") || bool_decide (p = "Low").

(** ** A small shop

    A second concrete world: a shop whose call-to-action link is answered 200
    and flagged by the analysis, with a plain working link, an inline image, a
    redirected link, a dead link referenced from two pages and a link to a
    host that does not resolve. *)

Module Shop.

Definition root : string := "https://shop.test/".
Definition buy : string := "https://shop.test/buy".
Definition plain : string := "https://shop.test/plain".
Definition inlineImage : string := "data:image/png;base64,AAAA".
Definition moved : string := "https://shop.test/moved".
Definition gone : string := "https://shop.test/gone".
Definition down : string := "https://down.test/x".

Definition rootLinks : list Raw.t :=
  [ Raw.mk buy "Buy now" "main#offer - CTA button" link;
    Raw.mk plain "Terms" "footer" link;
    Raw.mk inlineImage "Image" "div" image;
    Raw.mk moved "Blog" "nav" link;
    Raw.mk gone "Catalogue" "nav" link;
    Raw.mk down "Partner" "footer" link ].

Definition buyLinks : list Raw.t :=
  [ Raw.mk gone "Back to the catalogue" "header" link;
    Raw.mk root "Home" "nav" link ].

Definition mismatch : Ai.t :=
  Ai.mk "The button promises a purchase and opens the login page." None
    "Context Mismatch" "Medium".

Definition world : World :=
  {| hostname := Example.hostOf;
     loadPage u :=
       if bool_decide (u = root) then Loaded rootLinks
       else if bool_decide (u = buy) then Loaded buyLinks
       else Loaded [];
     browserGoto _ := BrowserFailure "net::ERR_ABORTED";
     axiosGet u :=
       if bool_decide (u = gone) then AxiosResponse 404 "Not Found" None None 31
       else if bool_decide (u = moved) then AxiosResponse 200 "OK" (Some 2%Z) (Some plain) 80
       else if bool_decide (u = down) then
         AxiosFailure (Some "ENOTFOUND") None "getaddrinfo ENOTFOUND down.test"
       else AxiosResponse 200 "OK" None None 20;
     analyzeWithAI _ u _ _ := if bool_decide (u = buy) then Some mismatch else None;
     takeErrorScreenshot _ _ _ := Some "iVBORw0KGgo=";
     arraySort := Example.sortBy |}.

(** The report of the scan of the shop. *)
Definition report : Report :=
  Eval vm_compute in default Run.blank (scan world root).

(** Its issues, in the order of the report. *)
Definition issue (n : nat) : Issue.t :=
  default Run.firstIssue (results report !! n).

End Shop.

(** ** Text analysis: [analyzeWithAI]

    The service is asked once for a link that is not in the cache; its answer
    is one of: an exception ([fetch], [response.json()] or the parsing
    throws), a response that is not [ok], a body without content, or the text
    of the first content block. *)

Module Analysis.

Inductive Answer : Type :=
| Throws
| NotOk (status : Z) (statusText : string)
| NoContent
| Text (text : string).

(** The newline, and the characters [.] does not match (on ASCII). *)
Definition newline : ascii := "010"%char.

Definition isLineTerminator (c : ascii) : bool :=
  Ascii.eqb c "010"%char || Ascii.eqb c "013"%char.

(** The characters [trim] removes (on ASCII): tab, line feed, vertical tab,
    form feed, carriage return, space. *)
Definition isSpace (c : ascii) : bool :=
  let n := nat_of_ascii c in ((9 <=? n) && (n <=? 13))%nat || (n =? 32)%nat.

Fixpoint trimStart (s : string) : string :=
  match s with
  | EmptyString => EmptyString
  | String c s' => if isSpace c then trimStart s' else s
  end.

Fixpoint trimEnd (s : string) : string :=
  match s with
  | EmptyString => EmptyString
  | String c s' =>
      match trimEnd s' with
      | EmptyString => if isSpace c then EmptyString else String c EmptyString
      | t => String c t
      end
  end.

(** [s.trim()] *)
Definition trim (s : string) : string := trimEnd (trimStart s).

(** The longest prefix without a line terminator: what [(.+)] captures. *)
Fixpoint takeLine (s : string) : string :=
  match s with
  | EmptyString => EmptyString
  | String c s' => if isLineTerminator c then EmptyString else String c (takeLine s')
  end.

(** The rest of [s] after the prefix [p], when [s] starts with [p]. *)
Fixpoint dropPrefix (p s : string) {struct p} : option string :=
  match p, s with
  | EmptyString, _ => Some s
  | String _ _, EmptyString => None
  | String a p', String b s' => if Ascii.eqb a b then dropPrefix p' s' else None
  end.

(** A match of [/label(.+)/] at the start of [text]: its group 1. *)
Definition matchHere (label text : string) : option string :=
  match dropPrefix label text with
  | Some rest => if Js.truthy (takeLine rest) then Some (takeLine rest) else None
  | None => None
  end.

(** [text.match(/label(.+)/)]: group 1 of the leftmost match, if any. *)
Fixpoint matchLabel (label text : string) : option string :=
  match matchHere label text with
  | Some captured => Some captured
  | None =>
      match text with
      | EmptyString => None
      | String _ text' => matchLabel label text'
      end
  end.

(** The four fields read from the answer's text. *)
Definition parse (aiResponse : string) : Ai.t :=
  let analysisMatch := matchLabel "ANALYSIS: " aiResponse in
  let fixMatch := matchLabel "SUGGESTED_FIX: " aiResponse in
  let typeMatch := matchLabel "ISSUE_TYPE: " aiResponse in
  let priorityMatch := matchLabel "PRIORITY: " aiResponse in
  Ai.mk
    (match analysisMatch with Some m => trim m | None => "Unable to analyze" end)
    (match fixMatch with
     | Some m => if negb (bool_decide (trim m = "None")) then Some (trim m) else None
     | None => None
     end)
    (match typeMatch with Some m => trim m | None => "Unknown" end)
    (match priorityMatch with Some m => trim m | None => "Low" end).

(** [`${linkData.linkText}-${linkData.linkUrl}-${linkData.context}`] *)
Definition cacheKey (linkText linkUrl context : string) : string :=
  linkText +:+ "-" +:+ linkUrl +:+ "-" +:+ context.

(** [analyzeWithAI(linkData)] with the cache [analysisCache] passed in and
    out: the result, the new cache, and whether the service was asked. *)
Definition analyzeWithAI (service : string -> string -> string -> Status -> Answer)
    (cache : gmap string Ai.t) (linkText linkUrl context : string) (status : Status)
    : option Ai.t * gmap string Ai.t * bool :=
  match cache !! cacheKey linkText linkUrl context with
  | Some cached => (Some cached, cache, false)
  | None =>
      match service linkText linkUrl context status with
      | Text aiResponse =>
          let result := parse aiResponse in
          (Some result, <[cacheKey linkText linkUrl context := result]> cache, true)
      | Throws | NotOk _ _ | NoContent => (None, cache, true)
      end
  end.

(** An answer in the format the prompt asks for. *)
Definition render (analysis suggestedFix issueType priority : string) : string :=
  "ANALYSIS: " +:+ analysis +:+ String newline
  ("SUGGESTED_FIX: " +:+ suggestedFix +:+ String newline
  ("ISSUE_TYPE: " +:+ issueType +:+ String newline
  ("PRIORITY: " +:+ priority))).

(** The text contains a colon followed by a space. *)
Fixpoint hasColonSpace (s : string) : bool :=
  match s with
  | EmptyString => false
  | String c s' =>
      (Ascii.eqb c ":" && match s' with String d _ => Ascii.eqb d " " | EmptyString => false end)
      || hasColonSpace s'
  end.

(** A field that survives the format: not empty, already trimmed, on one
    line, and without a colon followed by a space. *)
Definition cleanField (x : string) : Prop :=
  x <> "" /\ trim x = x /\ Spec.allChars (fun c => negb (isLineTerminator c)) x = true /\
  hasColonSpace x = false.

(** What follows a field: the end of the text or a line terminator. *)
Definition endsLine (tail : string) : bool :=
  match tail with
  | EmptyString => true
  | String c _ => isLineTerminator c
  end.

(** A label: characters that are no line terminators, ending in a colon and a
    space. *)
Fixpoint labelLike (l : string) : bool :=
  match l with
  | EmptyString => false
  | String c l' =>
      negb (isLineTerminator c) &&
      ((Ascii.eqb c ":" && bool_decide (l' = " ")) || labelLike l')
  end.

End Analysis.

(** ** The highlight of a screenshot: the search of [takeErrorScreenshot]

    The function evaluated in the page, over the elements selected by
    [a, img[src], button, [role="button"]] in document order, with its
    [try]/[catch]: an exception anywhere in the search gives the result
    [{ success: false, strategy: 'error' }]. *)

Module Highlight.

(** The operations of JavaScript strings whose result depends on Unicode or
    on the UTF-16 encoding: [s.trim()], [s.toLowerCase()], [s.length] and
    [s.substring(0, n)]. The search is defined for any such operations;
    [ascii] is what they are on ASCII text. *)
Record Text : Type :=
  { trim : string -> string;
    toLowerCase : string -> string;
    length : string -> nat;
    prefix : nat -> string -> string }.

Definition ascii : Text :=
  {| trim := Analysis.trim;
     toLowerCase := Js.toLowerCase;
     length := String.length;
     prefix := String.substring 0 |}.

(** The value of a property of an element: a falsy value that is no string
    ([undefined], [null]), a string, or a truthy value that is no string and
    has no string method, such as the [SVGAnimatedString] that is the [href]
    of an SVG link. *)
Inductive Value : Type :=
| Falsy
| Str (s : string)
| Other.

Record Element : Type :=
  mk { innerText : Value;
       alt : Value;
       textContent : Value;
       href : Value;
       src : Value }.

Definition truthy (v : Value) : bool :=
  match v with
  | Falsy => false
  | Str s => Js.truthy s
  | Other => true
  end.

(** [a || b] *)
Definition orElse (a b : Value) : Value := if truthy a then a else b.

(** The receiver of a call of a string method: a [TypeError] is thrown
    ([None]) when it is no string. *)
Definition asString (v : Value) : option string :=
  match v with
  | Str s => Some s
  | Falsy | Other => None
  end.

(** [el.innerText || el.alt || el.textContent || ''] *)
Definition textValue (el : Element) : Value :=
  orElse (innerText el) (orElse (alt el) (orElse (textContent el) (Str ""))).

(** [el.href || el.src || ''] *)
Definition urlValue (el : Element) : Value :=
  orElse (href el) (orElse (src el) (Str "")).

(** [s.split('?')[0]] *)
Fixpoint beforeQuery (s : string) : string :=
  match s with
  | EmptyString => EmptyString
  | String c s' => if Ascii.eqb c "?" then EmptyString else String c (beforeQuery s')
  end.

(** What the body of a loop does with one element: it throws, it goes on to
    the next element, or it marks the element, sets [matchedElement] and
    leaves the loop. *)
Inductive Step : Type :=
| Throws
| Skip
| Match (matchedElement : string).

(** Strategy 1: the same text, whatever the case. *)
Definition exactText (T : Text) (searchText : string) (el : Element) : Step :=
  match asString (textValue el) with
  | None => Throws
  | Some text =>
      let elementText := trim T text in
      if Js.truthy elementText &&
         bool_decide (toLowerCase T elementText = toLowerCase T searchText)
      then Match elementText else Skip
  end.

(** Strategy 2: a text that contains the searched text, whatever the case. *)
Definition partialText (T : Text) (searchText : string) (el : Element) : Step :=
  match asString (textValue el) with
  | None => Throws
  | Some text =>
      let elementText := toLowerCase T (trim T text) in
      let searchLower := toLowerCase T searchText in
      if Js.truthy elementText && Js.includes elementText searchLower
      then Match elementText else Skip
  end.

(** Strategy 3: a URL that contains the searched URL without its query, or
    that the searched URL contains. *)
Definition urlMatch (T : Text) (searchUrl : string) (el : Element) : Step :=
  let elementUrl := urlValue el in
  if truthy elementUrl && Js.truthy searchUrl then
    let urlParts := beforeQuery searchUrl in
    match asString elementUrl with
    | None => Throws
    | Some url =>
        if Js.includes url urlParts || Js.includes searchUrl url
        then Match (prefix T 50 url) else Skip
    end
  else Skip.

(** How a loop over the elements ends. *)
Inductive Outcome : Type :=
| Found (index : nat) (matchedElement : string)
| NotFound
| Threw.

(** [for (const el of allElements) { ... }] *)
Fixpoint firstMatch (body : Element -> Step) (allElements : list Element) : Outcome :=
  match allElements with
  | [] => NotFound
  | el :: rest =>
      match body el with
      | Throws => Threw
      | Match matchedElement => Found 0 matchedElement
      | Skip =>
          match firstMatch body rest with
          | Found i matchedElement => Found (S i) matchedElement
          | NotFound => NotFound
          | Threw => Threw
          end
      end
  end.

Inductive Strategy : Type := ExactText | PartialText | UrlMatch | Banner.

(** [{ success: found, strategy, totalElements, matchedText }] with the index
    of the element that received the class [broken-link-highlight], or the
    result of the [catch]. *)
Inductive Result : Type :=
| Done (strategy : Strategy) (totalElements : nat) (matchedText : string)
       (highlighted : option nat)
| Failed.


Definition search (T : Text) (searchText searchUrl : string) (allElements : list Element)
    : Result :=
  let total := List.length allElements in
  match firstMatch (exactText T searchText) allElements with
  | Threw => Failed
  | Found i matchedElement => Done ExactText total matchedElement (Some i)
  | NotFound =>
      match (if (3 <? length T searchText)%nat
             then firstMatch (partialText T searchText) allElements else NotFound) with
      | Threw => Failed
      | Found i matchedElement => Done PartialText total matchedElement (Some i)
      | NotFound =>
          match firstMatch (urlMatch T searchUrl) allElements with
          | Threw => Failed
          | Found i matchedElement => Done UrlMatch total matchedElement (Some i)
          | NotFound => Done Banner total "banner-shown" None
          end
      end
  end.




(** The properties the search reads are strings or falsy. *)
Definition plain (el : Element) : Prop :=
  innerText el <> Other /\ alt el <> Other /\ textContent el <> Other /\
  href el <> Other /\ src el <> Other.

(** An SVG link: no [innerText], and an [href] that is an object. *)
Definition svgLink : Element := mk Falsy Falsy (Str "Shop") Other Falsy.

End Highlight.

(** ** The dashboard: the list shown and the screenshots downloaded *)

Module Dashboard.

(** The first filter of [filteredResults]: the priority buttons. *)
Definition byPriority (filter : string) (r : Issue.t) : bool :=
  if bool_decide (filter = "all") then true
  else if bool_decide (filter = "critical") then bool_decide (Issue.priority r = "Critical")
  else if bool_decide (filter = "high") then bool_decide (Issue.priority r = "High")
  else if bool_decide (filter = "medium") then bool_decide (Issue.priority r = "Medium")
  else true.

(** The second filter: the search box. *)
Definition bySearch (searchTerm : string) (r : Issue.t) : bool :=
  if negb (Js.truthy searchTerm) then true
  else
    let search := Js.toLowerCase searchTerm in
    Js.includes (Js.toLowerCase (Issue.linkText r)) search ||
    Js.includes (Js.toLowerCase (Issue.linkUrl r)) search ||
    Js.includes (Js.toLowerCase (Issue.pageUrl r)) search ||
    Js.includes (Js.toLowerCase (Issue.type r)) search.

(** The comparison given to [sort]; [None] is NaN. *)
Definition compare (sortBy : string) (a b : Issue.t) : option Z :=
  if bool_decide (sortBy = "priority") then comparePriority a b
  else if bool_decide (sortBy = "impact") then
    Some (Issue.impactScore b - Issue.impactScore a)%Z
  else if bool_decide (sortBy = "appearances") then
    Some (Z.of_nat (Issue.appearancesCount b) - Z.of_nat (Issue.appearancesCount a))%Z
  else Some 0%Z.

(** [results.filter(...).filter(...).sort(...)], with the browser's [sort]. *)
Definition filteredResults
    (arraySort : (Issue.t -> Issue.t -> option Z) -> list Issue.t -> list Issue.t)
    (filter searchTerm sortBy : string) (results : list Issue.t) : list Issue.t :=
  arraySort (compare sortBy)
    (List.filter (bySearch searchTerm) (List.filter (byPriority filter) results)).

(** [r.screenshot] as a condition: a screenshot that is not empty. *)
Definition hasScreenshot (r : Issue.t) : bool :=
  match Issue.screenshot r with
  | Some s => Js.truthy s
  | None => false
  end.

(** [s.replace(/[^a-z0-9]/gi, '_')] *)
Fixpoint sanitize (s : string) : string :=
  match s with
  | EmptyString => EmptyString
  | String c s' => String (if Re.isAlnum c then c else "_"%char) (sanitize s')
  end.

(** The [download] attribute of the link made for the screenshot at [index]. *)
Definition fileName (index : nat) (result : Issue.t) : string :=
  "error-" +:+ pretty (index + 1) +:+ "-" +:+
  sanitize (String.substring 0 30 (Issue.linkText result)) +:+ ".png".

(** [downloadAllScreenshots]: the name and the address of every link that is
    clicked, in order. *)
Definition downloadAllScreenshots (shown : list Issue.t) : list (string * string) :=
  let screenshotResults := List.filter hasScreenshot shown in
  imap (fun index result =>
          (fileName index result,
           "data:image/png;base64," +:+ default "" (Issue.screenshot result)))
       screenshotResults.

(** The count as the table shows it:
    [{result.appearancesCount} {result.appearancesCount === 1 ? 'page' : 'pages'}] *)
Definition appearancesLabel (result : Issue.t) : string :=
  pretty (Issue.appearancesCount result) +:+ " " +:+
  (if bool_decide (Issue.appearancesCount result = 1) then "page" else "pages").

(** A character of a file name body: a letter, a digit or an underscore. *)
Definition isNameChar (c : ascii) : bool := Re.isAlnum c || Ascii.eqb c "_".

End Dashboard.

(** * Properties *)

(** ** The matcher decides the language *)

Module ReFacts.
Import Re.

Lemma append_empty (s1 s2 : string) : s1 +:+ s2 = "" -> s1 = "" /\ s2 = "".
Proof. destruct s1; simpl; [tauto | discriminate]. Qed.

Lemma append_cons (s1 s2 : string) (c : ascii) (s : string) :
  s1 +:+ s2 = String c s ->
  (s1 = "" /\ s2 = String c s) \/ (exists s1', s1 = String c s1' /\ s = s1' +:+ s2).
Proof.
  destruct s1 as [|a s1]; simpl; intros H; [left | right]; [tauto |].
  injection H as -> <-. eauto.
Qed.

Lemma nullable_matches (r : regex) : nullable r = true <-> matches r "".
Proof.
  split.
  - induction r; simpl; intros H; try discriminate.
    + constructor.
    + apply andb_true_iff in H as [H1 H2].
      change "" with ("" +:+ ""). constructor; auto.
    + apply orb_true_iff in H as [H|H]; [apply m_alt_l | apply m_alt_r]; auto.
    + constructor.
  - intros H. remember "" as s eqn:Hs.
    induction H; simpl; try discriminate; auto.
    + apply append_empty in Hs as [-> ->]. rewrite IHmatches1, IHmatches2; auto.
    + rewrite IHmatches; auto.
    + rewrite IHmatches, orb_true_r; auto.
Qed.

Lemma star_cons_inv (r : regex) (c : ascii) (s : string) :
  matches (Star r) (String c s) ->
  exists s1 s2, s = s1 +:+ s2 /\ matches r (String c s1) /\ matches (Star r) s2.
Proof.
  intros H. remember (Star r) as r0 eqn:Hr. remember (String c s) as s0 eqn:Hs.
  revert s Hs. induction H; intros s' Hs; try discriminate.
  injection Hr as ->.
  apply append_cons in Hs as [[-> ->] | (s1' & -> & ->)].
  - apply IHmatches2; auto.
  - eauto.
Qed.

Lemma cat_inv (r1 r2 : regex) (s : string) :
  matches (Cat r1 r2) s -> exists s1 s2, s = s1 +:+ s2 /\ matches r1 s1 /\ matches r2 s2.
Proof. inversion 1; eauto. Qed.

Lemma alt_inv (r1 r2 : regex) (s : string) :
  matches (Alt r1 r2) s -> matches r1 s \/ matches r2 s.
Proof. inversion 1; auto. Qed.

Lemma class_inv (p : ascii -> bool) (s : string) :
  matches (Class p) s -> exists c, s = String c "" /\ p c = true.
Proof. inversion 1; eauto. Qed.

Lemma eps_inv (s : string) : matches Eps s -> s = "".
Proof. inversion 1; auto. Qed.

Lemma cat_cons (r1 r2 : regex) (c : ascii) (s1 s2 : string) :
  matches r1 (String c s1) -> matches r2 s2 -> matches (Cat r1 r2) (String c (s1 +:+ s2)).
Proof. intros H1 H2. apply (m_cat _ _ _ _ H1 H2). Qed.

Lemma deriv_matches (r : regex) (c : ascii) (s : string) :
  matches (deriv c r) s <-> matches r (String c s).
Proof.
  revert s. induction r; intros s; simpl.
  - split; inversion 1.
  - split; inversion 1.
  - destruct (p c) eqn:Hp; split; intros H.
    + apply eps_inv in H as ->. constructor; auto.
    + apply class_inv in H as (c' & ? & _). simplify_eq. constructor.
    + inversion H.
    + apply class_inv in H as (c' & ? & H). simplify_eq. congruence.
  - destruct (nullable r1) eqn:Hn; split; intros H.
    + apply alt_inv in H as [H|H].
      * apply cat_inv in H as (s1 & s2 & -> & H1 & H2).
        apply cat_cons; [apply IHr1|]; auto.
      * apply (m_cat r1 r2 "" (String c s)); [apply nullable_matches | apply IHr2]; auto.
    + apply cat_inv in H as (s1 & s2 & Hs & H1 & H2). symmetry in Hs.
      apply append_cons in Hs as [[-> ->] | (s1' & -> & ->)].
      * apply m_alt_r, IHr2; auto.
      * apply m_alt_l. constructor; [apply IHr1|]; auto.
    + apply cat_inv in H as (s1 & s2 & -> & H1 & H2).
      apply cat_cons; [apply IHr1|]; auto.
    + apply cat_inv in H as (s1 & s2 & Hs & H1 & H2). symmetry in Hs.
      apply append_cons in Hs as [[-> ->] | (s1' & -> & ->)].
      * apply nullable_matches in H1. congruence.
      * constructor; [apply IHr1|]; auto.
  - split; intros H; apply alt_inv in H as [H|H].
    + apply m_alt_l, IHr1; auto.
    + apply m_alt_r, IHr2; auto.
    + apply m_alt_l, IHr1; auto.
    + apply m_alt_r, IHr2; auto.
  - split; intros H.
    + apply cat_inv in H as (s1 & s2 & -> & H1 & H2).
      apply (m_star_cons r (String c s1) s2); [apply IHr|]; auto.
    + apply star_cons_inv in H as (s1 & s2 & -> & H1 & H2).
      constructor; [apply IHr|]; auto.
Qed.

(** [test] accepts exactly the words of the language. *)
Lemma test_matches (r : regex) (s : string) : test r s = true <-> matches r s.
Proof.
  revert r. induction s as [|c s IH]; intros r; simpl.
  - apply nullable_matches.
  - rewrite IH. apply deriv_matches.
Qed.

End ReFacts.

(** ** The e-mail pattern *)

Module EmailFacts.
Import Re ReFacts Spec.

Lemma append_single (c : ascii) (s : string) : String c "" +:+ s = String c s.
Proof. reflexivity. Qed.

Lemma star_class (p : ascii -> bool) (s : string) :
  matches (Star (Class p)) s <-> allChars p s = true.
Proof.
  split.
  - intros H. remember (Star (Class p)) as r eqn:Hr.
    induction H; try discriminate; auto.
    injection Hr as ->.
    apply class_inv in H as (c & -> & Hc). rewrite append_single. simpl. rewrite Hc. auto.
  - induction s as [|c s IH]; simpl; intros H.
    + constructor.
    + apply andb_true_iff in H as [Hc Hs].
      apply (m_star_cons _ (String c "") s); [constructor|]; auto.
Qed.

Lemma plus_class (p : ascii -> bool) (s : string) :
  matches (plus (Class p)) s <-> s <> "" /\ allChars p s = true.
Proof.
  unfold plus. split.
  - intros H. apply cat_inv in H as (s1 & s2 & -> & H1 & H2).
    apply class_inv in H1 as (c & -> & Hc). apply star_class in H2.
    rewrite append_single. simpl. rewrite Hc, H2. split; [discriminate | reflexivity].
  - intros [Hne H]. destruct s as [|c s]; [congruence|]. simpl in H.
    apply andb_true_iff in H as [Hc Hs].
    apply (m_cat _ _ (String c "") s); [constructor | apply star_class]; auto.
Qed.

Lemma atLeast2_class (p : ascii -> bool) (s : string) :
  matches (atLeast2 (Class p)) s <-> (2 <= String.length s)%nat /\ allChars p s = true.
Proof.
  unfold atLeast2. split.
  - intros H. apply cat_inv in H as (s1 & s2 & -> & H1 & H).
    apply cat_inv in H as (s3 & s4 & -> & H2 & H3).
    apply class_inv in H1 as (c1 & -> & Hc1). apply class_inv in H2 as (c2 & -> & Hc2).
    apply star_class in H3. rewrite !append_single. simpl. rewrite Hc1, Hc2, H3.
    split; [lia | reflexivity].
  - intros [Hlen H]. destruct s as [|c1 [|c2 s]]; simpl in Hlen; try lia. simpl in H.
    apply andb_true_iff in H as [Hc1 H]. apply andb_true_iff in H as [Hc2 Hs].
    apply (m_cat _ _ (String c1 "") (String c2 s)); [constructor; auto|].
    apply (m_cat _ _ (String c2 "") s); [constructor | apply star_class]; auto.
Qed.

Lemma char_class (c : ascii) (s : string) :
  matches (Class (Ascii.eqb c)) s <-> s = String c "".
Proof.
  split.
  - intros H. apply class_inv in H as (c' & -> & Hc).
    apply Ascii.eqb_eq in Hc as ->. reflexivity.
  - intros ->. constructor. apply Ascii.eqb_refl.
Qed.

Lemma lit_word (w s : string) : matches (lit w) s <-> s = w.
Proof.
  revert s. induction w as [|c w IH]; intros s; simpl.
  - split; [apply eps_inv | intros ->; constructor].
  - split.
    + intros H. apply cat_inv in H as (s1 & s2 & -> & H1 & H2).
      apply char_class in H1 as ->. apply IH in H2 as ->. reflexivity.
    + intros ->. apply (m_cat _ _ (String c "") w); [apply char_class | apply IH]; auto.
Qed.

(** The pattern accepts exactly the conservative e-mail shape. *)
Lemma emailPattern_shape (url : string) :
  test emailPattern url = true <-> EmailShape url.
Proof.
  rewrite test_matches. unfold emailPattern, EmailShape. split.
  - intros H.
    apply cat_inv in H as (s1 & r1 & -> & H1 & H). apply lit_word in H1 as ->.
    apply cat_inv in H as (s2 & r2 & -> & H2 & H). apply plus_class in H2 as [? ?].
    apply cat_inv in H as (s3 & r3 & -> & H3 & H). apply char_class in H3 as ->.
    apply cat_inv in H as (s4 & r4 & -> & H4 & H). apply plus_class in H4 as [? ?].
    apply cat_inv in H as (s5 & r5 & -> & H5 & H). apply char_class in H5 as ->.
    apply atLeast2_class in H as [? ?].
    exists s2, s4, r5. auto 10.
  - intros (l & d & t & -> & ? & ? & ? & ? & ? & ?).
    apply m_cat; [apply lit_word; reflexivity|].
    apply m_cat; [apply plus_class; auto|].
    apply m_cat; [apply char_class; reflexivity|].
    apply m_cat; [apply plus_class; auto|].
    apply m_cat; [apply char_class; reflexivity|].
    apply atLeast2_class; auto.
Qed.

End EmailFacts.

(** ** Fallback priority and issue type *)

(** C3, as amended: the fallback mappings, row by row. 404 is Critical,
    "Broken Link (404)"; 500 is Critical; every status from 500 on is labelled
    "Server Error (500+)"; 403 and 401 are High with their own labels; a
    timeout is High, "Timeout Error"; a connection error is Critical,
    "Connection Error"; every 3xx is Medium, labelled "Not Modified (Cached)"
    for 304 and "Redirect" otherwise; a DNS error and a refused connection are
    Low with their own labels; every remaining status (a code below 300, a 4xx
    other than 401, 403 and 404, a malformed e-mail) is Low, "Unknown Issue".
    The priority of a 5xx other than 500 is not part of the statement. *)
Theorem fallback_table :
  (determinePriorityFromStatus (HTTP 404) = "Critical" /\
   getIssueType (HTTP 404) = "Broken Link (404)") /\
  (determinePriorityFromStatus (HTTP 500) = "Critical") /\
  (forall c, (500 <= c)%Z -> getIssueType (HTTP c) = "Server Error (500+)") /\
  (determinePriorityFromStatus (HTTP 403) = "High" /\
   getIssueType (HTTP 403) = "Access Forbidden (403)") /\
  (determinePriorityFromStatus (HTTP 401) = "High" /\
   getIssueType (HTTP 401) = "Unauthorized (401)") /\
  (determinePriorityFromStatus TIMEOUT = "High" /\ getIssueType TIMEOUT = "Timeout Error") /\
  (determinePriorityFromStatus ERROR = "Critical" /\ getIssueType ERROR = "Connection Error") /\
  (forall c, (300 <= c < 400)%Z ->
     determinePriorityFromStatus (HTTP c) = "Medium" /\
     getIssueType (HTTP c) = if (c =? 304)%Z then "Not Modified (Cached)" else "Redirect") /\
  (determinePriorityFromStatus DNS_ERROR = "Low" /\ getIssueType DNS_ERROR = "DNS Error") /\
  (determinePriorityFromStatus CONNECTION_REFUSED = "Low" /\
   getIssueType CONNECTION_REFUSED = "Connection Refused") /\
  (determinePriorityFromStatus Invalid = "Low" /\ getIssueType Invalid = "Unknown Issue") /\
  (forall c, (c < 300 \/ (400 <= c < 500 /\ c <> 401 /\ c <> 403 /\ c <> 404))%Z ->
     determinePriorityFromStatus (HTTP c) = "Low" /\
     getIssueType (HTTP c) = "Unknown Issue").
Proof.
  repeat match goal with |- _ /\ _ => split end; try reflexivity; intros c Hc;
    repeat match goal with |- _ /\ _ => split end;
    unfold determinePriorityFromStatus, getIssueType, isCode, geCode, ltCode; simpl.
  - destruct (Z.eqb_spec c 404), (Z.eqb_spec c 403), (Z.eqb_spec c 401),
      (Z.eqb_spec c 500), (Z.leb_spec 500 c); simpl; try lia; reflexivity.
  - destruct (Z.eqb_spec c 404), (Z.eqb_spec c 403), (Z.eqb_spec c 401),
      (Z.eqb_spec c 500), (Z.leb_spec 300 c), (Z.ltb_spec c 400); simpl; try lia; reflexivity.
  - destruct (Z.eqb_spec c 404), (Z.eqb_spec c 403), (Z.eqb_spec c 401),
      (Z.eqb_spec c 500), (Z.leb_spec 500 c), (Z.eqb_spec c 304),
      (Z.leb_spec 300 c), (Z.ltb_spec c 400); simpl; try lia; reflexivity.
  - destruct (Z.eqb_spec c 404), (Z.eqb_spec c 403), (Z.eqb_spec c 401),
      (Z.eqb_spec c 500), (Z.leb_spec 300 c), (Z.ltb_spec c 400); simpl; try lia; reflexivity.
  - destruct (Z.eqb_spec c 404), (Z.eqb_spec c 403), (Z.eqb_spec c 401),
      (Z.eqb_spec c 500), (Z.leb_spec 500 c), (Z.eqb_spec c 304),
      (Z.leb_spec 300 c), (Z.ltb_spec c 400); simpl; try lia; reflexivity.
Qed.

(** C3 as stated fails: a connection error is none of 404, 5xx, 403, 401,
    a timeout or a 3xx, and it is neither Low nor "Unknown Issue". *)
Lemma fallback_error_is_critical :
  determinePriorityFromStatus ERROR = "Critical" /\
  determinePriorityFromStatus ERROR <> Claimed.priority ERROR /\
  getIssueType ERROR <> "Unknown Issue".
Proof. repeat split; discriminate. Qed.

(** The fallback priority of a 5xx other than 500 is Low, where the label of
    the same status is "Server Error (500+)". *)
Lemma fallback_priority_502 :
  determinePriorityFromStatus (HTTP 502) = "Low" /\
  Claimed.priority (HTTP 502) = "Critical" /\
  getIssueType (HTTP 502) = "Server Error (500+)".
Proof. repeat split. Qed.

(** ** Impact score *)

(** C7, as amended: the impact score is 50, plus 30 for 404, 35 for a status
    from 500 on (every 5xx), 20 for 403, 10 for a 3xx, plus 20 when the context
    mentions "cta" or "button", 15 for "hero" or "header", 10 for
    "navigation", plus [min(n * 5, 20)], clamped to [0, 100]. For a 404 on one
    page in the context "Hero CTA button" the sum is 120 and the score 100. *)
Theorem impact_score_formula (status : Status) (context : string) (n : nat) :
  calculateImpactScore status context n = Spec.impactScore status context n /\
  (0 <= calculateImpactScore status context n <= 100)%Z /\
  rawImpactScore (HTTP 404) "Hero CTA button" 1 = 120%Z /\
  calculateImpactScore (HTTP 404) "Hero CTA button" 1 = 100%Z.
Proof.
  split; [|split; [unfold calculateImpactScore; lia | split; reflexivity]].
  unfold calculateImpactScore, rawImpactScore, Spec.impactScore, Spec.clamp,
    Spec.contextBonus, Spec.appearanceBonus, Spec.mentions, Spec.statusBonus.
  f_equal. f_equal.
  set (cta := Js.includes (Js.toLowerCase context) "cta" ||
              Js.includes (Js.toLowerCase context) "button").
  set (hero := Js.includes (Js.toLowerCase context) "hero" ||
               Js.includes (Js.toLowerCase context) "header").
  set (nav := Js.includes (Js.toLowerCase context) "navigation").
  destruct status as [c| | | | |]; unfold isCode, geCode, ltCode;
    [destruct (c =? 404)%Z, (500 <=? c)%Z, (c =? 403)%Z, (300 <=? c)%Z, (c <? 400)%Z|..];
    simpl; destruct cta, hero, nav; lia.
Qed.

(** C7 as stated fails: the sum for a 404 on one page in the context
    "Hero CTA button" is not 115 (the appearance adds 5). *)
Lemma impact_sum_hero_cta :
  rawImpactScore (HTTP 404) "Hero CTA button" 1 <> 115%Z.
Proof. discriminate. Qed.

(** ** Special schemes *)

Lemma startsWith_append (s p : string) :
  Js.startsWith s p = true <-> exists r, s = p +:+ r.
Proof.
  revert s. induction p as [|a p IH]; intros s; simpl.
  - split; eauto.
  - destruct s as [|b s].
    + split; [discriminate | intros [r Hr]; discriminate].
    + destruct (Ascii.eqb_spec a b) as [->|Hab].
      * rewrite IH. split; intros [r Hr]; exists r.
        -- rewrite Hr. reflexivity.
        -- injection Hr. auto.
      * split; [discriminate | intros [r Hr]; injection Hr; congruence].
Qed.

(** C8, as amended: a [mailto:] URL that no tracking pattern matches is
    verified without I/O, with status 200 exactly when it has the
    conservative e-mail shape and with the failing status ['Invalid']
    otherwise; [mailto:a@b.co] is valid and [mailto:not-an-email] is not; a
    [tel:] URL always has status 200, without I/O. *)
Theorem mailto_tel_verification (w : World) (url : string) (browser : bool) :
  (Js.startsWith url "mailto:" = true -> isTrackingPixel url = false ->
   snd (checkLinkStatus w url browser) = [] /\
   (Info.status (fst (checkLinkStatus w url browser)) = HTTP 200 <-> Spec.EmailShape url) /\
   (~ Spec.EmailShape url -> Info.status (fst (checkLinkStatus w url browser)) = Invalid)) /\
  (Js.startsWith url "tel:" = true ->
   snd (checkLinkStatus w url browser) = [] /\
   Info.status (fst (checkLinkStatus w url browser)) = HTTP 200) /\
  Info.status (fst (checkLinkStatus w "mailto:a@b.co" browser)) = HTTP 200 /\
  Info.status (fst (checkLinkStatus w "mailto:not-an-email" browser)) = Invalid.
Proof.
  split; [|split; [|split; reflexivity]].
  - intros Hm Ht. rewrite <- EmailFacts.emailPattern_shape.
    unfold checkLinkStatus. rewrite Ht.
    apply startsWith_append in Hm as [r ->].
    replace (Js.startsWith ("mailto:" +:+ r) "data:") with false by reflexivity.
    replace (Js.startsWith ("mailto:" +:+ r) "blob:") with false by reflexivity.
    replace (Js.startsWith ("mailto:" +:+ r) "mailto:") with true by reflexivity.
    generalize (Re.test emailPattern ("mailto:" +:+ r)). intros [|]; simpl;
      repeat split; auto; try discriminate; congruence.
  - intros Ht. unfold checkLinkStatus.
    destruct (isTrackingPixel url); [split; reflexivity|].
    apply startsWith_append in Ht as [r ->].
    replace (Js.startsWith ("tel:" +:+ r) "data:") with false by reflexivity.
    replace (Js.startsWith ("tel:" +:+ r) "blob:") with false by reflexivity.
    replace (Js.startsWith ("tel:" +:+ r) "mailto:") with false by reflexivity.
    replace (Js.startsWith ("tel:" +:+ r) "tel:") with true by reflexivity.
    split; reflexivity.
Qed.

(** C8 as stated fails: [mailto:team@analytics.site.test?subject=Hi] does not
    match the e-mail pattern (it has a subject), and it is verified with
    status 200, as a tracking pixel. *)
Lemma mailto_tracking_is_200 :
  Js.startsWith Example.pixelMail "mailto:" = true /\
  Re.test emailPattern Example.pixelMail = false /\
  Info.status (fst (checkLinkStatus Example.site Example.pixelMail true)) = HTTP 200.
Proof. repeat split. Qed.

(** ** Sets, first occurrences and counts *)

Lemma setAdd_elem (x y : string) (s : list string) :
  y ∈ Crawl.setAdd x s <-> y = x \/ y ∈ s.
Proof.
  unfold Crawl.setAdd. case_bool_decide as Hx.
  - split; [auto | intros [->|?]; auto].
  - rewrite elem_of_app, list_elem_of_singleton. tauto.
Qed.

Lemma setAdd_NoDup (x : string) (s : list string) : NoDup s -> NoDup (Crawl.setAdd x s).
Proof.
  unfold Crawl.setAdd. intros Hs. case_bool_decide as Hx; [assumption|].
  apply NoDup_app. repeat split; [assumption | | apply NoDup_singleton].
  intros y Hy ->%list_elem_of_singleton. contradiction.
Qed.

Lemma fold_setAdd_elem (xs acc : list string) (y : string) :
  y ∈ fold_left (fun s x => Crawl.setAdd x s) xs acc <-> y ∈ acc \/ y ∈ xs.
Proof.
  revert acc. induction xs as [|x xs IH]; intros acc; simpl.
  - rewrite elem_of_nil. tauto.
  - rewrite IH, setAdd_elem, elem_of_cons. tauto.
Qed.

Lemma fold_setAdd_NoDup (xs acc : list string) :
  NoDup acc -> NoDup (fold_left (fun s x => Crawl.setAdd x s) xs acc).
Proof.
  revert acc. induction xs as [|x xs IH]; intros acc Hacc; simpl; [assumption|].
  apply IH, setAdd_NoDup, Hacc.
Qed.

Lemma setFromList_elem (xs : list string) (y : string) : y ∈ setFromList xs <-> y ∈ xs.
Proof. unfold setFromList. rewrite fold_setAdd_elem, elem_of_nil. tauto. Qed.

Lemma setFromList_NoDup (xs : list string) : NoDup (setFromList xs).
Proof. apply fold_setAdd_NoDup, NoDup_nil_2. Qed.

(** [find] answers the first link that carries the URL. *)
Lemma findByUrl_first (links : list Link.t) (url : string) (l : Link.t) :
  findByUrl links url = Some l ->
  exists before after,
    links = before ++ l :: after /\ Link.url l = url /\
    (forall l', l' ∈ before -> Link.url l' <> url).
Proof.
  unfold findByUrl. induction links as [|x links IH]; simpl; [discriminate|].
  case_bool_decide as Hx.
  - intros [= ->]. exists [], links. repeat split; auto. intros l' Hl'. inversion Hl'.
  - intros H. destruct (IH H) as (before & after & -> & Hu & Hb).
    exists (x :: before), after. repeat split; auto.
    intros l' [->|Hl']%elem_of_cons; auto.
Qed.

Lemma findByUrl_some (links : list Link.t) (url : string) :
  url ∈ map Link.url links -> exists l, findByUrl links url = Some l.
Proof.
  unfold findByUrl. induction links as [|x links IH]; simpl.
  - intros H. inversion H.
  - intros H. case_bool_decide as Hx; [eauto|].
    apply elem_of_cons in H as [H|H]; [congruence | auto].
Qed.

Lemma uniqueLinks_elem (links : list Link.t) (l : Link.t) :
  l ∈ uniqueLinks links -> findByUrl links (Link.url l) = Some l.
Proof.
  unfold uniqueLinks. intros (u & _ & Hf)%list_elem_of_omap.
  destruct (findByUrl_first _ _ _ Hf) as (_ & _ & _ & -> & _). exact Hf.
Qed.

Lemma omap_find_urls (links : list Link.t) (us : list string) :
  (forall u, u ∈ us -> u ∈ map Link.url links) ->
  map Link.url (omap (findByUrl links) us) = us.
Proof.
  induction us as [|u us IH]; intros Hus; simpl; [reflexivity|].
  destruct (findByUrl_some links u) as [l Hl]; [apply Hus; left|].
  rewrite Hl. simpl.
  destruct (findByUrl_first _ _ _ Hl) as (_ & _ & _ & -> & _).
  f_equal. apply IH. intros u' Hu'. apply Hus. right. exact Hu'.
Qed.

(** No URL of [uniqueLinks] is dropped, and none comes twice. *)
Lemma uniqueLinks_urls (links : list Link.t) :
  map Link.url (uniqueLinks links) = setFromList (map Link.url links).
Proof. apply omap_find_urls. intros u. apply setFromList_elem. Qed.

Lemma uniqueLinks_NoDup (links : list Link.t) : NoDup (map Link.url (uniqueLinks links)).
Proof. rewrite uniqueLinks_urls. apply setFromList_NoDup. Qed.

Lemma fold_countAppearance (links : list Link.t) (m : gmap string nat) (url : string) :
  default 0 (fold_left countAppearance links m !! url) =
  default 0 (m !! url) + Spec.referencesTo links url.
Proof.
  revert m. unfold Spec.referencesTo.
  induction links as [|x links IH]; intros m; simpl; [lia|].
  rewrite IH. unfold countAppearance. case_bool_decide as Hx.
  - rewrite Hx, lookup_insert_eq. simpl. lia.
  - rewrite lookup_insert_ne by exact Hx. reflexivity.
Qed.

(** [linkAppearances] counts the references that carry the URL. *)
Lemma linkAppearances_count (links : list Link.t) (url : string) :
  default 0 (linkAppearances links !! url) = Spec.referencesTo links url.
Proof. unfold linkAppearances. rewrite fold_countAppearance, lookup_empty. reflexivity. Qed.

(** ** One iteration of the scan *)

Lemma checkOne_id (w : World) (app : gmap string nat) (n : nat) (l : Link.t) :
  fst (checkOne w app n l) = withId (n + 1) <$> fst (checkOne w app 0 l) /\
  snd (checkOne w app n l) = snd (checkOne w app 0 l).
Proof.
  unfold checkOne. destruct (checkLinkStatus w (Link.url l) true) as [info io].
  repeat match goal with |- context [if ?b then _ else _] => destruct b end;
    split; reflexivity.
Qed.

(** What an issue records, and when one is pushed. *)
Lemma checkOne_some (w : World) (app : gmap string nat) (n : nat) (l : Link.t) (i : Issue.t) :
  fst (checkOne w app n l) = Some i ->
  Issue.linkUrl i = Link.url l /\ Issue.pageUrl i = Link.pageUrl l /\
  Issue.linkText i = Link.text l /\ Issue.linkType i = Link.type l /\
  Issue.context i = Link.context l /\
  Issue.appearancesCount i = default 0 (app !! Link.url l) /\
  Issue.status i = Info.status (outcome w (Link.url l)) /\
  Issue.priority i =
    Js.orElse (Ai.priority <$> analysisOf w l)
      (determinePriorityFromStatus (Info.status (outcome w (Link.url l)))) /\
  Issue.type i =
    Js.orElse (Ai.issueType <$> analysisOf w l)
      (getIssueType (Info.status (outcome w (Link.url l)))) /\
  Issue.impactScore i =
    calculateImpactScore (Info.status (outcome w (Link.url l))) (Link.context l)
      (default 0 (app !! Link.url l)).
Proof.
  unfold checkOne, analysisOf, outcome.
  destruct (checkLinkStatus w (Link.url l) true) as [info io]. simpl.
  repeat match goal with |- context [if ?b then _ else _] => destruct b eqn:? end;
    simpl; intros [= <-]; simpl; repeat split; reflexivity.
Qed.

Lemma checkOne_pushes (w : World) (app : gmap string nat) (n : nat) (l : Link.t) :
  pushes w l = true <-> exists i, fst (checkOne w app n l) = Some i.
Proof.
  unfold pushes, checkOne, analysisOf, outcome.
  destruct (checkLinkStatus w (Link.url l) true) as [info io]. simpl.
  destruct (Info.skip info); simpl; [split; [discriminate | intros [? [=]]]|].
  destruct (isCode (Info.status info) 403 && Info.isAffiliate info); simpl;
    [split; [discriminate | intros [? [=]]]|].
  destruct (isCode (Info.status info) 304); simpl; [split; [discriminate | intros [? [=]]]|].
  match goal with |- context [if ?b then (Some _, _) else _] => destruct b end; simpl.
  - split; eauto.
  - split; [discriminate | intros [? [=]]].
Qed.

Lemma checkLinkWithBrowser_io (w : World) (url : string) :
  snd (checkLinkWithBrowser w url) = [BrowserGoto url].
Proof. unfold checkLinkWithBrowser. destruct (browserGoto w url); reflexivity. Qed.

Lemma checkLinkStatus_io (w : World) (url : string) (browser : bool) :
  snd (checkLinkStatus w url browser) = [] \/
  snd (checkLinkStatus w url browser) = [BrowserGoto url] \/
  snd (checkLinkStatus w url browser) = [HttpGet url].
Proof.
  unfold checkLinkStatus. pose proof (checkLinkWithBrowser_io w url) as Hb.
  destruct (checkLinkWithBrowser w url) as [result io]. simpl in Hb. subst io.
  repeat match goal with
         | |- context [if ?b then _ else _] => destruct b
         | |- context [match ?b with _ => _ end] => destruct b
         end; simpl; auto.
Qed.

Lemma checkOne_verifications (w : World) (app : gmap string nat) (n : nat) (l : Link.t) :
  verifications (snd (checkOne w app n l)) = [Link.url l].
Proof.
  unfold checkOne. pose proof (checkLinkStatus_io w (Link.url l) true) as Hio.
  destruct (checkLinkStatus w (Link.url l) true) as [info io]. simpl in Hio.
  repeat match goal with |- context [if ?b then _ else _] => destruct b end;
    destruct Hio as [-> | [-> | ->]]; reflexivity.
Qed.

Lemma checkOne_captures (w : World) (app : gmap string nat) (n : nat) (l : Link.t) :
  captures (snd (checkOne w app n l)) =
  if pushes w l && shouldTakeScreenshot (outcome w (Link.url l)) then [Link.url l] else [].
Proof.
  unfold pushes, analysisOf, outcome, checkOne.
  pose proof (checkLinkStatus_io w (Link.url l) true) as Hio.
  destruct (checkLinkStatus w (Link.url l) true) as [info io]. simpl in Hio. simpl.
  destruct (Info.skip info), (isCode (Info.status info) 403 && Info.isAffiliate info),
    (isCode (Info.status info) 304), (needsAnalysis info l),
    (isActualIssue info), (shouldTakeScreenshot info); simpl;
    try (destruct (aiFlags _); simpl);
    destruct Hio as [-> | [-> | ->]]; reflexivity.
Qed.

(** ** The loop over the unique links *)

Lemma checkAll_spec (w : World) (app : gmap string nat) (todo : list Link.t)
    (acc : list Issue.t * list Event) :
  exists ks,
    fst (checkAll w app todo acc) = fst acc ++ ks /\
    map Issue.linkUrl ks `sublist_of` map Link.url todo /\
    (forall i, i ∈ ks -> exists l n, l ∈ todo /\ fst (checkOne w app n l) = Some i) /\
    (forall l, l ∈ todo -> pushes w l = true ->
       exists i n, i ∈ ks /\ fst (checkOne w app n l) = Some i).
Proof.
  revert acc. induction todo as [|l todo IH]; intros acc; simpl.
  - exists []. rewrite app_nil_r. repeat split; auto.
    + intros i Hi. inversion Hi.
    + intros l Hl. inversion Hl.
  - destruct (checkOne w app (length (fst acc)) l) as [pushed io] eqn:E.
    destruct (IH (fst acc ++ option_list pushed, snd acc ++ io))
      as (ks & Hks & Hsub & Hfrom & Hto). simpl in Hks.
    exists (option_list pushed ++ ks). rewrite Hks, <- app_assoc.
    assert (Hp : fst (checkOne w app (length (fst acc)) l) = pushed) by (rewrite E; auto).
    repeat split; auto.
    + destruct pushed as [i|]; simpl.
      * destruct (checkOne_some _ _ _ _ _ Hp) as [-> _]. apply sublist_skip, Hsub.
      * apply sublist_cons, Hsub.
    + intros i [Hi|Hi]%elem_of_app.
      * destruct pushed as [i'|]; simpl in Hi; [|inversion Hi].
        apply list_elem_of_singleton in Hi as ->.
        exists l, (length (fst acc)). split; [left | exact Hp].
      * destruct (Hfrom i Hi) as (l' & n & Hl' & Hn). exists l', n. split; [right|]; auto.
    + intros l' [->|Hl']%elem_of_cons Hpush.
      * apply (checkOne_pushes w app (length (fst acc))) in Hpush as [i Hi].
        exists i, (length (fst acc)). split; [|exact Hi].
        rewrite Hi in Hp. subst pushed. apply elem_of_app. left. simpl. left.
      * destruct (Hto l' Hl' Hpush) as (i & n & Hi & Hn).
        exists i, n. split; [apply elem_of_app; right|]; auto.
Qed.

Lemma checkAll_events (w : World) (app : gmap string nat) (todo : list Link.t)
    (acc : list Issue.t * list Event) :
  snd (checkAll w app todo acc) =
  snd acc ++ concat (map (fun l => snd (checkOne w app 0 l)) todo).
Proof.
  revert acc. induction todo as [|l todo IH]; intros acc; simpl.
  - rewrite app_nil_r. reflexivity.
  - destruct (checkOne w app (length (fst acc)) l) as [pushed io] eqn:E.
    rewrite IH. simpl. rewrite <- app_assoc. do 2 f_equal.
    destruct (checkOne_id w app (length (fst acc)) l) as [_ <-]. rewrite E. reflexivity.
Qed.

Lemma verifications_app (a b : list Event) :
  verifications (a ++ b) = verifications a ++ verifications b.
Proof. apply omap_app. Qed.

Lemma captures_app (a b : list Event) : captures (a ++ b) = captures a ++ captures b.
Proof. apply omap_app. Qed.

Lemma checkAll_verifications (w : World) (app : gmap string nat) (todo : list Link.t) :
  verifications (snd (checkAll w app todo ([], []))) = map Link.url todo.
Proof.
  rewrite checkAll_events. simpl.
  induction todo as [|l todo IH]; simpl; [reflexivity|].
  rewrite verifications_app, checkOne_verifications, IH. reflexivity.
Qed.

Lemma checkAll_captures (w : World) (app : gmap string nat) (todo : list Link.t) (u : string) :
  u ∈ captures (snd (checkAll w app todo ([], []))) <->
  exists l, l ∈ todo /\ Link.url l = u /\ pushes w l = true /\
            shouldTakeScreenshot (outcome w u) = true.
Proof.
  rewrite checkAll_events. simpl.
  induction todo as [|l todo IH]; simpl.
  - split; [intros H; inversion H | intros (l & H & _); inversion H].
  - rewrite captures_app, elem_of_app, IH, checkOne_captures. split.
    + intros [H|(l' & Hl' & H)].
      * destruct (pushes w l && shouldTakeScreenshot (outcome w (Link.url l))) eqn:Hb;
          [|inversion H].
        apply list_elem_of_singleton in H as ->.
        apply andb_true_iff in Hb as [? ?]. exists l. repeat split; auto. left.
      * exists l'. split; [right|]; auto.
    + intros (l' & [->|Hl']%elem_of_cons & Hu & Hp & Hs).
      * left. subst u. rewrite Hp, Hs. simpl. left.
      * right. exists l'. auto.
Qed.

(** What a completed scan answers, in terms of the loop. *)
Lemma scan_some (w : World) (domain : string) (r : Report) :
  scan w domain = Some r ->
  results r = arraySort w comparePriority (fst (scanLinks w (scannedLinks w domain))) /\
  events r = snd (scanLinks w (scannedLinks w domain)) /\
  score r = healthScore (length (scannedLinks w domain))
              (length (fst (scanLinks w (scannedLinks w domain)))) /\
  totalLinks (stats r) = length (scannedLinks w domain).
Proof.
  unfold scan, scannedLinks. destruct (crawlWebsite w domain 50) as [[pages links]|]; [|discriminate].
  destruct (scanLinks w links) as [results io]. intros [= <-]. simpl. auto.
Qed.

(** The issues of a scan, before and after the sort. *)
Lemma scan_results (w : World) (domain : string) (r : Report) (i : Issue.t) :
  SortConforms w -> scan w domain = Some r ->
  i ∈ results r <-> i ∈ fst (scanLinks w (scannedLinks w domain)).
Proof.
  intros Hsort Hr. destruct (scan_some _ _ _ Hr) as (-> & _).
  rewrite (Hsort comparePriority). reflexivity.
Qed.

(** An issue of a scan comes from the first reference that carries its URL. *)
Lemma scanLinks_from (w : World) (links : list Link.t) (i : Issue.t) :
  i ∈ fst (scanLinks w links) ->
  exists l n, findByUrl links (Link.url l) = Some l /\
              fst (checkOne w (linkAppearances links) n l) = Some i.
Proof.
  unfold scanLinks. intros Hi.
  destruct (checkAll_spec w (linkAppearances links) (uniqueLinks links) ([], []))
    as (ks & Hks & _ & Hfrom & _).
  rewrite Hks in Hi. simpl in Hi. destruct (Hfrom i Hi) as (l & n & Hl & Hn).
  exists l, n. split; [apply uniqueLinks_elem|]; auto.
Qed.

(** A reference whose first carrier pushes is reported. *)
Lemma scanLinks_to (w : World) (links : list Link.t) (l : Link.t) :
  findByUrl links (Link.url l) = Some l -> pushes w l = true ->
  exists i n, i ∈ fst (scanLinks w links) /\
              fst (checkOne w (linkAppearances links) n l) = Some i.
Proof.
  unfold scanLinks. intros Hl Hp.
  destruct (checkAll_spec w (linkAppearances links) (uniqueLinks links) ([], []))
    as (ks & Hks & _ & _ & Hto).
  destruct (Hto l) as (i & n & Hi & Hn); auto.
  - unfold uniqueLinks. apply list_elem_of_omap. exists (Link.url l). split; [|exact Hl].
    apply setFromList_elem.
    destruct (findByUrl_first _ _ _ Hl) as (b & a & -> & _).
    rewrite map_app. apply elem_of_app. right. left.
  - exists i, n. rewrite Hks. auto.
Qed.

(** ** The sort of the small site rearranges *)

Lemma insertBy_perm (cmp : Issue.t -> Issue.t -> option Z) (x : Issue.t) (l : list Issue.t) :
  Example.insertBy cmp x l ≡ₚ x :: l.
Proof.
  induction l as [|y l IH]; simpl; [reflexivity|].
  destruct (Example.keepsOrder cmp x y); [reflexivity|].
  rewrite IH. apply perm_swap.
Qed.

Lemma sortBy_perm (cmp : Issue.t -> Issue.t -> option Z) (l : list Issue.t) :
  Example.sortBy cmp l ≡ₚ l.
Proof.
  unfold Example.sortBy. induction l as [|x l IH]; simpl; [reflexivity|].
  rewrite insertBy_perm, IH. reflexivity.
Qed.

Lemma site_sort_conforms : SortConforms Example.site.
Proof. intros cmp l. apply sortBy_perm. Qed.

Lemma site_scan : scan Example.site Example.root = Some Run.siteReport.
Proof. vm_compute. reflexivity. Qed.

(** ** Appearance counts *)

(** What the code counts: the appearances count of a reported issue is the
    number of references, over all pages, that carry its target URL; a URL
    referenced several times on one page counts once for every reference. *)
Theorem appearances_count_references (w : World) (domain : string) (r : Report) (i : Issue.t) :
  SortConforms w -> scan w domain = Some r -> i ∈ results r ->
  Issue.appearancesCount i = Spec.referencesTo (scannedLinks w domain) (Issue.linkUrl i).
Proof.
  intros Hsort Hr Hi. apply (scan_results w domain r i Hsort Hr) in Hi.
  destruct (scanLinks_from _ _ _ Hi) as (l & n & _ & Hn).
  destruct (checkOne_some _ _ _ _ _ Hn) as (-> & _ & _ & _ & _ & -> & _).
  apply linkAppearances_count.
Qed.

Lemma appearances_count_references_witness :
  Issue.appearancesCount Run.firstIssue =
  Spec.referencesTo (scannedLinks Example.site Example.root) (Issue.linkUrl Run.firstIssue).
Proof.
  apply (appearances_count_references Example.site Example.root Run.siteReport Run.firstIssue).
  - exact site_sort_conforms.
  - exact site_scan.
  - left.
Defined.

(** C5: the count attached to an issue is not the number of pages on which
    its URL appears. The broken link of the small site is referenced twice on
    its one page: the count of its issue is 2, and the dashboard shows it as
    [2 pages]. *)
Lemma appearances_count_not_pages :
  map Issue.appearancesCount (Run.issuesFor Example.missing) = [2] /\
  Spec.pagesWith (scannedLinks Example.site Example.root) Example.missing = 1 /\
  map Dashboard.appearancesLabel (Run.issuesFor Example.missing) = ["2 pages"].
Proof. repeat split; vm_compute; reflexivity. Qed.

(** ** One verification and one issue for every URL *)

Lemma scanLinks_urls_NoDup (w : World) (links : list Link.t) :
  NoDup (map Issue.linkUrl (fst (scanLinks w links))).
Proof.
  unfold scanLinks.
  destruct (checkAll_spec w (linkAppearances links) (uniqueLinks links) ([], []))
    as (ks & -> & Hsub & _). simpl.
  apply (sublist_NoDup _ _ (uniqueLinks_NoDup links) Hsub).
Qed.

(** C9: every URL is verified at most once and has at most one issue, and an
    issue takes its source page, link text, reference kind and context from
    the first reference, in the order of discovery, that carries its URL. *)
Theorem one_issue_per_url_from_first_reference (w : World) (domain : string) (r : Report) :
  SortConforms w -> scan w domain = Some r ->
  NoDup (verifications (events r)) /\
  NoDup (map Issue.linkUrl (results r)) /\
  forall i, i ∈ results r ->
    exists before l after,
      scannedLinks w domain = before ++ l :: after /\
      (forall l', l' ∈ before -> Link.url l' <> Issue.linkUrl i) /\
      Link.url l = Issue.linkUrl i /\
      Issue.pageUrl i = Link.pageUrl l /\ Issue.linkText i = Link.text l /\
      Issue.linkType i = Link.type l /\ Issue.context i = Link.context l.
Proof.
  intros Hsort Hr. destruct (scan_some _ _ _ Hr) as (Hres & Hev & _).
  repeat split.
  - rewrite Hev. unfold scanLinks. rewrite checkAll_verifications. apply uniqueLinks_NoDup.
  - rewrite Hres. rewrite (Permutation_map Issue.linkUrl (Hsort comparePriority _)).
    apply scanLinks_urls_NoDup.
  - intros i Hi. apply (scan_results w domain r i Hsort Hr) in Hi.
    destruct (scanLinks_from _ _ _ Hi) as (l & n & Hl & Hn).
    destruct (checkOne_some _ _ _ _ _ Hn) as (Hu & Hp & Ht & Hk & Hc & _).
    destruct (findByUrl_first _ _ _ Hl) as (before & after & Hsplit & _ & Hb).
    exists before, l, after. rewrite Hu. auto 10.
Qed.

Lemma one_issue_per_url_from_first_reference_witness :
  NoDup (verifications (events Run.siteReport)) /\
  NoDup (map Issue.linkUrl (results Run.siteReport)) /\
  forall i, i ∈ results Run.siteReport ->
    exists before l after,
      scannedLinks Example.site Example.root = before ++ l :: after /\
      (forall l', l' ∈ before -> Link.url l' <> Issue.linkUrl i) /\
      Link.url l = Issue.linkUrl i /\
      Issue.pageUrl i = Link.pageUrl l /\ Issue.linkText i = Link.text l /\
      Issue.linkType i = Link.type l /\ Issue.context i = Link.context l.
Proof.
  exact (one_issue_per_url_from_first_reference Example.site Example.root Run.siteReport
           site_sort_conforms site_scan).
Defined.

(** ** Affiliate links *)

(** The outcome of a URL verified with the browser. *)
Lemma outcome_browserVerified (w : World) (url : string) :
  browserVerified url = true ->
  Info.isAffiliate (outcome w url) = true /\
  Info.skip (outcome w url) = false /\
  Info.treatAsWorking (outcome w url) = isCode (Info.status (outcome w url)) 403 /\
  Info.status (outcome w url) =
    match browserGoto w url with
    | BrowserResponse status _ _ _ => HTTP status
    | BrowserFailure _ => ERROR
    end.
Proof.
  unfold browserVerified, outcome, checkLinkStatus, checkLinkWithBrowser. intros H.
  repeat (apply andb_true_iff in H as [H ?]).
  repeat match goal with H : negb _ = true |- _ => apply negb_true_iff in H; rewrite H end.
  match goal with H : isAffiliateLink _ = true |- _ => rewrite H end. simpl.
  destruct (browserGoto w url) as [status statusText finalUrl time | message]; simpl.
  - destruct (status =? 403)%Z eqn:E; simpl; rewrite ?E; auto.
  - auto.
Qed.

(** C2, as amended: for an affiliate-class URL verified with the browser, a
    403 makes the outcome carry [treatAsWorking], and the URL has no issue and
    no screenshot; any other status that is neither a success nor a 3xx is
    reported, with the priority and type the analysis or, without one, the
    fallback table gives; a 404 is reported with a screenshot attempt, and is
    Critical, "Broken Link (404)", when the analysis answers nothing. *)
Theorem affiliate_403_dropped_other_failures_reported
    (w : World) (domain : string) (r : Report) (url : string) :
  SortConforms w -> scan w domain = Some r -> browserVerified url = true ->
  (Info.status (outcome w url) = HTTP 403 ->
     Info.treatAsWorking (outcome w url) = true /\
     (forall i, i ∈ results r -> Issue.linkUrl i <> url) /\
     url ∉ captures (events r)) /\
  (url ∈ map Link.url (scannedLinks w domain) ->
   Info.status (outcome w url) <> HTTP 403 ->
   isSuccessStatus (Info.status (outcome w url)) = false ->
   geCode (Info.status (outcome w url)) 300 && ltCode (Info.status (outcome w url)) 400 = false ->
     exists l i,
       findByUrl (scannedLinks w domain) url = Some l /\
       i ∈ results r /\ Issue.linkUrl i = url /\
       Issue.status i = Info.status (outcome w url) /\
       Issue.priority i =
         Js.orElse (Ai.priority <$> analysisOf w l)
           (determinePriorityFromStatus (Info.status (outcome w url))) /\
       Issue.type i =
         Js.orElse (Ai.issueType <$> analysisOf w l)
           (getIssueType (Info.status (outcome w url)))) /\
  (url ∈ map Link.url (scannedLinks w domain) ->
   Info.status (outcome w url) = HTTP 404 ->
     url ∈ captures (events r) /\
     exists l i,
       findByUrl (scannedLinks w domain) url = Some l /\
       i ∈ results r /\ Issue.linkUrl i = url /\ Issue.status i = HTTP 404 /\
       (analysisOf w l = None ->
        Issue.priority i = "Critical" /\ Issue.type i = "Broken Link (404)")).
Proof.
  intros Hsort Hr Hb.
  destruct (outcome_browserVerified w url Hb) as (Haff & Hskip & Htreat & _).
  destruct (scan_some _ _ _ Hr) as (_ & Hev & _).
  assert (Hpush : forall l, Link.url l = url ->
            Info.status (outcome w url) <> HTTP 403 ->
            isSuccessStatus (Info.status (outcome w url)) = false ->
            geCode (Info.status (outcome w url)) 300 &&
              ltCode (Info.status (outcome w url)) 400 = false ->
            pushes w l = true).
  { intros l Hl H403 Hsucc H3xx. unfold pushes, isActualIssue. rewrite Hl, Hskip, Htreat, Hsucc.
    assert (E403 : isCode (Info.status (outcome w url)) 403 = false).
    { destruct (Info.status (outcome w url)) as [c| | | | |]; simpl; auto.
      apply Z.eqb_neq. congruence. }
    assert (E304 : isCode (Info.status (outcome w url)) 304 = false).
    { revert Hsucc. unfold isSuccessStatus.
      destruct (isNumber _ && _ && _); [discriminate|].
      destruct (isCode (Info.status (outcome w url)) 304); [discriminate | auto]. }
    assert (E200 : isCode (Info.status (outcome w url)) 200 = false).
    { revert Hsucc. unfold isSuccessStatus.
      destruct (Info.status (outcome w url)) as [c| | | | |]; simpl; auto.
      destruct (Z.eqb_spec c 200) as [->|]; [discriminate | auto]. }
    rewrite E403, E304, E200. simpl.
    rewrite <- andb_assoc, H3xx, andb_false_r. reflexivity. }
  split; [|split].
  - intros H403. rewrite Htreat, H403. split; [reflexivity|]. split.
    + intros i Hi Hu. apply (scan_results w domain r i Hsort Hr) in Hi.
      destruct (scanLinks_from _ _ _ Hi) as (l & n & _ & Hn).
      destruct (checkOne_some _ _ _ _ _ Hn) as (Hl & _). rewrite Hu in Hl.
      assert (Hp : pushes w l = true) by (eapply checkOne_pushes; eauto).
      unfold pushes in Hp. rewrite <- Hl, H403, Haff in Hp. simpl in Hp.
      rewrite andb_false_r in Hp. discriminate.
    + rewrite Hev. unfold scanLinks. rewrite checkAll_captures.
      intros (l & _ & Hl & Hp & _).
      unfold pushes in Hp. rewrite Hl, H403, Haff in Hp. simpl in Hp.
      rewrite andb_false_r in Hp. discriminate.
  - intros Hin H403 Hsucc H3xx.
    destruct (findByUrl_some _ _ Hin) as [l Hl].
    destruct (findByUrl_first _ _ _ Hl) as (_ & _ & _ & Hu & _).
    assert (Hl' : findByUrl (scannedLinks w domain) (Link.url l) = Some l) by (rewrite Hu; auto).
    destruct (scanLinks_to w _ l Hl' (Hpush l Hu H403 Hsucc H3xx)) as (i & n & Hi & Hn).
    destruct (checkOne_some _ _ _ _ _ Hn) as (Hiu & _ & _ & _ & _ & _ & Hs & Hp & Ht & _).
    rewrite Hu in Hiu, Hs, Hp, Ht.
    exists l, i. repeat split; auto. apply (scan_results w domain r i Hsort Hr). exact Hi.
  - intros Hin H404.
    destruct (findByUrl_some _ _ Hin) as [l Hl].
    destruct (findByUrl_first _ _ _ Hl) as (_ & _ & _ & Hu & _).
    assert (Hl' : findByUrl (scannedLinks w domain) (Link.url l) = Some l) by (rewrite Hu; auto).
    assert (Hp : pushes w l = true).
    { apply Hpush; auto; rewrite H404; [discriminate | reflexivity | reflexivity]. }
    destruct (scanLinks_to w _ l Hl' Hp) as (i & n & Hi & Hn).
    destruct (checkOne_some _ _ _ _ _ Hn) as (Hiu & _ & _ & _ & _ & _ & Hs & Hpr & Ht & _).
    rewrite Hu in Hiu, Hs, Hpr, Ht. rewrite H404 in Hs, Hpr, Ht. split.
    + rewrite Hev. unfold scanLinks. rewrite checkAll_captures. exists l.
      repeat split; auto.
      * unfold uniqueLinks. apply list_elem_of_omap. exists url. split; [|exact Hl].
        apply setFromList_elem. exact Hin.
      * unfold shouldTakeScreenshot. rewrite Htreat, H404. reflexivity.
    + exists l, i. repeat split; auto.
      * apply (scan_results w domain r i Hsort Hr). exact Hi.
      * rewrite Hpr, H. reflexivity.
      * rewrite Ht, H. reflexivity.
Qed.

Lemma affiliate_403_dropped_other_failures_reported_witness :
  (Info.treatAsWorking (outcome Example.site Example.partner) = true /\
   (forall i, i ∈ results Run.siteReport -> Issue.linkUrl i <> Example.partner) /\
   (Example.partner ∉ captures (events Run.siteReport))) /\
  (Example.deal ∈ captures (events Run.siteReport) /\
   exists l i,
     findByUrl (scannedLinks Example.site Example.root) Example.deal = Some l /\
     i ∈ results Run.siteReport /\ Issue.linkUrl i = Example.deal /\
     Issue.status i = HTTP 404 /\
     (analysisOf Example.site l = None ->
      Issue.priority i = "Critical" /\ Issue.type i = "Broken Link (404)")).
Proof.
  split.
  - apply (affiliate_403_dropped_other_failures_reported
             Example.site Example.root Run.siteReport Example.partner
             site_sort_conforms site_scan); reflexivity.
  - apply (affiliate_403_dropped_other_failures_reported
             Example.site Example.root Run.siteReport Example.deal
             site_sort_conforms site_scan); [reflexivity | | reflexivity].
    apply list_elem_of_In. vm_compute. tauto.
Defined.

(** C2 as stated fails: the affiliate link [Example.deal] is answered 404 in
    the browser, the analysis gives it the priority Low, and it is reported as
    a Low issue, not a Critical one. *)
Lemma affiliate_404_reported_low :
  browserVerified Example.deal = true /\
  Info.status (outcome Example.site Example.deal) = HTTP 404 /\
  map Issue.priority (Run.issuesFor Example.deal) = ["Low"].
Proof. repeat split. Qed.

(** ** Screenshots *)

(** A screenshot is attempted only for an issue in the list, whose status is
    404, 500, a connection error, a DNS error or a timeout, and whose
    outcome is not flagged as working. *)
Lemma capture_only_when (w : World) (domain : string) (r : Report) (url : string) :
  SortConforms w -> scan w domain = Some r -> url ∈ captures (events r) ->
  Claimed.evidenceWorthy (Info.status (outcome w url)) = true /\
  Info.treatAsWorking (outcome w url) = false /\
  exists i, i ∈ results r /\ Issue.linkUrl i = url.
Proof.
  intros Hsort Hr. destruct (scan_some _ _ _ Hr) as (_ & -> & _).
  unfold scanLinks at 1. rewrite checkAll_captures. intros (l & Hl & Hu & Hp & Hs).
  unfold shouldTakeScreenshot in Hs. apply andb_true_iff in Hs as [Hs Ht].
  split; [|split].
  - destruct (Info.status (outcome w url)) as [c| | | | |]; simpl in *; try reflexivity;
      try discriminate.
    destruct (Z.eqb_spec c 404), (Z.eqb_spec c 500); subst; simpl in *;
      try reflexivity; discriminate.
  - apply negb_true_iff in Ht. exact Ht.
  - destruct (scanLinks_to w _ l (uniqueLinks_elem _ _ Hl) Hp) as (i & n & Hi & Hn).
    destruct (checkOne_some _ _ _ _ _ Hn) as (Hiu & _).
    exists i. split; [apply (scan_results w domain r i Hsort Hr) | congruence]. exact Hi.
Qed.

(** C4 fails on the code for a 5xx other than 500: the image of the small
    site is answered 502 and reported, 502 is a status the specification asks
    a screenshot for, and none is attempted. *)
Theorem no_capture_for_502 :
  scan Example.site Example.root = Some Run.siteReport /\
  map Issue.status (Run.issuesFor Example.banner) = [HTTP 502] /\
  Claimed.evidenceWorthy (HTTP 502) = true /\
  Info.treatAsWorking (outcome Example.site Example.banner) = false /\
  shouldTakeScreenshot (outcome Example.site Example.banner) = false /\
  captures (events Run.siteReport) = [Example.missing; Example.deal].
Proof. repeat split; vm_compute; reflexivity. Qed.

(** ** Health score *)

Lemma scanLinks_nil (w : World) : scanLinks w [] = ([], []).
Proof. reflexivity. Qed.

(** A scan that finds no reference divides zero by zero. *)
Lemma scan_no_links_nan (w : World) (domain : string) (r : Report) :
  scan w domain = Some r -> totalLinks (stats r) = 0 -> PrimFloat.is_nan (score r) = true.
Proof.
  intros Hr H0. destruct (scan_some _ _ _ Hr) as (_ & _ & -> & Ht).
  rewrite Ht in H0. apply length_zero_iff_nil in H0. rewrite H0. vm_compute. reflexivity.
Qed.

(** C1 fails on the code without links: the only page of the dead site does
    not load, the scan completes with no reference, and its health score is
    the NaN of [0 / 0], where the specification asks for a guarded, undefined
    score. *)
Theorem health_score_without_links :
  exists r,
    scan Example.deadSite Example.root = Some r /\
    totalLinks (stats r) = 0 /\
    PrimFloat.is_nan (score r) = true /\
    score r = healthScore 0 0 /\
    specHealthScore 0 0 = None.
Proof. eexists. repeat split; vm_compute; reflexivity. Qed.

(** The order of the operations matters to the rounding: with 200 references
    and 171 issues, [((200 - 171) / 200) * 100] is just below 14.5 and rounds
    to 14, where [100 * (200 - 171) / 200] is 14.5 and rounds to 15. *)
Lemma health_score_rounding :
  healthScore 200 171 = Num.ofNat 14 /\ specHealthScore 200 171 = Some 15%Z.
Proof. split; vm_compute; reflexivity. Qed.

(** With no issue among 1 to 1000 references the score is 100. *)
Lemma health_score_no_issue :
  forallb (fun n => PrimFloat.eqb (healthScore (S n) 0) (Num.ofNat 100)) (seq 0 1000) = true.
Proof. vm_compute. reflexivity. Qed.

(** ** The crawl *)

Module CrawlFacts.
Import Crawl.

Lemma internalLinks_followable (w : World) (baseDomain : string) (links : list Raw.t) (u : string) :
  u ∈ internalLinks w baseDomain links -> followable w baseDomain u.
Proof.
  unfold internalLinks. rewrite list_elem_of_In, in_map_iff.
  intros (l & <- & Hl). apply filter_In in Hl as [_ Hl]. unfold isInternal in Hl.
  destruct (negb (bool_decide (Raw.type l = link))); [discriminate|].
  destruct (isAffiliateLink (Raw.url l)) eqn:Ha; [discriminate|].
  destruct (hostname w (Raw.url l)) as [h|] eqn:Hh; [|discriminate].
  apply bool_decide_eq_true in Hl as ->. split; auto.
Qed.

Lemma fold_enqueue_elem (visited : list string) (ls q : list string) (u : string) :
  u ∈ fold_left (enqueue visited) ls q -> u ∈ q \/ u ∈ ls.
Proof.
  revert q. induction ls as [|x ls IH]; intros q; simpl; [auto|].
  intros [H|H]%IH; [|right; right; exact H].
  unfold enqueue in H. destruct (_ && _); [|auto].
  apply elem_of_app in H as [H|H]; [auto|].
  apply list_elem_of_singleton in H as ->. right. left.
Qed.

(** What one iteration changes. *)
Lemma step_cases (w : World) (baseDomain : string) (maxPages : nat) (st st' : State) :
  step w baseDomain maxPages st = Some st' ->
  exists currentUrl rest,
    toVisit st = currentUrl :: rest /\ length (visited st) < maxPages /\
    ((currentUrl ∈ visited st /\ st' = shift st) \/
     ((currentUrl ∉ visited st) /\ st' = visitPage w baseDomain currentUrl (shift st))).
Proof.
  unfold step. destruct (toVisit st) as [|currentUrl rest] eqn:Hq; [discriminate|].
  destruct (Nat.ltb_spec (length (visited st)) maxPages) as [Hlt|]; [|discriminate].
  case_bool_decide as Hv; intros [= <-]; exists currentUrl, rest; auto.
Qed.

Lemma visitPage_visited (w : World) (baseDomain currentUrl : string) (st : State) :
  currentUrl ∉ visited st ->
  visited (visitPage w baseDomain currentUrl st) = visited st ++ [currentUrl].
Proof.
  intros Hv. unfold visitPage, setAdd. rewrite bool_decide_eq_false_2 by exact Hv.
  destruct (loadPage w currentUrl); reflexivity.
Qed.

Lemma visitPage_trace (w : World) (baseDomain currentUrl : string) (st : State) :
  trace (visitPage w baseDomain currentUrl st) =
  trace st ++ match loadPage w currentUrl with
              | TabFailed => [Visit currentUrl]
              | _ => [Visit currentUrl; Navigate currentUrl]
              end.
Proof. unfold visitPage. destruct (loadPage w currentUrl); reflexivity. Qed.

Lemma visitPage_toVisit (w : World) (baseDomain currentUrl : string) (st : State) (u : string) :
  u ∈ toVisit (visitPage w baseDomain currentUrl st) ->
  u ∈ toVisit st \/ followable w baseDomain u.
Proof.
  unfold visitPage. destruct (loadPage w currentUrl) as [| |links]; simpl; auto.
  intros [H|H]%fold_enqueue_elem; [auto|].
  right. eapply internalLinks_followable, H.
Qed.

Lemma visitPage_allLinks (w : World) (baseDomain currentUrl : string) (st : State) (l : Link.t) :
  l ∈ allLinks (visitPage w baseDomain currentUrl st) ->
  l ∈ allLinks st \/
  (Link.pageUrl l = currentUrl /\ (exists links, loadPage w currentUrl = Loaded links)).
Proof.
  unfold visitPage. destruct (loadPage w currentUrl) as [| |links]; simpl; auto.
  intros [H|H]%elem_of_app; [auto|].
  apply list_elem_of_In, in_map_iff in H as (x & <- & _). right. split; eauto.
Qed.

Lemma visits_app (a b : list Event) : visits (a ++ b) = visits a ++ visits b.
Proof. apply omap_app. Qed.

(** Every iteration keeps the invariant. *)
Lemma step_inv (w : World) (baseDomain : string) (maxPages : nat) (domain : string)
    (st st' : State) :
  CrawlInv w baseDomain maxPages domain st ->
  step w baseDomain maxPages st = Some st' ->
  CrawlInv w baseDomain maxPages domain st'.
Proof.
  intros [Hnd Hb Hq Hbl Hvs Hl] Hstep.
  destruct (step_cases _ _ _ _ _ Hstep) as (u & rest & Hqu & Hlt & [[Hv ->] | [Hv ->]]).
  - split; simpl; auto. intros x Hx. apply Hq. rewrite Hqu. right. rewrite Hqu in Hx. exact Hx.
  - assert (Hsv : visited (shift st) = visited st) by reflexivity.
    split.
    + rewrite visitPage_visited by exact Hv. simpl.
      apply NoDup_app. repeat split; [exact Hnd | | apply NoDup_singleton].
      intros x Hx ->%list_elem_of_singleton. contradiction.
    + rewrite visitPage_visited by exact Hv. simpl. rewrite length_app. simpl. lia.
    + intros x [Hx|Hx]%visitPage_toVisit; [|auto].
      apply Hq. simpl in Hx. rewrite Hqu in Hx |- *. right. exact Hx.
    + rewrite visitPage_trace. simpl.
      destruct (loadPage w u); constructor; exact Hbl.
    + rewrite visitPage_trace, visitPage_visited by exact Hv. simpl.
      rewrite visits_app, Hvs. destruct (loadPage w u); reflexivity.
    + intros l Hin. rewrite visitPage_visited by exact Hv. simpl.
      apply visitPage_allLinks in Hin as [Hin | [-> _]].
      * apply elem_of_app. left. apply Hl, Hin.
      * apply elem_of_app. right. left.
Qed.

Lemma init_inv (w : World) (baseDomain : string) (maxPages : nat) (domain : string) :
  CrawlInv w baseDomain maxPages domain (init domain).
Proof.
  split; simpl; auto.
  - apply NoDup_nil_2.
  - lia.
  - intros u ->%list_elem_of_singleton. auto.
  - constructor.
  - intros l Hl. inversion Hl.
Qed.

Lemma reachable_inv (w : World) (baseDomain : string) (maxPages : nat) (domain : string)
    (st : State) :
  Reachable w baseDomain maxPages domain st -> CrawlInv w baseDomain maxPages domain st.
Proof.
  unfold Reachable. intros H. revert H.
  generalize (init_inv w baseDomain maxPages domain).
  generalize (init domain). intros a Ha H.
  induction H as [|a b c Hab _ IH]; [exact Ha|].
  apply IH. eapply step_inv; eauto.
Qed.

End CrawlFacts.

(** ** Traces *)

Module TraceFacts.
Import Crawl.

Lemma navigations_app (a b : list Event) : navigations (a ++ b) = navigations a ++ navigations b.
Proof. apply omap_app. Qed.

(** The navigations of a trace are among its visits, in the same order. *)
Lemma blocks_navigations (t : list Event) : Blocks t -> navigations t `sublist_of` visits t.
Proof.
  induction 1 as [|t u _ IH|t u _ IH]; simpl.
  - constructor.
  - rewrite navigations_app, CrawlFacts.visits_app. simpl. rewrite app_nil_r.
    apply sublist_inserts_r, IH.
  - rewrite navigations_app, CrawlFacts.visits_app. simpl.
    apply sublist_app; [exact IH | reflexivity].
Qed.

Lemma snoc_eq_split (t l1 l2 : list Event) (x e : Event) :
  t ++ [x] = l1 ++ e :: l2 ->
  (l2 = [] /\ t = l1 /\ x = e) \/ (exists l2', l2 = l2' ++ [x] /\ t = l1 ++ e :: l2').
Proof.
  destruct l2 as [|y l2 _] using rev_ind.
  - intros H. apply app_inj_tail in H as [-> ->]. auto.
  - intros H. right. exists l2.
    change (l1 ++ e :: l2 ++ [y]) with (l1 ++ (e :: l2) ++ [y]) in H.
    rewrite app_assoc in H. apply app_inj_tail in H as [-> ->]. auto.
Qed.

(** In a trace of blocks every navigation comes right after the visit of the
    same URL. *)
Lemma blocks_visit_first (t : list Event) :
  Blocks t ->
  forall t1 u t2, t = t1 ++ Navigate u :: t2 -> exists t0, t1 = t0 ++ [Visit u].
Proof.
  induction 1 as [|t x _ IH|t x _ IH]; intros t1 u t2 Heq.
  - destruct t1; discriminate.
  - apply snoc_eq_split in Heq as [(_ & _ & [=]) | (t2' & _ & Ht)]. eapply IH, Ht.
  - change (t ++ [Visit x; Navigate x]) with (t ++ [Visit x] ++ [Navigate x]) in Heq.
    rewrite app_assoc in Heq.
    apply snoc_eq_split in Heq as [(_ & <- & [= <-]) | (t2' & _ & Ht)]; [eauto|].
    apply snoc_eq_split in Ht as [(_ & _ & [=]) | (t2'' & _ & Ht)]. eapply IH, Ht.
Qed.

End TraceFacts.

(** ** The loop runs the iterations to the end *)

Module LoopFacts.
Import Crawl.

Lemma drain_run (w : World) (baseDomain : string) (maxPages : nat)
    (visit : string -> State -> State) (seen : list string) (q : list string) (st : State) :
  visited st = seen -> toVisit st = q ->
  (forall currentUrl st0,
     visited st0 = seen -> length seen < maxPages -> currentUrl ∉ seen ->
     rtc (fun a b => step w baseDomain maxPages a = Some b)
       (visitPage w baseDomain currentUrl (shift st0)) (visit currentUrl (shift st0)) /\
     step w baseDomain maxPages (visit currentUrl (shift st0)) = None) ->
  rtc (fun a b => step w baseDomain maxPages a = Some b) st (drain visit maxPages q st) /\
  step w baseDomain maxPages (drain visit maxPages q st) = None.
Proof.
  intros Hseen Hq Hvisit. revert st Hseen Hq.
  induction q as [|u rest IH]; intros st Hseen Hq; simpl.
  - split; [reflexivity|]. unfold step. rewrite Hq. reflexivity.
  - destruct (Nat.ltb_spec (length (visited st)) maxPages) as [Hlt|Hge].
    + case_bool_decide as Hv.
      * destruct (IH (shift st)) as [Hrun Hend]; [exact Hseen | simpl; rewrite Hq; reflexivity|].
        split; [|exact Hend]. eapply rtc_l; [|exact Hrun].
        unfold step. rewrite Hq.
        destruct (Nat.ltb_spec (length (visited st)) maxPages); [|lia].
        rewrite bool_decide_eq_true_2 by exact Hv. reflexivity.
      * destruct (Hvisit u st) as [Hrun Hend]; [exact Hseen | congruence | congruence |].
        split; [|exact Hend]. eapply rtc_l; [|exact Hrun].
        unfold step. rewrite Hq.
        destruct (Nat.ltb_spec (length (visited st)) maxPages); [|lia].
        rewrite bool_decide_eq_false_2 by exact Hv. reflexivity.
    + split; [reflexivity|]. unfold step. rewrite Hq.
      destruct (Nat.ltb_spec (length (visited st)) maxPages); [lia | reflexivity].
Qed.

(** With a budget of [maxPages - visited.size] page visits, [loop] is the
    [while] loop run until its condition fails. *)
Lemma loop_run (w : World) (baseDomain : string) (maxPages : nat) (budget : nat) (st : State) :
  maxPages - length (visited st) <= budget ->
  rtc (fun a b => step w baseDomain maxPages a = Some b) st
    (loop w baseDomain maxPages budget st) /\
  step w baseDomain maxPages (loop w baseDomain maxPages budget st) = None.
Proof.
  revert st. induction budget as [|b IH]; intros st Hb; simpl.
  - apply (drain_run _ _ _ _ (visited st)); [reflexivity | reflexivity |]. intros; lia.
  - apply (drain_run _ _ _ _ (visited st)); [reflexivity | reflexivity |].
    intros u st0 Hseen Hlt Hv. apply IH.
    rewrite CrawlFacts.visitPage_visited by (simpl; congruence).
    simpl. rewrite length_app, Hseen. simpl. lia.
Qed.

End LoopFacts.

(** ** The crawl as a whole *)

Lemma rtc_to_the_end {A : Type} (f : A -> option A) (a b c : A) :
  rtc (fun x y => f x = Some y) a b ->
  rtc (fun x y => f x = Some y) a c -> f c = None ->
  rtc (fun x y => f x = Some y) b c.
Proof.
  intros Hab. revert c. induction Hab as [a | a a' b Haa' _ IH]; intros c Hac Hc; [exact Hac|].
  apply IH; [|exact Hc].
  destruct Hac as [|a a'' c Haa'' Hac]; [congruence|].
  rewrite Haa' in Haa''. injection Haa'' as <-. exact Hac.
Qed.

(** The crawl returns, and its final state is the last state of the
    iterations. *)
Lemma crawlState_run (w : World) (domain baseDomain : string) (maxPages : nat) :
  hostname w domain = Some baseDomain ->
  exists final,
    crawlState w domain maxPages = Some final /\
    Crawl.Reachable w baseDomain maxPages domain final /\
    Crawl.step w baseDomain maxPages final = None.
Proof.
  intros Hh. unfold crawlState. rewrite Hh. eexists. split; [reflexivity|].
  apply LoopFacts.loop_run. simpl. lia.
Qed.

(** C6: in every state of a crawl, no URL was navigated to twice, and the
    URL an iteration navigates to is not in the visited set before; the
    visited pages are at most [maxPages]; every URL on the frontier is the
    root or a target that is not affiliate-class and whose host name is the
    root's, and an iteration enqueues only such targets. *)
Theorem crawl_invariants (w : World) (baseDomain : string) (maxPages : nat)
    (domain : string) (st : Crawl.State) :
  Crawl.Reachable w baseDomain maxPages domain st ->
  NoDup (Crawl.navigations (Crawl.trace st)) /\
  (forall st' u, Crawl.step w baseDomain maxPages st = Some st' ->
     u ∈ Crawl.navigations (Crawl.trace st') ->
     u ∈ Crawl.navigations (Crawl.trace st) \/ (u ∉ Crawl.visited st)) /\
  length (Crawl.visited st) <= maxPages /\
  (forall u, u ∈ Crawl.toVisit st -> u = domain \/ followable w baseDomain u) /\
  (forall st' u, Crawl.step w baseDomain maxPages st = Some st' ->
     u ∈ Crawl.toVisit st' -> u ∈ Crawl.toVisit st \/ followable w baseDomain u).
Proof.
  intros Hreach. destruct (CrawlFacts.reachable_inv _ _ _ _ _ Hreach) as [Hnd Hb Hq Hbl Hvs Hl].
  repeat split; auto.
  - apply (sublist_NoDup _ (visits (Crawl.trace st))); [rewrite Hvs; exact Hnd|].
    apply TraceFacts.blocks_navigations, Hbl.
  - intros st' u Hstep Hu.
    destruct (CrawlFacts.step_cases _ _ _ _ _ Hstep)
      as (x & rest & Hqu & Hlt & [[Hv ->] | [Hv ->]]); [left; exact Hu|].
    rewrite CrawlFacts.visitPage_trace, TraceFacts.navigations_app in Hu. simpl in Hu.
    apply elem_of_app in Hu as [Hu|Hu]; [left; exact Hu|]. right.
    destruct (loadPage w x); simpl in Hu;
      try apply list_elem_of_singleton in Hu as ->; try exact Hv; inversion Hu.
  - intros st' u Hstep Hu.
    destruct (CrawlFacts.step_cases _ _ _ _ _ Hstep)
      as (x & rest & Hqu & Hlt & [[Hv ->] | [Hv ->]]).
    + left. simpl in Hu. rewrite Hqu in Hu |- *. right. exact Hu.
    + apply CrawlFacts.visitPage_toVisit in Hu as [Hu|Hu]; [|auto].
      left. simpl in Hu. rewrite Hqu in Hu |- *. right. exact Hu.
Qed.

Lemma afterRoot_reachable :
  Crawl.Reachable Example.site "site.test" 50 Example.root Run.afterRoot.
Proof. apply rtc_once. vm_compute. reflexivity. Qed.

Lemma crawl_invariants_witness :
  NoDup (Crawl.navigations (Crawl.trace Run.afterRoot)) /\
  (forall st' u, Crawl.step Example.site "site.test" 50 Run.afterRoot = Some st' ->
     u ∈ Crawl.navigations (Crawl.trace st') ->
     u ∈ Crawl.navigations (Crawl.trace Run.afterRoot) \/ (u ∉ Crawl.visited Run.afterRoot)) /\
  length (Crawl.visited Run.afterRoot) <= 50 /\
  (forall u, u ∈ Crawl.toVisit Run.afterRoot ->
     u = Example.root \/ followable Example.site "site.test" u) /\
  (forall st' u, Crawl.step Example.site "site.test" 50 Run.afterRoot = Some st' ->
     u ∈ Crawl.toVisit st' ->
     u ∈ Crawl.toVisit Run.afterRoot \/ followable Example.site "site.test" u).
Proof.
  apply (crawl_invariants Example.site "site.test" 50 Example.root Run.afterRoot).
  exact afterRoot_reachable.
Defined.

(** ** A page that fails to load *)

(** Once a URL is visited without contributing a reference, it stays
    visited and never contributes one. *)
Lemma visited_without_links (w : World) (baseDomain : string) (maxPages : nat)
    (url : string) (a b : Crawl.State) :
  rtc (fun x y => Crawl.step w baseDomain maxPages x = Some y) a b ->
  url ∈ Crawl.visited a -> (forall l, l ∈ Crawl.allLinks a -> Link.pageUrl l <> url) ->
  url ∈ Crawl.visited b /\ (forall l, l ∈ Crawl.allLinks b -> Link.pageUrl l <> url).
Proof.
  induction 1 as [a | a a' b Hstep _ IH]; intros Hv Hl; [auto|].
  destruct (CrawlFacts.step_cases _ _ _ _ _ Hstep)
    as (x & rest & Hqu & Hlt & [[Hx ->] | [Hx ->]]).
  - apply IH; auto.
  - apply IH.
    + rewrite CrawlFacts.visitPage_visited by exact Hx. apply elem_of_app. left. exact Hv.
    + intros l [Hin | [Hp _]]%CrawlFacts.visitPage_allLinks; [apply Hl, Hin|].
      rewrite Hp. intros ->. contradiction.
Qed.

(** C10: in every state of a crawl, each navigation in the trace comes right
    after the visited set received the same URL; and when the navigation to a
    dequeued, not yet visited URL fails, the iteration adds the URL to the
    visited set, which grows by one, adds no reference and enqueues nothing;
    the crawl then returns a result whose pages contain the URL, are at most
    [maxPages], and whose references have none from that page. *)
Theorem failed_navigation_still_counts (w : World) (baseDomain : string) (maxPages : nat)
    (domain : string) (st : Crawl.State) :
  hostname w domain = Some baseDomain ->
  Crawl.Reachable w baseDomain maxPages domain st ->
  (forall t1 u t2, Crawl.trace st = t1 ++ Crawl.Navigate u :: t2 ->
     exists t0, t1 = t0 ++ [Crawl.Visit u]) /\
  (forall currentUrl rest,
     Crawl.toVisit st = currentUrl :: rest -> currentUrl ∉ Crawl.visited st ->
     length (Crawl.visited st) < maxPages -> loadPage w currentUrl = LoadFailed ->
     exists st',
       Crawl.step w baseDomain maxPages st = Some st' /\
       Crawl.trace st' = Crawl.trace st ++ [Crawl.Visit currentUrl; Crawl.Navigate currentUrl] /\
       Crawl.visited st' = Crawl.visited st ++ [currentUrl] /\
       length (Crawl.visited st') = S (length (Crawl.visited st)) /\
       Crawl.allLinks st' = Crawl.allLinks st /\
       Crawl.toVisit st' = rest /\
       exists pages links,
         crawlWebsite w domain maxPages = Some (pages, links) /\
         currentUrl ∈ pages /\ length pages <= maxPages /\
         (forall l, l ∈ links -> Link.pageUrl l <> currentUrl)).
Proof.
  intros Hh Hreach.
  destruct (CrawlFacts.reachable_inv _ _ _ _ _ Hreach) as [Hnd Hb Hq Hbl Hvs Hl].
  split; [apply TraceFacts.blocks_visit_first, Hbl|].
  intros u rest Hqu Hv Hlt Hload.
  assert (Hstep : Crawl.step w baseDomain maxPages st =
                  Some (Crawl.visitPage w baseDomain u (Crawl.shift st))).
  { unfold Crawl.step. rewrite Hqu.
    destruct (Nat.ltb_spec (length (Crawl.visited st)) maxPages); [|lia].
    rewrite bool_decide_eq_false_2 by exact Hv. reflexivity. }
  exists (Crawl.visitPage w baseDomain u (Crawl.shift st)).
  assert (Hvis : Crawl.visited (Crawl.visitPage w baseDomain u (Crawl.shift st)) =
                 Crawl.visited st ++ [u]).
  { rewrite CrawlFacts.visitPage_visited by exact Hv. reflexivity. }
  assert (Hlinks : Crawl.allLinks (Crawl.visitPage w baseDomain u (Crawl.shift st)) =
                   Crawl.allLinks st).
  { unfold Crawl.visitPage. rewrite Hload. reflexivity. }
  split; [exact Hstep|]. split; [rewrite CrawlFacts.visitPage_trace, Hload; reflexivity|].
  split; [exact Hvis|]. split; [rewrite Hvis, length_app; simpl; lia|].
  split; [exact Hlinks|].
  split; [unfold Crawl.visitPage; rewrite Hload; simpl; rewrite Hqu; reflexivity|].
  destruct (crawlState_run w domain baseDomain maxPages Hh) as (final & Hfinal & Hrf & Hend).
  exists (Crawl.visited final), (Crawl.allLinks final).
  split; [unfold crawlWebsite; rewrite Hfinal; reflexivity|].
  assert (Hrest : rtc (fun x y => Crawl.step w baseDomain maxPages x = Some y)
                    (Crawl.visitPage w baseDomain u (Crawl.shift st)) final).
  { eapply (rtc_to_the_end (Crawl.step w baseDomain maxPages)); [|exact Hrf | exact Hend].
    eapply rtc_r; [exact Hreach | exact Hstep]. }
  destruct (visited_without_links _ _ _ u _ _ Hrest) as [Hin Hno].
  - rewrite Hvis. apply elem_of_app. right. left.
  - rewrite Hlinks. intros l Hin Heq. apply Hv. rewrite <- Heq. apply Hl, Hin.
  - split; [exact Hin|]. split; [|exact Hno].
    apply (CrawlFacts.reachable_inv _ _ _ _ _ Hrf).
Qed.

Lemma failed_navigation_still_counts_witness :
  exists st',
    Crawl.step Example.site "site.test" 50 Run.afterRoot = Some st' /\
    Crawl.trace st' =
      Crawl.trace Run.afterRoot ++ [Crawl.Visit Example.about; Crawl.Navigate Example.about] /\
    Crawl.visited st' = Crawl.visited Run.afterRoot ++ [Example.about] /\
    length (Crawl.visited st') = S (length (Crawl.visited Run.afterRoot)) /\
    Crawl.allLinks st' = Crawl.allLinks Run.afterRoot /\
    Crawl.toVisit st' = [Example.missing] /\
    exists pages links,
      crawlWebsite Example.site Example.root 50 = Some (pages, links) /\
      Example.about ∈ pages /\ length pages <= 50 /\
      (forall l, l ∈ links -> Link.pageUrl l <> Example.about).
Proof.
  apply (failed_navigation_still_counts Example.site "site.test" 50 Example.root Run.afterRoot
           eq_refl afterRoot_reachable).
  - reflexivity.
  - intros Hin. apply list_elem_of_singleton in Hin. discriminate Hin.
  - simpl. lia.
  - reflexivity.
Defined.

(** In the small site the page [Example.about] is next on the frontier after
    the root, and its navigation fails. *)
Lemma about_fails_next :
  Crawl.toVisit Run.afterRoot = [Example.about; Example.missing] /\
  loadPage Example.site Example.about = LoadFailed /\
  crawlWebsite Example.site Example.root 50 =
    Some ([Example.root; Example.about; Example.missing],
          map (Link.ofRaw Example.root) Example.rootLinks).
Proof. repeat split; vm_compute; reflexivity. Qed.

(** * Further properties *)

#[local] Arguments Js.startsWith _ _ : simpl never.
#[local] Arguments Js.includes _ _ : simpl never.
#[local] Arguments Js.toLowerCase _ : simpl never.
#[local] Arguments Re.test _ _ : simpl never.

(** ** The frontier and the result of a crawl *)

Module CrawlMore.
Import Crawl.

Lemma enqueue_fresh (seen q : list string) (l : string) :
  NoDup q -> (forall x, x ∈ q -> x ∉ seen) ->
  NoDup (enqueue seen q l) /\ (forall x, x ∈ enqueue seen q l -> x ∉ seen).
Proof.
  intros Hnd Hq. unfold enqueue.
  destruct (bool_decide (l ∈ seen)) eqn:Hs; simpl; [auto|].
  destruct (bool_decide (l ∈ q)) eqn:Hl; simpl; [auto|].
  apply bool_decide_eq_false in Hs. apply bool_decide_eq_false in Hl. split.
  - apply NoDup_app. repeat split; [exact Hnd | | apply NoDup_singleton].
    intros x Hx Hx'. apply list_elem_of_singleton in Hx'. subst x. contradiction.
  - intros x Hx. apply elem_of_app in Hx as [Hx|Hx]; [auto|].
    apply list_elem_of_singleton in Hx. subst x. exact Hs.
Qed.

Lemma fold_enqueue_fresh (seen ls q : list string) :
  NoDup q -> (forall x, x ∈ q -> x ∉ seen) ->
  NoDup (fold_left (enqueue seen) ls q) /\
  (forall x, x ∈ fold_left (enqueue seen) ls q -> x ∉ seen).
Proof.
  revert q. induction ls as [|l ls IH]; intros q Hnd Hq; simpl; [auto|].
  destruct (enqueue_fresh seen q l Hnd Hq) as [Hnd' Hq']. apply IH; auto.
Qed.

Lemma visitPage_toVisit_eq (w : World) (baseDomain currentUrl : string) (st : State) :
  toVisit (visitPage w baseDomain currentUrl st) =
  match loadPage w currentUrl with
  | Loaded links =>
      fold_left (enqueue (setAdd currentUrl (visited st)))
        (internalLinks w baseDomain links) (toVisit st)
  | _ => toVisit st
  end.
Proof. unfold visitPage. destruct (loadPage w currentUrl); reflexivity. Qed.

Lemma visitPage_allLinks_eq (w : World) (baseDomain currentUrl : string) (st : State) :
  allLinks (visitPage w baseDomain currentUrl st) = allLinks st ++ pageReferences w currentUrl.
Proof.
  unfold visitPage, pageReferences.
  destruct (loadPage w currentUrl); simpl; rewrite ?app_nil_r; reflexivity.
Qed.

(** A property of the first state that every iteration keeps holds of every
    state of the crawl. *)
Lemma reachable_keeps (w : World) (baseDomain : string) (maxPages : nat) (domain : string)
    (P : State -> Prop) :
  P (init domain) ->
  (forall st st', CrawlInv w baseDomain maxPages domain st -> P st ->
     step w baseDomain maxPages st = Some st' -> P st') ->
  forall st, Reachable w baseDomain maxPages domain st -> P st.
Proof.
  intros Hinit Hstep st Hreach.
  enough (CrawlInv w baseDomain maxPages domain st /\ P st) as [_ H] by exact H.
  revert st Hreach. apply rtc_ind_r.
  - split; [apply CrawlFacts.init_inv | exact Hinit].
  - intros a b _ Hab [Hinv Ha]. split; [eapply CrawlFacts.step_inv; eauto | eauto].
Qed.

(** The frontier holds no URL twice and no visited URL. *)
Lemma frontier_inv (w : World) (baseDomain : string) (maxPages : nat) (domain : string)
    (st : State) :
  Reachable w baseDomain maxPages domain st ->
  NoDup (toVisit st) /\ (forall u, u ∈ toVisit st -> u ∉ visited st).
Proof.
  revert st.
  apply (reachable_keeps w baseDomain maxPages domain
           (fun st => NoDup (toVisit st) /\ (forall u, u ∈ toVisit st -> u ∉ visited st))).
  - simpl. split; [apply NoDup_singleton|]. intros u _ Hu. inversion Hu.
  - intros st st' _ [Hnd Hfresh] Hstep.
    destruct (CrawlFacts.step_cases _ _ _ _ _ Hstep)
      as (u & rest & Hq & Hlt & [[Hv ->] | [Hv ->]]).
    + exfalso. apply (Hfresh u); [rewrite Hq; left | exact Hv].
    + rewrite Hq in Hnd, Hfresh. apply NoDup_cons in Hnd as [Hu Hrest].
      assert (Hseen : setAdd u (visited (shift st)) = visited st ++ [u]).
      { unfold setAdd. simpl. rewrite bool_decide_eq_false_2 by exact Hv. reflexivity. }
      assert (Hrest' : forall x, x ∈ rest -> x ∉ visited st ++ [u]).
      { intros x Hx Hin. apply elem_of_app in Hin as [Hin|Hin].
        - apply (Hfresh x); [right; exact Hx | exact Hin].
        - apply list_elem_of_singleton in Hin. subst x. contradiction. }
      rewrite visitPage_toVisit_eq, CrawlFacts.visitPage_visited by exact Hv.
      rewrite Hseen. simpl. rewrite Hq. simpl.
      destruct (loadPage w u); [auto | auto |].
      apply fold_enqueue_fresh; auto.
Qed.

(** The final state of a crawl. *)
Lemma crawlState_final (w : World) (domain : string) (maxPages : nat) (final : State) :
  crawlState w domain maxPages = Some final ->
  exists baseDomain,
    hostname w domain = Some baseDomain /\
    Reachable w baseDomain maxPages domain final /\
    step w baseDomain maxPages final = None.
Proof.
  intros Hfinal. destruct (hostname w domain) as [baseDomain|] eqn:Hh.
  - destruct (crawlState_run w domain baseDomain maxPages Hh) as (final' & Hf & Hr & He).
    rewrite Hfinal in Hf. injection Hf as <-. eauto.
  - unfold crawlState in Hfinal. rewrite Hh in Hfinal. discriminate.
Qed.

Lemma crawlWebsite_final (w : World) (domain : string) (maxPages : nat)
    (pages : list string) (links : list Link.t) :
  crawlWebsite w domain maxPages = Some (pages, links) ->
  exists baseDomain final,
    hostname w domain = Some baseDomain /\
    Reachable w baseDomain maxPages domain final /\
    step w baseDomain maxPages final = None /\
    pages = visited final /\ links = allLinks final.
Proof.
  unfold crawlWebsite. destruct (crawlState w domain maxPages) as [final|] eqn:Hf; [|discriminate].
  intros [= <- <-]. destruct (crawlState_final _ _ _ _ Hf) as (b & Hh & Hr & He).
  exists b, final. auto.
Qed.

End CrawlMore.

(** X1: in every state of a crawl the frontier holds no URL twice and no
    visited URL, so the URL an iteration dequeues is never visited already:
    every iteration visits the URL at the head of the frontier, and the
    visited set grows by exactly that URL. *)
Theorem dequeued_url_is_fresh (w : World) (baseDomain : string) (maxPages : nat)
    (domain : string) (st : Crawl.State) :
  Crawl.Reachable w baseDomain maxPages domain st ->
  NoDup (Crawl.toVisit st) /\
  (forall u, u ∈ Crawl.toVisit st -> u ∉ Crawl.visited st) /\
  (forall st', Crawl.step w baseDomain maxPages st = Some st' ->
     exists currentUrl rest,
       Crawl.toVisit st = currentUrl :: rest /\
       st' = Crawl.visitPage w baseDomain currentUrl (Crawl.shift st) /\
       Crawl.visited st' = Crawl.visited st ++ [currentUrl]).
Proof.
  intros Hreach. destruct (CrawlMore.frontier_inv _ _ _ _ _ Hreach) as [Hnd Hfresh].
  repeat split; auto.
  intros st' Hstep.
  destruct (CrawlFacts.step_cases _ _ _ _ _ Hstep)
    as (u & rest & Hq & Hlt & [[Hv ->] | [Hv ->]]).
  - exfalso. apply (Hfresh u); [rewrite Hq; left | exact Hv].
  - exists u, rest. repeat split; auto.
    rewrite CrawlFacts.visitPage_visited by exact Hv. reflexivity.
Qed.

Lemma dequeued_url_is_fresh_witness :
  NoDup (Crawl.toVisit Run.afterRoot) /\
  (forall u, u ∈ Crawl.toVisit Run.afterRoot -> u ∉ Crawl.visited Run.afterRoot) /\
  (forall st', Crawl.step Example.site "site.test" 50 Run.afterRoot = Some st' ->
     exists currentUrl rest,
       Crawl.toVisit Run.afterRoot = currentUrl :: rest /\
       st' = Crawl.visitPage Example.site "site.test" currentUrl (Crawl.shift Run.afterRoot) /\
       Crawl.visited st' = Crawl.visited Run.afterRoot ++ [currentUrl]).
Proof.
  apply (dequeued_url_is_fresh Example.site "site.test" 50 Example.root Run.afterRoot).
  exact afterRoot_reachable.
Defined.

(** X2: a crawl ends only with an empty frontier or with exactly [maxPages]
    visited pages. *)
Theorem crawl_stops_when (w : World) (domain : string) (maxPages : nat) (final : Crawl.State) :
  crawlState w domain maxPages = Some final ->
  Crawl.toVisit final = [] \/ length (Crawl.visited final) = maxPages.
Proof.
  intros Hfinal. destruct (CrawlMore.crawlState_final _ _ _ _ Hfinal) as (b & _ & Hr & He).
  pose proof (inv_bound _ _ _ _ _ (CrawlFacts.reachable_inv _ _ _ _ _ Hr)) as Hb.
  unfold Crawl.step in He. destruct (Crawl.toVisit final) as [|u rest]; [left; reflexivity|].
  right. destruct (Nat.ltb_spec (length (Crawl.visited final)) maxPages); [|lia].
  destruct (bool_decide _); discriminate.
Qed.

Lemma crawl_stops_when_witness :
  Crawl.toVisit (Crawl.loop Example.site "site.test" 2 2 (Crawl.init Example.root)) = [] \/
  length (Crawl.visited (Crawl.loop Example.site "site.test" 2 2 (Crawl.init Example.root))) = 2.
Proof.
  apply (crawl_stops_when Example.site Example.root 2). reflexivity.
Defined.



(** X4: the references a crawl returns are, page by page in the order of the
    visits, what the extraction of each visited page gave (nothing for a page
    that failed), each carrying its page's URL. *)
Theorem crawled_links_by_page (w : World) (domain : string) (maxPages : nat)
    (pages : list string) (links : list Link.t) :
  crawlWebsite w domain maxPages = Some (pages, links) ->
  links = concat (map (pageReferences w) pages) /\
  (forall l, l ∈ links -> Link.pageUrl l ∈ pages).
Proof.
  intros Hcrawl.
  destruct (CrawlMore.crawlWebsite_final _ _ _ _ _ Hcrawl) as (b & final & _ & Hr & _ & -> & ->).
  split; [|apply (inv_links _ _ _ _ _ (CrawlFacts.reachable_inv _ _ _ _ _ Hr))].
  clear Hcrawl. revert final Hr.
  apply (CrawlMore.reachable_keeps w b maxPages domain
           (fun st => Crawl.allLinks st = concat (map (pageReferences w) (Crawl.visited st))));
    [reflexivity|].
  intros st st' _ IH Hstep.
  destruct (CrawlFacts.step_cases _ _ _ _ _ Hstep)
    as (u & rest & Hqu & Hlt & [[Hv ->] | [Hv ->]]); [exact IH|].
  rewrite CrawlMore.visitPage_allLinks_eq, CrawlFacts.visitPage_visited by exact Hv.
  simpl. rewrite IH, map_app, concat_app. simpl. rewrite app_nil_r. reflexivity.
Qed.

Lemma crawled_links_by_page_witness :
  map (Link.ofRaw Example.root) Example.rootLinks =
    concat (map (pageReferences Example.site) [Example.root; Example.about; Example.missing]) /\
  (forall l, l ∈ map (Link.ofRaw Example.root) Example.rootLinks ->
     Link.pageUrl l ∈ [Example.root; Example.about; Example.missing]).
Proof.
  apply (crawled_links_by_page Example.site Example.root 50). vm_compute. reflexivity.
Defined.

(** ** Requests and flags of a verification *)

Module VerifyMore.

Lemma skipped_outcome (w : World) (url : string) (browser : bool) :
  skipped url = true ->
  snd (checkLinkStatus w url browser) = [] /\
  Info.status (fst (checkLinkStatus w url browser)) = HTTP 200 /\
  Info.skip (fst (checkLinkStatus w url browser)) = true /\
  Info.responseTime (fst (checkLinkStatus w url browser)) = 0%Z.
Proof.
  unfold skipped, checkLinkStatus. intros H.
  destruct (isTrackingPixel url); [repeat split|]. simpl in H. rewrite H. repeat split.
Qed.

Lemma not_skipped_outcome (w : World) (url : string) (browser : bool) :
  skipped url = false -> Info.skip (fst (checkLinkStatus w url browser)) = false.
Proof.
  unfold skipped, checkLinkStatus. intros H.
  apply orb_false_iff in H as [H Hb]. apply orb_false_iff in H as [Ht Hd].
  rewrite Ht, Hd, Hb. simpl.
  destruct (checkLinkWithBrowser w url) as [result io] eqn:E.
  assert (Hr : Info.skip result = false).
  { unfold checkLinkWithBrowser in E. destruct (browserGoto w url); injection E as <- _; reflexivity. }
  repeat match goal with
         | |- context [if ?b then _ else _] => destruct b
         | |- context [match ?b with _ => _ end] => destruct b
         end; simpl; auto.
Qed.

(** Closing the cases of a verification that are settled by its events. *)
Ltac break :=
  repeat match goal with
  | H : _ /\ _ |- _ => destruct H
  | H : _ \/ _ |- _ => destruct H
  | H : exists _, _ |- _ => destruct H
  | H : AxiosFailure _ _ _ = AxiosFailure _ _ _ |- _ => injection H as ? ? ?; subst
  | H : sentinelCode (Some _) = false |- _ => vm_compute in H
  end.

Ltac settle :=
  repeat match goal with |- _ /\ _ => split end;
  try (split; intros; break; first [congruence | eauto 8]);
  try (intros; break; congruence).

End VerifyMore.

(** X5: a verification makes at most one request: none for a URL that is
    skipped or is a [mailto:], [tel:], [javascript:] or fragment link; one
    navigation of the browser for an affiliate-class URL when a browser handle
    is passed; one HTTP GET otherwise. *)
Theorem verification_requests (w : World) (url : string) (browser : bool) :
  snd (checkLinkStatus w url browser) =
  if answeredLocally url then []
  else if browser && isAffiliateLink url then [BrowserGoto url]
  else [HttpGet url].
Proof.
  unfold answeredLocally, skipped, checkLinkStatus.
  pose proof (checkLinkWithBrowser_io w url) as Hb.
  destruct (checkLinkWithBrowser w url) as [result io]. simpl in Hb. subst io.
  destruct (isTrackingPixel url); [reflexivity|]. simpl.
  destruct (Js.startsWith url "data:"); [reflexivity|]. simpl.
  destruct (Js.startsWith url "blob:"); [reflexivity|]. simpl.
  destruct (Js.startsWith url "mailto:"); [reflexivity|]. simpl.
  destruct (Js.startsWith url "tel:"); [reflexivity|]. simpl.
  destruct (Js.startsWith url "javascript:"); [reflexivity|]. simpl.
  destruct (Js.startsWith url "#"); [reflexivity|]. simpl.
  destruct (browser && isAffiliateLink url).
  - destruct (isCode (Info.status result) 403); reflexivity.
  - destruct (axiosGet w url); reflexivity.
Qed.

(** X6: the flags of an outcome. [skip] is set exactly for tracking pixels
    and inline content; [isAffiliate] and [checkedWithBrowser] exactly for the
    affiliate-class URLs verified with a browser handle; [treatAsWorking]
    exactly when, besides, the status is 403. Without a browser handle no
    outcome is flagged as affiliate or as working. *)
Theorem outcome_flags (w : World) (url : string) (browser : bool) :
  Info.skip (fst (checkLinkStatus w url browser)) = skipped url /\
  Info.isAffiliate (fst (checkLinkStatus w url browser)) = (browser && browserVerified url) /\
  Info.checkedWithBrowser (fst (checkLinkStatus w url browser)) =
    (browser && browserVerified url) /\
  Info.treatAsWorking (fst (checkLinkStatus w url browser)) =
    (browser && browserVerified url &&
     isCode (Info.status (fst (checkLinkStatus w url browser))) 403).
Proof.
  unfold skipped, browserVerified, checkLinkStatus, checkLinkWithBrowser.
  destruct (isTrackingPixel url); [destruct browser; repeat split|]. simpl.
  destruct (Js.startsWith url "data:"); [destruct browser; repeat split|]. simpl.
  destruct (Js.startsWith url "blob:"); [destruct browser; repeat split|]. simpl.
  destruct (Js.startsWith url "mailto:"); [destruct browser; repeat split|]. simpl.
  destruct (Js.startsWith url "tel:"); [destruct browser; repeat split|]. simpl.
  destruct (Js.startsWith url "javascript:"); [destruct browser; repeat split|]. simpl.
  destruct (Js.startsWith url "#"); [destruct browser; repeat split|]. simpl.
  destruct browser, (isAffiliateLink url); simpl.
  - destruct (browserGoto w url) as [status ? ? ?|?]; simpl; [|repeat split].
    destruct (status =? 403)%Z eqn:E; simpl; rewrite ?E; repeat split.
  - destruct (axiosGet w url) as [? ? ? ? ?|code response ?]; simpl; [repeat split|].
    repeat match goal with
           | |- context [if ?b then _ else _] => destruct b
           | |- context [match ?b with _ => _ end] => destruct b
           end; repeat split.
  - destruct (axiosGet w url) as [? ? ? ? ?|code response ?]; simpl; [repeat split|].
    repeat match goal with
           | |- context [if ?b then _ else _] => destruct b
           | |- context [match ?b with _ => _ end] => destruct b
           end; repeat split.
  - destruct (axiosGet w url) as [? ? ? ? ?|code response ?]; simpl; [repeat split|].
    repeat match goal with
           | |- context [if ?b then _ else _] => destruct b
           | |- context [match ?b with _ => _ end] => destruct b
           end; repeat split.
Qed.

(** X7: where the sentinel statuses come from, exactly. ['Invalid'] is the
    status of a [mailto:] URL that is not skipped and does not match the
    e-mail pattern, and of nothing else. ['DNS_ERROR'], ['TIMEOUT'] and
    ['CONNECTION_REFUSED'] are the status exactly when the HTTP GET is sent
    and fails with the matching error code, whether or not the error carries
    a response: the code is tested first. ['ERROR'] is the status exactly of a
    failed browser navigation, and of a failed HTTP GET with another code and
    no response; with another code and a response, the status is the
    response's. *)
Theorem sentinel_origin (w : World) (url : string) (browser : bool) :
  let status := Info.status (fst (checkLinkStatus w url browser)) in
  (status = Invalid <->
     skipped url = false /\ Js.startsWith url "mailto:" = true /\
     Re.test emailPattern url = false) /\
  (status = DNS_ERROR <->
     httpVerified url browser = true /\
     exists response message,
       axiosGet w url = AxiosFailure (Some "ENOTFOUND") response message) /\
  (status = TIMEOUT <->
     httpVerified url browser = true /\
     exists code response message,
       axiosGet w url = AxiosFailure (Some code) response message /\
       (code = "ETIMEDOUT" \/ code = "ECONNABORTED")) /\
  (status = CONNECTION_REFUSED <->
     httpVerified url browser = true /\
     exists response message,
       axiosGet w url = AxiosFailure (Some "ECONNREFUSED") response message) /\
  (status = ERROR <->
     (answeredLocally url = false /\ browser && isAffiliateLink url = true /\
      exists message, browserGoto w url = BrowserFailure message) \/
     (httpVerified url browser = true /\
      exists code message,
        axiosGet w url = AxiosFailure code None message /\ sentinelCode code = false)) /\
  (forall code answered statusText message,
     httpVerified url browser = true ->
     axiosGet w url = AxiosFailure code (Some (answered, statusText)) message ->
     sentinelCode code = false -> status = HTTP answered).
Proof.
  intros status. subst status.
  assert (Hcode : forall code,
            bool_decide (code = Some "ENOTFOUND") = false ->
            bool_decide (code = Some "ETIMEDOUT") = false ->
            bool_decide (code = Some "ECONNABORTED") = false ->
            bool_decide (code = Some "ECONNREFUSED") = false ->
            sentinelCode code = false).
  { intros code H1 H2 H3 H4. unfold sentinelCode. rewrite H1, H2, H3, H4. reflexivity. }
  unfold checkLinkStatus, checkLinkWithBrowser, httpVerified, answeredLocally, skipped.
  destruct (isTrackingPixel url); simpl; [VerifyMore.settle|].
  destruct (Js.startsWith url "data:"); simpl; [VerifyMore.settle|].
  destruct (Js.startsWith url "blob:"); simpl; [VerifyMore.settle|].
  destruct (Js.startsWith url "mailto:"); simpl.
  { destruct (Re.test emailPattern url); simpl; VerifyMore.settle. }
  destruct (Js.startsWith url "tel:"); simpl; [VerifyMore.settle|].
  destruct (Js.startsWith url "javascript:"); simpl; [VerifyMore.settle|].
  destruct (Js.startsWith url "#"); simpl; [VerifyMore.settle|].
  destruct (browser && isAffiliateLink url); simpl.
  { destruct (browserGoto w url) as [answered ? ? ?|message]; simpl.
    - destruct (answered =? 403)%Z; simpl; VerifyMore.settle.
    - VerifyMore.settle. }
  destruct (axiosGet w url) as [? ? ? ? ?|code response message]; simpl;
    [VerifyMore.settle|].
  destruct (bool_decide (code = Some "ENOTFOUND")) eqn:H1; simpl.
  { apply bool_decide_eq_true in H1. subst code. VerifyMore.settle. }
  destruct (bool_decide (code = Some "ETIMEDOUT")) eqn:H2; simpl.
  { apply bool_decide_eq_true in H2. subst code. VerifyMore.settle. }
  destruct (bool_decide (code = Some "ECONNABORTED")) eqn:H3; simpl.
  { apply bool_decide_eq_true in H3. subst code. VerifyMore.settle. }
  destruct (bool_decide (code = Some "ECONNREFUSED")) eqn:H4; simpl.
  { apply bool_decide_eq_true in H4. subst code. VerifyMore.settle. }
  specialize (Hcode code H1 H2 H3 H4).
  apply bool_decide_eq_false in H1, H2, H3, H4.
  destruct response as [[answered statusText]|]; simpl; VerifyMore.settle.
Qed.

(** ** The events and the issues of a scan *)

Module ScanMore.

(** The events of one iteration, in order. *)
Lemma checkOne_events (w : World) (app : gmap string nat) (n : nat) (l : Link.t) :
  snd (checkOne w app n l) =
  Verify (Link.url l) :: snd (checkLinkStatus w (Link.url l) true) ++
  (if Info.skip (outcome w (Link.url l)) then []
   else (if needsAnalysis (outcome w (Link.url l)) l then [Analyze (Link.url l)] else []) ++
        (if pushes w l && shouldTakeScreenshot (outcome w (Link.url l))
         then [Capture (Link.pageUrl l) (Link.text l) (Link.url l)] else [])).
Proof.
  unfold pushes, analysisOf, outcome, checkOne.
  destruct (checkLinkStatus w (Link.url l) true) as [info io]. simpl.
  destruct (Info.skip info); simpl; [rewrite app_nil_r; reflexivity|].
  destruct (isCode (Info.status info) 403 && Info.isAffiliate info); simpl;
    [rewrite app_nil_r; reflexivity|].
  destruct (isCode (Info.status info) 304); simpl; [rewrite app_nil_r; reflexivity|].
  match goal with |- context [if ?b then (Some _, _) else _] => destruct b end; simpl.
  - rewrite <- app_assoc. reflexivity.
  - rewrite app_nil_r. reflexivity.
Qed.

Lemma checkOne_event_url (w : World) (app : gmap string nat) (n : nat) (l : Link.t) (e : Event) :
  e ∈ snd (checkOne w app n l) -> eventUrl e = Link.url l.
Proof.
  rewrite checkOne_events, verification_requests.
  intros He. apply elem_of_cons in He as [->|He]; [reflexivity|].
  apply elem_of_app in He as [He|He].
  - destruct (answeredLocally _); [inversion He|].
    destruct (true && _); apply list_elem_of_singleton in He; subst e; reflexivity.
  - destruct (Info.skip _); [inversion He|].
    apply elem_of_app in He as [He|He].
    + destruct (needsAnalysis _ _); [|inversion He].
      apply list_elem_of_singleton in He. subst e. reflexivity.
    + destruct (_ && _); [|inversion He].
      apply list_elem_of_singleton in He. subst e. reflexivity.
Qed.

Lemma scan_events_elem (w : World) (domain : string) (r : Report) (e : Event) :
  scan w domain = Some r ->
  e ∈ events r <->
  exists l, l ∈ uniqueLinks (scannedLinks w domain) /\
            e ∈ snd (checkOne w (linkAppearances (scannedLinks w domain)) 0 l).
Proof.
  intros Hr. destruct (scan_some _ _ _ Hr) as (_ & -> & _).
  unfold scanLinks. rewrite checkAll_events. simpl.
  generalize (uniqueLinks (scannedLinks w domain)). intros todo.
  induction todo as [|l todo IH]; simpl.
  - split; [intros H; inversion H | intros (l & H & _); inversion H].
  - rewrite elem_of_app, IH. split.
    + intros [H | (l' & Hl' & H)]; [exists l; split; [left | exact H]|].
      exists l'. split; [right|]; auto.
    + intros (l' & Hl' & H). apply elem_of_cons in Hl' as [->|Hl']; [left; exact H|].
      right. eauto.
Qed.

(** The entry of [uniqueLinks] for a URL is the first reference carrying it. *)
Lemma uniqueLinks_first (links : list Link.t) (l : Link.t) :
  l ∈ uniqueLinks links <-> findByUrl links (Link.url l) = Some l.
Proof.
  split; [apply uniqueLinks_elem|]. intros Hl.
  unfold uniqueLinks. apply list_elem_of_omap. exists (Link.url l). split; [|exact Hl].
  apply setFromList_elem.
  destruct (findByUrl_first _ _ _ Hl) as (b & a & -> & _).
  rewrite map_app. apply elem_of_app. right. left.
Qed.

Lemma scan_issue_from (w : World) (domain : string) (r : Report) (i : Issue.t) :
  SortConforms w -> scan w domain = Some r -> i ∈ results r ->
  exists l n,
    findByUrl (scannedLinks w domain) (Link.url l) = Some l /\
    fst (checkOne w (linkAppearances (scannedLinks w domain)) n l) = Some i /\
    Issue.linkUrl i = Link.url l /\ pushes w l = true.
Proof.
  intros Hsort Hr Hi. apply (scan_results w domain r i Hsort Hr) in Hi.
  destruct (scanLinks_from _ _ _ Hi) as (l & n & Hl & Hn).
  exists l, n. repeat split; auto.
  - apply (checkOne_some _ _ _ _ _ Hn).
  - eapply checkOne_pushes. eauto.
Qed.

Lemma referencesTo_pos (links : list Link.t) (l : Link.t) :
  findByUrl links (Link.url l) = Some l -> 1 <= Spec.referencesTo links (Link.url l).
Proof.
  intros Hl. destruct (findByUrl_first _ _ _ Hl) as (b & a & -> & Hu & _).
  unfold Spec.referencesTo. rewrite List.filter_app, length_app. simpl.
  rewrite bool_decide_eq_true_2 by reflexivity. simpl. lia.
Qed.

Lemma fallback_is_level (status : Status) : isLevel (determinePriorityFromStatus status) = true.
Proof.
  unfold determinePriorityFromStatus.
  repeat match goal with |- context [if ?b then _ else _] => destruct b end; reflexivity.
Qed.

End ScanMore.

(** X8: a URL that is a tracking pixel or inline content ([data:], [blob:]) is
    answered 200 with the skip flag and without any request, and a scan does
    nothing more about it than call the verifier: it has no issue, no
    analysis and no screenshot. *)
Theorem skipped_urls_are_silent (w : World) (domain : string) (r : Report) (url : string) :
  SortConforms w -> scan w domain = Some r -> skipped url = true ->
  Info.status (outcome w url) = HTTP 200 /\ Info.skip (outcome w url) = true /\
  (forall i, i ∈ results r -> Issue.linkUrl i <> url) /\
  (forall e, e ∈ events r -> eventUrl e = url -> e = Verify url).
Proof.
  intros Hsort Hr Hs.
  destruct (VerifyMore.skipped_outcome w url true Hs) as (Hio & Hst & Hsk & _).
  split; [exact Hst|]. split; [exact Hsk|]. split.
  - intros i Hi Hu.
    destruct (ScanMore.scan_issue_from w domain r i Hsort Hr Hi) as (l & n & _ & _ & Hl & Hp).
    unfold pushes in Hp. rewrite <- Hl, Hu in Hp. fold (outcome w url) in Hsk.
    rewrite Hsk in Hp. discriminate.
  - intros e He Hu. apply (ScanMore.scan_events_elem w domain r e Hr) in He as (l & _ & He).
    pose proof (ScanMore.checkOne_event_url _ _ _ _ _ He) as Hl. rewrite Hu in Hl.
    rewrite ScanMore.checkOne_events in He. rewrite <- Hl in He.
    fold (outcome w url) in Hsk. rewrite Hsk in He. unfold outcome in Hio.
    rewrite Hio in He. simpl in He. apply list_elem_of_singleton in He. exact He.
Qed.

Lemma skipped_urls_are_silent_witness :
  Info.status (outcome Example.site Example.pixelMail) = HTTP 200 /\
  Info.skip (outcome Example.site Example.pixelMail) = true /\
  (forall i, i ∈ results Run.siteReport -> Issue.linkUrl i <> Example.pixelMail) /\
  (forall e, e ∈ events Run.siteReport -> eventUrl e = Example.pixelMail ->
     e = Verify Example.pixelMail).
Proof.
  apply (skipped_urls_are_silent Example.site Example.root Run.siteReport Example.pixelMail
           site_sort_conforms site_scan).
  reflexivity.
Defined.

(** X9: the reporting rule of a scan. A URL has an issue in the report
    exactly when the first reference that carries it is not skipped, is not an
    affiliate 403, is not a 304, and either its status is an actual issue or
    the analysis flags it. *)
Theorem reported_iff (w : World) (domain : string) (r : Report) (url : string) :
  SortConforms w -> scan w domain = Some r ->
  (exists i, i ∈ results r /\ Issue.linkUrl i = url) <->
  (exists l, findByUrl (scannedLinks w domain) url = Some l /\ pushes w l = true).
Proof.
  intros Hsort Hr. split.
  - intros (i & Hi & Hu).
    destruct (ScanMore.scan_issue_from w domain r i Hsort Hr Hi) as (l & n & Hl & _ & Hil & Hp).
    exists l. rewrite <- Hu, Hil. auto.
  - intros (l & Hl & Hp).
    destruct (findByUrl_first _ _ _ Hl) as (_ & _ & _ & Hu & _).
    assert (Hl' : findByUrl (scannedLinks w domain) (Link.url l) = Some l) by (rewrite Hu; auto).
    destruct (scanLinks_to w _ l Hl' Hp) as (i & n & Hi & Hn).
    exists i. split; [apply (scan_results w domain r i Hsort Hr); exact Hi|].
    destruct (checkOne_some _ _ _ _ _ Hn) as (-> & _). exact Hu.
Qed.

Lemma reported_iff_witness :
  (exists i, i ∈ results Run.siteReport /\ Issue.linkUrl i = Example.banner) <->
  (exists l, findByUrl (scannedLinks Example.site Example.root) Example.banner = Some l /\
             pushes Example.site l = true).
Proof.
  exact (reported_iff Example.site Example.root Run.siteReport Example.banner
           site_sort_conforms site_scan).
Defined.

(** X10: what the report never holds. No issue has the status 304, none
    belongs to a skipped URL or to an outcome flagged as working; and an issue
    whose status is a success or a 3xx is one that the analysis answered with
    an issue type other than "No Issue". *)
Theorem reported_success_was_flagged (w : World) (domain : string) (r : Report) (i : Issue.t) :
  SortConforms w -> scan w domain = Some r -> i ∈ results r ->
  Issue.status i <> HTTP 304 /\
  skipped (Issue.linkUrl i) = false /\
  Info.treatAsWorking (outcome w (Issue.linkUrl i)) = false /\
  (isSuccessStatus (Issue.status i) = true \/
   geCode (Issue.status i) 300 && ltCode (Issue.status i) 400 = true ->
   exists l a,
     findByUrl (scannedLinks w domain) (Issue.linkUrl i) = Some l /\
     analysisOf w l = Some a /\ Ai.issueType a <> "No Issue").
Proof.
  intros Hsort Hr Hi.
  destruct (ScanMore.scan_issue_from w domain r i Hsort Hr Hi) as (l & n & Hl & Hn & Hu & Hp).
  destruct (checkOne_some _ _ _ _ _ Hn) as (_ & _ & _ & _ & _ & _ & Hs & _).
  rewrite Hu, Hs. unfold pushes in Hp.
  apply andb_true_iff in Hp as [Hp Hflag]. apply andb_true_iff in Hp as [Hp H304].
  apply andb_true_iff in Hp as [Hskip H403].
  apply negb_true_iff in Hskip, H403, H304.
  destruct (outcome_flags w (Link.url l) true) as (Fs & Fa & _ & Ft).
  fold (outcome w (Link.url l)) in Fs, Fa, Ft.
  split; [|split; [|split]].
  - intros E. rewrite E in H304. discriminate.
  - rewrite <- Fs. exact Hskip.
  - rewrite Ft. rewrite Fa in H403. simpl in *. rewrite andb_comm. exact H403.
  - intros Hok.
    assert (Hact : isActualIssue (outcome w (Link.url l)) = false).
    { unfold isActualIssue. destruct Hok as [-> | H3]; [reflexivity|].
      assert (Hn' : isNumber (Info.status (outcome w (Link.url l))) = true).
      { destruct (Info.status (outcome w (Link.url l))); [reflexivity | discriminate..]. }
      rewrite Hn'. simpl. rewrite H3. simpl. rewrite !andb_false_r. reflexivity. }
    rewrite Hact in Hflag. simpl in Hflag. unfold aiFlags in Hflag.
    destruct (analysisOf w l) as [a|] eqn:Ha; [|discriminate].
    exists l, a. repeat split; auto.
    apply negb_true_iff, bool_decide_eq_false in Hflag. exact Hflag.
Qed.

Lemma shop_sort_conforms : SortConforms Shop.world.
Proof. intros cmp l. apply sortBy_perm. Qed.

Lemma shop_scan : scan Shop.world Shop.root = Some Shop.report.
Proof. vm_compute. reflexivity. Qed.

Lemma shop_issue_1 : Shop.issue 1 ∈ results Shop.report.
Proof. right. left. Qed.

Lemma reported_success_was_flagged_witness :
  Issue.status (Shop.issue 1) = HTTP 200 /\
  Issue.status (Shop.issue 1) <> HTTP 304 /\
  skipped (Issue.linkUrl (Shop.issue 1)) = false /\
  Info.treatAsWorking (outcome Shop.world (Issue.linkUrl (Shop.issue 1))) = false /\
  exists l a,
    findByUrl (scannedLinks Shop.world Shop.root) (Issue.linkUrl (Shop.issue 1)) = Some l /\
    analysisOf Shop.world l = Some a /\ Ai.issueType a <> "No Issue".
Proof.
  destruct (reported_success_was_flagged Shop.world Shop.root Shop.report (Shop.issue 1)
              shop_sort_conforms shop_scan shop_issue_1) as (H1 & H2 & H3 & H4).
  split; [reflexivity|]. split; [exact H1|]. split; [exact H2|]. split; [exact H3|].
  apply H4. left. reflexivity.
Defined.

(** X11: a link answered 200 without a redirect, whose first reference has a
    context that mentions neither "cta" nor "button", is never sent to the
    analysis and never reported. *)
Theorem clean_link_is_silent (w : World) (domain : string) (r : Report) (l : Link.t) :
  SortConforms w -> scan w domain = Some r ->
  findByUrl (scannedLinks w domain) (Link.url l) = Some l ->
  Info.status (outcome w (Link.url l)) = HTTP 200 ->
  hasRedirects (outcome w (Link.url l)) = false ->
  Spec.mentions (Link.context l) "cta" || Spec.mentions (Link.context l) "button" = false ->
  (forall i, i ∈ results r -> Issue.linkUrl i <> Link.url l) /\
  (Analyze (Link.url l) ∉ events r) /\
  (Link.url l ∉ captures (events r)).
Proof.
  intros Hsort Hr Hl Hst Hred Hctx.
  assert (Hneeds : needsAnalysis (outcome w (Link.url l)) l = false).
  { unfold needsAnalysis. rewrite Hst, Hred. simpl.
    unfold Spec.mentions in Hctx. exact Hctx. }
  assert (Hpush : pushes w l = false).
  { unfold pushes, analysisOf, isActualIssue. rewrite Hneeds, Hst. simpl.
    rewrite !andb_false_r. reflexivity. }
  assert (Hsame : forall l', l' ∈ uniqueLinks (scannedLinks w domain) ->
                    Link.url l' = Link.url l -> l' = l).
  { intros l' Hl' Hu. apply uniqueLinks_elem in Hl'. rewrite Hu in Hl'. congruence. }
  split; [|split].
  - intros i Hi Hu.
    destruct (ScanMore.scan_issue_from w domain r i Hsort Hr Hi) as (l' & n & Hl' & _ & Hil & Hp).
    rewrite Hu in Hil. rewrite <- Hil in Hl'. rewrite Hl in Hl'. injection Hl' as <-.
    congruence.
  - intros He. apply (ScanMore.scan_events_elem w domain r _ Hr) in He as (l' & Hl' & He).
    pose proof (ScanMore.checkOne_event_url _ _ _ _ _ He) as Hu. simpl in Hu.
    rewrite (Hsame l' Hl' (eq_sym Hu)) in He.
    rewrite ScanMore.checkOne_events, verification_requests, Hneeds, Hpush in He.
    apply elem_of_cons in He as [He|He]; [discriminate|].
    apply elem_of_app in He as [He|He].
    + destruct (answeredLocally _); [inversion He|].
      destruct (true && _); apply list_elem_of_singleton in He; discriminate.
    + destruct (Info.skip _); simpl in He; inversion He.
  - destruct (scan_some _ _ _ Hr) as (_ & -> & _). unfold scanLinks.
    rewrite checkAll_captures. intros (l' & Hl' & Hu & Hp & _).
    rewrite (Hsame l' Hl' Hu) in Hp. congruence.
Qed.

Lemma clean_link_is_silent_witness :
  (forall i, i ∈ results Shop.report -> Issue.linkUrl i <> Shop.plain) /\
  (Analyze Shop.plain ∉ events Shop.report) /\
  (Shop.plain ∉ captures (events Shop.report)).
Proof.
  apply (clean_link_is_silent Shop.world Shop.root Shop.report
           (Link.mk Shop.plain "Terms" "footer" link Shop.root)
           shop_sort_conforms shop_scan); reflexivity.
Defined.

(** X12: the priority of an issue is one of Critical, High, Medium and Low,
    the fallback for its status, unless it is the non-empty priority the
    analysis answered for the issue's link, which is reported whatever it
    is. *)
Theorem issue_priority_sources (w : World) (domain : string) (r : Report) (i : Issue.t) :
  SortConforms w -> scan w domain = Some r -> i ∈ results r ->
  (Issue.priority i = determinePriorityFromStatus (Issue.status i) /\
   isLevel (Issue.priority i) = true) \/
  (exists l a,
     findByUrl (scannedLinks w domain) (Issue.linkUrl i) = Some l /\
     analysisOf w l = Some a /\ Ai.priority a <> "" /\ Issue.priority i = Ai.priority a).
Proof.
  intros Hsort Hr Hi.
  destruct (ScanMore.scan_issue_from w domain r i Hsort Hr Hi) as (l & n & Hl & Hn & Hu & _).
  destruct (checkOne_some _ _ _ _ _ Hn) as (_ & _ & _ & _ & _ & _ & Hs & Hp & _).
  rewrite Hu, Hp, Hs.
  destruct (analysisOf w l) as [a|] eqn:Ha; simpl.
  - destruct (Ai.priority a) as [|c p] eqn:Hpa; simpl.
    + left. split; [reflexivity | apply ScanMore.fallback_is_level].
    + right. exists l, a. rewrite Hpa. repeat split; auto; discriminate.
  - left. split; [reflexivity | apply ScanMore.fallback_is_level].
Qed.

Lemma issue_priority_sources_witness :
  (Issue.priority (Shop.issue 1) = determinePriorityFromStatus (Issue.status (Shop.issue 1)) /\
   isLevel (Issue.priority (Shop.issue 1)) = true) \/
  (exists l a,
     findByUrl (scannedLinks Shop.world Shop.root) (Issue.linkUrl (Shop.issue 1)) = Some l /\
     analysisOf Shop.world l = Some a /\ Ai.priority a <> "" /\
     Issue.priority (Shop.issue 1) = Ai.priority a).
Proof.
  exact (issue_priority_sources Shop.world Shop.root Shop.report (Shop.issue 1)
           shop_sort_conforms shop_scan shop_issue_1).
Defined.

Lemma impact_score_bounds (status : Status) (context : string) (n : nat) :
  1 <= n -> (55 <= calculateImpactScore status context n <= 100)%Z.
Proof.
  intros Hn. unfold calculateImpactScore, rawImpactScore.
  set (cta := Js.includes (Js.toLowerCase context) "cta" ||
              Js.includes (Js.toLowerCase context) "button").
  set (hero := Js.includes (Js.toLowerCase context) "hero" ||
               Js.includes (Js.toLowerCase context) "header").
  set (nav := Js.includes (Js.toLowerCase context) "navigation").
  destruct (isCode status 404), (geCode status 500), (isCode status 403),
    (geCode status 300 && ltCode status 400), cta, hero, nav; lia.
Qed.

(** X13: every issue of a report counts at least one appearance, and its
    impact score is the score computed from its own status, context and
    count; it lies between 55 and 100. *)
Theorem issue_score_and_count (w : World) (domain : string) (r : Report) (i : Issue.t) :
  SortConforms w -> scan w domain = Some r -> i ∈ results r ->
  1 <= Issue.appearancesCount i /\
  Issue.impactScore i =
    calculateImpactScore (Issue.status i) (Issue.context i) (Issue.appearancesCount i) /\
  (55 <= Issue.impactScore i <= 100)%Z.
Proof.
  intros Hsort Hr Hi.
  destruct (ScanMore.scan_issue_from w domain r i Hsort Hr Hi) as (l & n & Hl & Hn & Hu & _).
  destruct (checkOne_some _ _ _ _ _ Hn) as (_ & _ & _ & _ & Hc & Ha & Hs & _ & _ & Hi').
  rewrite linkAppearances_count in Ha, Hi'.
  pose proof (ScanMore.referencesTo_pos _ _ Hl) as Hpos.
  rewrite Hi', Ha, Hs, Hc. split; [exact Hpos|]. split; [reflexivity|].
  destruct (impact_score_bounds (Info.status (outcome w (Link.url l))) (Link.context l)
              (Spec.referencesTo (scannedLinks w domain) (Link.url l)) Hpos). lia.
Qed.

Lemma issue_score_and_count_witness :
  1 <= Issue.appearancesCount (Shop.issue 1) /\
  Issue.impactScore (Shop.issue 1) =
    calculateImpactScore (Issue.status (Shop.issue 1)) (Issue.context (Shop.issue 1))
      (Issue.appearancesCount (Shop.issue 1)) /\
  (55 <= Issue.impactScore (Shop.issue 1) <= 100)%Z.
Proof.
  exact (issue_score_and_count Shop.world Shop.root Shop.report (Shop.issue 1)
           shop_sort_conforms shop_scan shop_issue_1).
Defined.

(** ** The numbers of a report *)

Module StatsMore.

Lemma setFromList_length (xs : list string) : length (setFromList xs) <= length xs.
Proof.
  apply submseteq_length, NoDup_submseteq; [apply setFromList_NoDup|].
  intros x. apply setFromList_elem.
Qed.

Lemma uniqueLinks_length (links : list Link.t) : length (uniqueLinks links) <= length links.
Proof.
  rewrite <- (length_map Link.url (uniqueLinks links)), uniqueLinks_urls.
  etransitivity; [apply setFromList_length|]. rewrite length_map. reflexivity.
Qed.

Lemma scanLinks_length (w : World) (links : list Link.t) :
  length (fst (scanLinks w links)) <= length (uniqueLinks links).
Proof.
  unfold scanLinks.
  destruct (checkAll_spec w (linkAppearances links) (uniqueLinks links) ([], []))
    as (ks & -> & Hsub & _). simpl.
  apply sublist_length in Hsub. rewrite !length_map in Hsub. exact Hsub.
Qed.

Lemma two_filters (p q : string) (l : list Issue.t) :
  p <> q -> countPriority p l + countPriority q l <= length l.
Proof.
  intros Hpq. unfold countPriority. induction l as [|x l IH]; simpl; [lia|].
  destruct (bool_decide (Issue.priority x = p)) eqn:Hp,
           (bool_decide (Issue.priority x = q)) eqn:Hq; simpl; try lia.
  apply bool_decide_eq_true in Hp, Hq. congruence.
Qed.

Lemma checkOne_id_value (w : World) (app : gmap string nat) (n : nat) (l : Link.t) (i : Issue.t) :
  fst (checkOne w app n l) = Some i -> Issue.id i = n + 1.
Proof.
  destruct (checkOne_id w app n l) as [-> _].
  destruct (fst (checkOne w app 0 l)); simpl; [intros [= <-]; reflexivity | discriminate].
Qed.

Lemma checkAll_ids (w : World) (app : gmap string nat) (todo : list Link.t)
    (acc : list Issue.t * list Event) :
  map Issue.id (fst acc) = seq 1 (length (fst acc)) ->
  map Issue.id (fst (checkAll w app todo acc)) = seq 1 (length (fst (checkAll w app todo acc))).
Proof.
  revert acc. induction todo as [|l todo IH]; intros acc Hacc; simpl; [exact Hacc|].
  destruct (checkOne w app (length (fst acc)) l) as [pushed io] eqn:E.
  apply IH. simpl. destruct pushed as [i|]; simpl; [|rewrite app_nil_r; exact Hacc].
  rewrite map_app, length_app, seq_app, Hacc. simpl. do 2 f_equal.
  assert (Hi : fst (checkOne w app (length (fst acc)) l) = Some i) by (rewrite E; auto).
  rewrite (checkOne_id_value _ _ _ _ _ Hi). lia.
Qed.

Lemma scan_stats (w : World) (domain : string) (r : Report) :
  scan w domain = Some r ->
  exists pages0 links,
    crawlWebsite w domain 50 = Some (pages0, links) /\
    pages r = pages0 /\
    totalPages (stats r) = length pages0 /\
    totalLinks (stats r) = length links /\
    brokenLinks (stats r) = length (fst (scanLinks w links)) /\
    criticalIssues (stats r) = countPriority "Critical" (fst (scanLinks w links)) /\
    highIssues (stats r) = countPriority "High" (fst (scanLinks w links)) /\
    results r = arraySort w comparePriority (fst (scanLinks w links)).
Proof.
  unfold scan. destruct (crawlWebsite w domain 50) as [[pages0 links]|]; [|discriminate].
  destruct (scanLinks w links) as [results0 io] eqn:E. intros [= <-]. simpl.
  exists pages0, links. rewrite ?E. simpl. repeat split; reflexivity.
Qed.

End StatsMore.

(** X14: the numbers of a report. [totalPages] is the number of returned
    pages and is at most 50; [brokenLinks] is the number of issues, which is
    at most the number of distinct URLs and so at most [totalLinks]; the
    critical and the high issues together are at most [brokenLinks]. *)
Theorem report_statistics (w : World) (domain : string) (r : Report) :
  SortConforms w -> scan w domain = Some r ->
  totalPages (stats r) = length (pages r) /\ totalPages (stats r) <= 50 /\
  brokenLinks (stats r) = length (results r) /\
  brokenLinks (stats r) <= length (uniqueLinks (scannedLinks w domain)) /\
  length (uniqueLinks (scannedLinks w domain)) <= totalLinks (stats r) /\
  criticalIssues (stats r) + highIssues (stats r) <= brokenLinks (stats r).
Proof.
  intros Hsort Hr.
  destruct (StatsMore.scan_stats _ _ _ Hr)
    as (pages0 & links & Hc & Hp & Htp & Htl & Hbl & Hci & Hhi & Hres).
  assert (Hsl : scannedLinks w domain = links) by (unfold scannedLinks; rewrite Hc; reflexivity).
  rewrite Hsl, Htp, Htl, Hbl, Hci, Hhi, Hp, Hres. repeat split.
  - destruct (CrawlMore.crawlWebsite_final _ _ _ _ _ Hc) as (b & final & _ & Hreach & _ & -> & _).
    apply (inv_bound _ _ _ _ _ (CrawlFacts.reachable_inv _ _ _ _ _ Hreach)).
  - rewrite (Permutation_length (Hsort comparePriority _)). reflexivity.
  - apply StatsMore.scanLinks_length.
  - apply StatsMore.uniqueLinks_length.
  - apply StatsMore.two_filters. discriminate.
Qed.

Lemma report_statistics_witness :
  totalPages (stats Shop.report) = length (pages Shop.report) /\
  totalPages (stats Shop.report) <= 50 /\
  brokenLinks (stats Shop.report) = length (results Shop.report) /\
  brokenLinks (stats Shop.report) <= length (uniqueLinks (scannedLinks Shop.world Shop.root)) /\
  length (uniqueLinks (scannedLinks Shop.world Shop.root)) <= totalLinks (stats Shop.report) /\
  criticalIssues (stats Shop.report) + highIssues (stats Shop.report)
    <= brokenLinks (stats Shop.report).
Proof.
  exact (report_statistics Shop.world Shop.root Shop.report shop_sort_conforms shop_scan).
Defined.

(** X15: the issues are numbered 1, 2, ... in the order they are pushed, so
    the identifiers of a report are the numbers from 1 to the number of
    issues, each once, in whatever order the sort leaves them. *)
Theorem issue_ids (w : World) (domain : string) (r : Report) :
  SortConforms w -> scan w domain = Some r ->
  map Issue.id (fst (scanLinks w (scannedLinks w domain))) = seq 1 (length (results r)) /\
  map Issue.id (results r) ≡ₚ seq 1 (length (results r)) /\
  NoDup (map Issue.id (results r)).
Proof.
  intros Hsort Hr. destruct (scan_some _ _ _ Hr) as (Hres & _).
  assert (Hlen : length (results r) = length (fst (scanLinks w (scannedLinks w domain)))).
  { rewrite Hres. apply Permutation_length, Hsort. }
  assert (Hids : map Issue.id (fst (scanLinks w (scannedLinks w domain))) =
                 seq 1 (length (results r))).
  { rewrite Hlen. unfold scanLinks. apply StatsMore.checkAll_ids. reflexivity. }
  assert (Hperm : map Issue.id (results r) ≡ₚ seq 1 (length (results r))).
  { rewrite <- Hids, Hres. apply Permutation_map, Hsort. }
  repeat split; auto. rewrite Hperm. apply NoDup_ListNoDup, seq_NoDup.
Qed.

Lemma issue_ids_witness :
  map Issue.id (fst (scanLinks Shop.world (scannedLinks Shop.world Shop.root))) =
    seq 1 (length (results Shop.report)) /\
  map Issue.id (results Shop.report) ≡ₚ seq 1 (length (results Shop.report)) /\
  NoDup (map Issue.id (results Shop.report)).
Proof.
  exact (issue_ids Shop.world Shop.root Shop.report shop_sort_conforms shop_scan).
Defined.

(** ** Screenshots of a scan *)

Module ShotMore.

Lemma checkOne_screenshot (w : World) (app : gmap string nat) (n : nat) (l : Link.t)
    (i : Issue.t) :
  fst (checkOne w app n l) = Some i ->
  Issue.screenshot i =
    if shouldTakeScreenshot (outcome w (Link.url l))
    then takeErrorScreenshot w (Link.pageUrl l) (Link.text l) (Link.url l)
    else None.
Proof.
  unfold checkOne, outcome.
  destruct (checkLinkStatus w (Link.url l) true) as [info io]. simpl.
  repeat match goal with |- context [if ?b then _ else _] => destruct b eqn:? end;
    simpl; intros [= <-]; reflexivity.
Qed.

Lemma checkAll_captures_sublist (w : World) (app : gmap string nat) (todo : list Link.t) :
  captures (snd (checkAll w app todo ([], []))) `sublist_of` map Link.url todo.
Proof.
  rewrite checkAll_events. simpl.
  induction todo as [|l todo IH]; simpl; [constructor|].
  rewrite captures_app, checkOne_captures.
  destruct (pushes w l && shouldTakeScreenshot (outcome w (Link.url l))); simpl.
  - apply sublist_skip, IH.
  - apply sublist_cons, IH.
Qed.

End ShotMore.

(** X16: the screenshots of a scan. A screenshot is attempted exactly for the
    URLs that have an issue in the report and whose status is 404, 500, a
    connection error, a DNS error or a timeout (the outcome not being flagged
    as working), once for each; and the screenshot an issue carries is what
    that attempt returned, taken on the page of the issue, or nothing when
    none was attempted. *)
Theorem screenshot_attempts (w : World) (domain : string) (r : Report) :
  SortConforms w -> scan w domain = Some r ->
  NoDup (captures (events r)) /\
  (forall url, url ∈ captures (events r) <->
     exists i, i ∈ results r /\ Issue.linkUrl i = url /\
               shouldTakeScreenshot (outcome w url) = true) /\
  (forall i, i ∈ results r ->
     Issue.screenshot i =
       if shouldTakeScreenshot (outcome w (Issue.linkUrl i))
       then takeErrorScreenshot w (Issue.pageUrl i) (Issue.linkText i) (Issue.linkUrl i)
       else None).
Proof.
  intros Hsort Hr. destruct (scan_some _ _ _ Hr) as (_ & Hev & _).
  split; [|split].
  - rewrite Hev. unfold scanLinks.
    apply (sublist_NoDup _ (map Link.url (uniqueLinks (scannedLinks w domain))));
      [apply uniqueLinks_NoDup | apply ShotMore.checkAll_captures_sublist].
  - intros url. rewrite Hev. unfold scanLinks. rewrite checkAll_captures. split.
    + intros (l & Hl & Hu & Hp & Hs).
      destruct (scanLinks_to w _ l (uniqueLinks_elem _ _ Hl) Hp) as (i & n & Hi & Hn).
      destruct (checkOne_some _ _ _ _ _ Hn) as (Hiu & _).
      exists i. split; [apply (scan_results w domain r i Hsort Hr); exact Hi|].
      split; [congruence | exact Hs].
    + intros (i & Hi & Hu & Hs).
      destruct (ScanMore.scan_issue_from w domain r i Hsort Hr Hi) as (l & n & Hl & _ & Hil & Hp).
      exists l. split; [apply ScanMore.uniqueLinks_first; exact Hl|].
      split; [congruence|]. split; [exact Hp | exact Hs].
  - intros i Hi.
    destruct (ScanMore.scan_issue_from w domain r i Hsort Hr Hi) as (l & n & _ & Hn & _).
    destruct (checkOne_some _ _ _ _ _ Hn) as (-> & -> & -> & _).
    apply (ShotMore.checkOne_screenshot _ _ _ _ _ Hn).
Qed.

Lemma screenshot_attempts_witness :
  NoDup (captures (events Shop.report)) /\
  (forall url, url ∈ captures (events Shop.report) <->
     exists i, i ∈ results Shop.report /\ Issue.linkUrl i = url /\
               shouldTakeScreenshot (outcome Shop.world url) = true) /\
  (forall i, i ∈ results Shop.report ->
     Issue.screenshot i =
       if shouldTakeScreenshot (outcome Shop.world (Issue.linkUrl i))
       then takeErrorScreenshot Shop.world (Issue.pageUrl i) (Issue.linkText i) (Issue.linkUrl i)
       else None).
Proof.
  exact (screenshot_attempts Shop.world Shop.root Shop.report shop_sort_conforms shop_scan).
Defined.

(** ** Distinct URLs and their counts *)

Module SetMore.

Lemma filter_twice (f p q : string -> bool) (l : list string) :
  (forall y, f y = p y && q y) -> List.filter f l = List.filter p (List.filter q l).
Proof.
  intros H. induction l as [|y l IH]; simpl; [reflexivity|].
  rewrite H. destruct (q y); simpl.
  - destruct (p y); simpl; rewrite IH; reflexivity.
  - rewrite andb_false_r. exact IH.
Qed.

Lemma fold_setAdd_acc (xs acc : list string) :
  fold_left (fun s x => Crawl.setAdd x s) xs acc =
  acc ++ List.filter (fun y => negb (bool_decide (y ∈ acc)))
           (fold_left (fun s x => Crawl.setAdd x s) xs []).
Proof.
  revert acc. induction xs as [|x xs IH]; intros acc; simpl; [rewrite app_nil_r; reflexivity|].
  assert (Hone : Crawl.setAdd x [] = [x]).
  { unfold Crawl.setAdd. rewrite bool_decide_eq_false_2; [reflexivity|]. intros H. inversion H. }
  rewrite Hone, (IH [x]), (IH (Crawl.setAdd x acc)). unfold Crawl.setAdd.
  case_bool_decide as Hx; simpl.
  - rewrite bool_decide_eq_true_2 by exact Hx. simpl. f_equal.
    apply filter_twice. intros y.
    destruct (bool_decide (y ∈ acc)) eqn:Hy; simpl; [reflexivity|].
    apply bool_decide_eq_false in Hy. symmetry. apply negb_true_iff, bool_decide_eq_false.
    intros Hin. apply list_elem_of_singleton in Hin. subst y. contradiction.
  - rewrite bool_decide_eq_false_2 by exact Hx. simpl. rewrite <- app_assoc. simpl.
    do 2 f_equal. apply filter_twice. intros y.
    destruct (decide (y = x)) as [->|Hyx].
    + rewrite (bool_decide_eq_true_2 (x ∈ acc ++ [x])) by (apply elem_of_app; right; left).
      rewrite (bool_decide_eq_true_2 (x ∈ [x])) by left. simpl. rewrite andb_false_r. reflexivity.
    + rewrite (bool_decide_eq_false_2 (y ∈ [x]))
        by (intros Hin; apply list_elem_of_singleton in Hin; contradiction).
      simpl. rewrite andb_true_r. f_equal. apply bool_decide_ext.
      rewrite elem_of_app, list_elem_of_singleton. tauto.
Qed.

End SetMore.

(** X17: [uniqueLinks] keeps, for every distinct URL, its first reference, in
    the order in which the URLs first occur: the distinct URLs of [x :: xs]
    are [x] followed by the distinct URLs of [xs] without [x]; [find] always
    finds, so no entry is missing, every entry is a reference of the list, and
    every reference has the entry of its URL. *)
Theorem unique_links_first_occurrences (links : list Link.t) :
  map Link.url (uniqueLinks links) = setFromList (map Link.url links) /\
  (forall x xs, setFromList (x :: xs) =
                x :: List.filter (fun y => negb (bool_decide (y = x))) (setFromList xs)) /\
  NoDup (map Link.url (uniqueLinks links)) /\
  (forall l, l ∈ uniqueLinks links <-> findByUrl links (Link.url l) = Some l) /\
  (forall l, l ∈ uniqueLinks links -> l ∈ links) /\
  (forall l, l ∈ links -> exists l', l' ∈ uniqueLinks links /\ Link.url l' = Link.url l).
Proof.
  split; [apply uniqueLinks_urls|]. split; [|split; [apply uniqueLinks_NoDup|]].
  - intros x xs. unfold setFromList. simpl.
    assert (Hone : Crawl.setAdd x [] = [x]).
    { unfold Crawl.setAdd. rewrite bool_decide_eq_false_2; [reflexivity|]. intros H. inversion H. }
    rewrite Hone, SetMore.fold_setAdd_acc. simpl. f_equal. apply List.filter_ext. intros y. f_equal. apply bool_decide_ext.
    apply list_elem_of_singleton.
  - split; [apply ScanMore.uniqueLinks_first|]. split.
    + intros l Hl. apply uniqueLinks_elem in Hl.
      destruct (findByUrl_first _ _ _ Hl) as (b & a & -> & _).
      apply elem_of_app. right. left.
    + intros l Hl.
      destruct (findByUrl_some links (Link.url l)) as [l' Hl'].
      { apply list_elem_of_In, in_map, list_elem_of_In, Hl. }
      destruct (findByUrl_first _ _ _ Hl') as (_ & _ & _ & Hu & _).
      exists l'. split; [|exact Hu]. apply ScanMore.uniqueLinks_first. rewrite Hu. exact Hl'.
Qed.

(** X18: the appearance map holds, for every URL of the references, the
    number of references that carry it, which is at least 1, and holds nothing
    for any other URL. *)
Theorem appearances_lookup (links : list Link.t) (url : string) :
  linkAppearances links !! url =
    (if (Spec.referencesTo links url =? 0)%nat then None
     else Some (Spec.referencesTo links url)) /\
  (url ∈ map Link.url links <-> 1 <= Spec.referencesTo links url).
Proof.
  split.
  - unfold linkAppearances.
    enough (H : forall m : gmap string nat,
               fold_left countAppearance links m !! url =
               if (Spec.referencesTo links url =? 0)%nat then m !! url
               else Some (default 0 (m !! url) + Spec.referencesTo links url)).
    { rewrite H, lookup_empty. reflexivity. }
    unfold Spec.referencesTo. induction links as [|x links IH]; intros m; simpl; [reflexivity|].
    rewrite IH. unfold countAppearance. case_bool_decide as Hx; simpl.
    + rewrite Hx, lookup_insert_eq. simpl.
      destruct (length _ =? 0)%nat eqn:E; [apply Nat.eqb_eq in E; rewrite E|]; f_equal; lia.
    + rewrite lookup_insert_ne by exact Hx. reflexivity.
  - unfold Spec.referencesTo. induction links as [|x links IH]; simpl.
    + split; [intros H; inversion H | lia].
    + case_bool_decide as Hx; simpl.
      * split; [lia | intros _; rewrite Hx; left].
      * rewrite <- IH. rewrite elem_of_cons. split; [intros [?|?]; [congruence | auto] | auto].
Qed.

(** ** The analysis of a link: parsing and cache *)

Module AnalysisFacts.
Import Analysis.

Lemma append_step (c : ascii) (s t : string) : String c s +:+ t = String c (s +:+ t).
Proof. reflexivity. Qed.

Lemma append_left_empty (t : string) : "" +:+ t = t.
Proof. reflexivity. Qed.

Lemma dropPrefix_cons (a b : ascii) (p s : string) :
  dropPrefix (String a p) (String b s) = if Ascii.eqb a b then dropPrefix p s else None.
Proof. reflexivity. Qed.

Lemma dropPrefix_startsWith (p s : string) :
  dropPrefix p s = None <-> Js.startsWith s p = false.
Proof.
  revert s. induction p as [|a p IH]; intros s.
  - destruct s; simpl; split; discriminate.
  - destruct s as [|b s]; [simpl; tauto|].
    change (dropPrefix (String a p) (String b s)) with (if Ascii.eqb a b then dropPrefix p s else None).
    change (Js.startsWith (String b s) (String a p)) with (if Ascii.eqb a b then Js.startsWith s p else false).
    destruct (Ascii.eqb a b); [apply IH | tauto].
Qed.

Lemma matchLabel_none (label text : string) :
  Js.includes text label = false -> matchLabel label text = None.
Proof.
  induction text as [|c text IH]; intros H.
  - change (Js.includes "" label) with (Js.startsWith "" label || false) in H.
    apply orb_false_elim in H as [H _]. apply dropPrefix_startsWith in H.
    simpl. unfold matchHere. rewrite H. reflexivity.
  - change (Js.includes (String c text) label)
      with (Js.startsWith (String c text) label || Js.includes text label) in H.
    apply orb_false_elim in H as [H1 H2]. apply dropPrefix_startsWith in H1.
    simpl. unfold matchHere. rewrite H1. apply IH, H2.
Qed.

Lemma matchLabel_next (label : string) (c : ascii) (s : string) :
  matchHere label (String c s) = None -> matchLabel label (String c s) = matchLabel label s.
Proof. intros H. simpl. rewrite H. reflexivity. Qed.

Lemma matchLabel_found (label text captured : string) :
  matchHere label text = Some captured -> matchLabel label text = Some captured.
Proof. intros H. destruct text; simpl; rewrite H; reflexivity. Qed.

(** A captured group is never empty and holds no line terminator. *)
Lemma takeLine_line (s : string) :
  Spec.allChars (fun c => negb (isLineTerminator c)) (takeLine s) = true.
Proof.
  induction s as [|c s IH]; simpl; [reflexivity|].
  destruct (isLineTerminator c) eqn:E; simpl; [reflexivity|]. rewrite E. exact IH.
Qed.

Lemma matchLabel_captured (label text captured : string) :
  matchLabel label text = Some captured ->
  captured <> "" /\ Spec.allChars (fun c => negb (isLineTerminator c)) captured = true.
Proof.
  assert (Hh : forall t, matchHere label t = Some captured ->
               captured <> "" /\ Spec.allChars (fun c => negb (isLineTerminator c)) captured = true).
  { intros t. unfold matchHere. destruct (dropPrefix label t) as [rest|]; [|discriminate].
    destruct (Js.truthy (takeLine rest)) eqn:E; [|discriminate].
    intros [= <-]. split; [intros H; rewrite H in E; discriminate | apply takeLine_line]. }
  induction text as [|c text IH]; simpl.
  - destruct (matchHere label "") eqn:E; [intros [= <-]; eapply Hh, E | discriminate].
  - destruct (matchHere label (String c text)) eqn:E; [intros [= <-]; eapply Hh, E | exact IH].
Qed.

Lemma takeLine_field (x tail : string) :
  Spec.allChars (fun c => negb (isLineTerminator c)) x = true -> endsLine tail = true ->
  takeLine (x +:+ tail) = x.
Proof.
  intros Hx Ht. induction x as [|c x IH].
  - rewrite append_left_empty. destruct tail as [|d tail]; [reflexivity|]. simpl in *. rewrite Ht. reflexivity.
  - rewrite append_step. simpl in *. apply andb_true_iff in Hx as [Hc Hx].
    apply negb_true_iff in Hc. rewrite Hc, IH by exact Hx. reflexivity.
Qed.

Lemma eqb_line_terminator (a c : ascii) :
  isLineTerminator a = false -> isLineTerminator c = true -> Ascii.eqb a c = false.
Proof.
  intros Ha Hc. destruct (Ascii.eqb a c) eqn:E; [|reflexivity].
  apply Ascii.eqb_eq in E. congruence.
Qed.

Lemma dropPrefix_field (label x tail : string) :
  labelLike label = true -> hasColonSpace x = false -> endsLine tail = true ->
  dropPrefix label (x +:+ tail) = None.
Proof.
  intros Hl Hx Ht. revert x Hl Hx. induction label as [|a l IH]; intros x Hl Hx; [discriminate|].
  simpl in Hl. apply andb_true_iff in Hl as [Ha Hl]. apply negb_true_iff in Ha.
  destruct x as [|b x].
  - rewrite append_left_empty. destruct tail as [|c r]; [reflexivity|].
    simpl in Ht. rewrite dropPrefix_cons, (eqb_line_terminator _ _ Ha Ht). reflexivity.
  - rewrite append_step.
    change (dropPrefix (String a l) (String b (x +:+ tail)))
      with (if Ascii.eqb a b then dropPrefix l (x +:+ tail) else None).
    destruct (Ascii.eqb a b) eqn:Eab; [|reflexivity]. apply Ascii.eqb_eq in Eab. subst b.
    simpl in Hx. apply orb_false_elim in Hx as [Hx1 Hx2].
    apply orb_true_iff in Hl as [Hl | Hl]; [|apply IH; assumption].
    apply andb_true_iff in Hl as [Hc Hl]. apply bool_decide_eq_true in Hl. subst l.
    rewrite Hc in Hx1. simpl in Hx1.
    destruct x as [|d x].
    + rewrite append_left_empty. destruct tail as [|c r]; [reflexivity|].
      simpl in Ht. rewrite dropPrefix_cons, (eqb_line_terminator " " c eq_refl Ht). reflexivity.
    + rewrite append_step, dropPrefix_cons, Ascii.eqb_sym, Hx1. reflexivity.
Qed.

Lemma hasColonSpace_tail (b : ascii) (x : string) :
  hasColonSpace (String b x) = false -> hasColonSpace x = false.
Proof. simpl. intros H. apply orb_false_elim in H as [_ H]. exact H. Qed.

Lemma matchLabel_skip (label x tail : string) :
  labelLike label = true -> hasColonSpace x = false -> endsLine tail = true ->
  matchLabel label (x +:+ tail) = matchLabel label tail.
Proof.
  intros Hl Hx Ht. induction x as [|b x IH]; [reflexivity|].
  rewrite append_step, matchLabel_next.
  - apply IH. eapply hasColonSpace_tail, Hx.
  - unfold matchHere. rewrite <- append_step, dropPrefix_field by assumption. reflexivity.
Qed.

Lemma truthy_field (x : string) : x <> "" -> Js.truthy x = true.
Proof. destruct x; [congruence | reflexivity]. Qed.

Ltac skip_to_label :=
  unfold render; rewrite ?append_step, ?append_left_empty;
  repeat first
    [ rewrite matchLabel_next by reflexivity
    | rewrite matchLabel_skip by (first [reflexivity | assumption]) ].

Lemma takeLine_whole (x : string) :
  Spec.allChars (fun c => negb (isLineTerminator c)) x = true -> takeLine x = x.
Proof.
  induction x as [|c x IH]; simpl; [reflexivity|]. intros Hx.
  apply andb_true_iff in Hx as [Hc Hx]. apply negb_true_iff in Hc.
  rewrite Hc, IH by exact Hx. reflexivity.
Qed.

Ltac read_field :=
  apply matchLabel_found; unfold matchHere; simpl dropPrefix; cbv iota;
  first [ rewrite takeLine_field by (first [reflexivity | assumption])
        | rewrite takeLine_whole by assumption ];
  rewrite truthy_field by assumption; reflexivity.

Section Rendered.
Variables analysis suggestedFix issueType priority : string.
Hypothesis clean_analysis : cleanField analysis.
Hypothesis clean_fix : cleanField suggestedFix.
Hypothesis clean_type : cleanField issueType.
Hypothesis clean_priority : cleanField priority.

Let text := render analysis suggestedFix issueType priority.

Lemma rendered_analysis : matchLabel "ANALYSIS: " text = Some analysis.
Proof.
  destruct clean_analysis as (? & ? & ? & ?).
  unfold text. skip_to_label. read_field.
Qed.

Lemma rendered_fix : matchLabel "SUGGESTED_FIX: " text = Some suggestedFix.
Proof.
  destruct clean_analysis as (? & ? & ? & ?), clean_fix as (? & ? & ? & ?).
  unfold text. skip_to_label. read_field.
Qed.

Lemma rendered_type : matchLabel "ISSUE_TYPE: " text = Some issueType.
Proof.
  destruct clean_analysis as (? & ? & ? & ?), clean_fix as (? & ? & ? & ?),
    clean_type as (? & ? & ? & ?).
  unfold text. skip_to_label. read_field.
Qed.

Lemma rendered_priority : matchLabel "PRIORITY: " text = Some priority.
Proof.
  destruct clean_analysis as (? & ? & ? & ?), clean_fix as (? & ? & ? & ?),
    clean_type as (? & ? & ? & ?), clean_priority as (? & ? & ? & ?).
  unfold text. skip_to_label. read_field.
Qed.
End Rendered.

End AnalysisFacts.

(** X19: an answer in the format the prompt asks for is read back field by
    field: when the four fields are not empty, already trimmed, on one line
    and without a colon followed by a space, the parsed analysis holds exactly
    these fields, and a suggested fix [None] becomes the absence of a fix. *)
Theorem formatted_answer_is_read_back (analysis suggestedFix issueType priority : string) :
  Analysis.cleanField analysis -> Analysis.cleanField suggestedFix ->
  Analysis.cleanField issueType -> Analysis.cleanField priority ->
  Analysis.parse (Analysis.render analysis suggestedFix issueType priority) =
    Ai.mk analysis (if bool_decide (suggestedFix = "None") then None else Some suggestedFix)
          issueType priority.
Proof.
  intros Ha Hf Ht Hp. unfold Analysis.parse.
  rewrite (AnalysisFacts.rendered_analysis _ _ _ _ Ha),
    (AnalysisFacts.rendered_fix _ _ _ _ Ha Hf),
    (AnalysisFacts.rendered_type _ _ _ _ Ha Hf Ht),
    (AnalysisFacts.rendered_priority _ _ _ _ Ha Hf Ht Hp).
  destruct Ha as (_ & -> & _), Hf as (_ & -> & _), Ht as (_ & -> & _), Hp as (_ & -> & _).
  destruct (bool_decide (suggestedFix = "None")); reflexivity.
Qed.

Lemma formatted_answer_is_read_back_witness :
  Analysis.parse
    (Analysis.render "The page was removed." "https://shop.test/new" "Broken Link" "High") =
  Ai.mk "The page was removed." (Some "https://shop.test/new") "Broken Link" "High".
Proof.
  apply (formatted_answer_is_read_back
           "The page was removed." "https://shop.test/new" "Broken Link" "High");
    (split; [discriminate | repeat split; vm_compute; reflexivity]).
Defined.

(** X20: what is read from an answer that lacks a label: without [ANALYSIS: ]
    the analysis is [Unable to analyze], without [SUGGESTED_FIX: ] there is no
    fix, without [PRIORITY: ] the priority is [Low], and without
    [ISSUE_TYPE: ] the issue type is [Unknown], which is not [No Issue]: the
    scan then counts the link as flagged. A fix is never the text [None]. *)
Theorem answer_without_labels (text : string) :
  (Js.includes text "ANALYSIS: " = false ->
   Ai.analysis (Analysis.parse text) = "Unable to analyze") /\
  (Js.includes text "SUGGESTED_FIX: " = false ->
   Ai.suggestedFix (Analysis.parse text) = None) /\
  (Js.includes text "ISSUE_TYPE: " = false ->
   Ai.issueType (Analysis.parse text) = "Unknown" /\
   aiFlags (Some (Analysis.parse text)) = true) /\
  (Js.includes text "PRIORITY: " = false ->
   Ai.priority (Analysis.parse text) = "Low") /\
  Ai.suggestedFix (Analysis.parse text) <> Some "None".
Proof.
  unfold Analysis.parse, aiFlags. simpl.
  repeat match goal with |- _ /\ _ => split end.
  - intros H. rewrite (AnalysisFacts.matchLabel_none _ _ H). reflexivity.
  - intros H. rewrite (AnalysisFacts.matchLabel_none _ _ H). reflexivity.
  - intros H. rewrite (AnalysisFacts.matchLabel_none _ _ H). split; reflexivity.
  - intros H. rewrite (AnalysisFacts.matchLabel_none _ _ H). reflexivity.
  - destruct (Analysis.matchLabel "SUGGESTED_FIX: " text) as [m|]; [|discriminate].
    case_bool_decide as Hm; simpl; [discriminate|]. intros [= H]. exact (Hm H).
Qed.

(** X21: the analysis cache. The service is asked exactly when the key of
    the link (text, URL and context joined by hyphens) is not in the cache;
    a cached analysis is returned as it is; a failed request returns nothing
    and leaves the cache as it was, so the next call asks again; an analysis
    that was returned is returned again, without a request, for every later
    call whose key is the same, whatever the status and the service then are;
    no other key of the cache changes. *)
Theorem analysis_cache (service : string -> string -> string -> Status -> Analysis.Answer)
    (cache : gmap string Ai.t) (linkText linkUrl context : string) (status : Status) :
  let key := Analysis.cacheKey linkText linkUrl context in
  let '(result, cache', asked) :=
    Analysis.analyzeWithAI service cache linkText linkUrl context status in
  (asked = false <-> is_Some (cache !! key)) /\
  (forall cached, cache !! key = Some cached -> result = Some cached /\ cache' = cache) /\
  (result = None ->
   cache' = cache /\ asked = true /\
   forall text, service linkText linkUrl context status <> Analysis.Text text) /\
  (forall a, result = Some a ->
     forall service' linkText' linkUrl' context' status',
       Analysis.cacheKey linkText' linkUrl' context' = key ->
       Analysis.analyzeWithAI service' cache' linkText' linkUrl' context' status' =
         (Some a, cache', false)) /\
  (forall k, k <> key -> cache' !! k = cache !! k).
Proof.
  intros key. unfold Analysis.analyzeWithAI. fold key.
  destruct (cache !! key) as [cached|] eqn:Hk.
  - split; [split; eauto|]. split; [intros c [= <-]; auto|]. split; [discriminate|].
    split; [|reflexivity].
    intros a [= <-] service' t' u' c' s' Hkey. rewrite Hkey, Hk. reflexivity.
  - assert (Hmiss : true = false <-> is_Some (@None Ai.t)).
    { split; [discriminate | intros [? H]; discriminate]. }
    destruct (service linkText linkUrl context status) as [| code txt | | text] eqn:Hs.
    1-3: (split; [exact Hmiss|]; split; [discriminate|];
          split; [intros _; repeat split; discriminate|]; split; [discriminate | reflexivity]).
    split; [exact Hmiss|]. split; [discriminate|]. split; [discriminate|]. split.
    + intros a [= <-] service' t' u' c' s' Hkey. rewrite Hkey, lookup_insert_eq. reflexivity.
    + intros k Hne. apply lookup_insert_ne. congruence.
Qed.

(** ** The highlight of a screenshot *)

Module HighlightFacts.
Import Highlight.











End HighlightFacts.


(** An SVG link does not disturb a match by text, and makes the search by URL
    fail. *)
Lemma svg_link_fails :
  Highlight.search Highlight.ascii "Buy" "https://shop.test/buy"
    [Highlight.svgLink;
     Highlight.mk (Highlight.Str "Buy") Highlight.Falsy (Highlight.Str "Buy")
       (Highlight.Str "https://shop.test/buy") Highlight.Falsy] =
  Highlight.Done Highlight.ExactText 2 "Buy" (Some 1) /\
  Highlight.search Highlight.ascii "Buy now" "https://shop.test/buy"
    [Highlight.svgLink;
     Highlight.mk (Highlight.Str "Buy") Highlight.Falsy (Highlight.Str "Buy")
       (Highlight.Str "https://shop.test/buy") Highlight.Falsy] =
  Highlight.Failed.
Proof. split; vm_compute; reflexivity. Qed.

(** ** The dashboard *)

Module DashboardFacts.
Import Dashboard.

Lemma filter_all {A : Type} (f : A -> bool) (l : list A) :
  (forall x, f x = true) -> List.filter f l = l.
Proof. intros H. induction l as [|x l IH]; simpl; [reflexivity|]. rewrite H, IH. reflexivity. Qed.

Lemma filter_shorter {A : Type} (f : A -> bool) (l : list A) :
  length (List.filter f l) <= length l.
Proof. induction l as [|x l IH]; simpl; [lia|]. destruct (f x); simpl; lia. Qed.

Lemma filter_elem {A : Type} (f : A -> bool) (l : list A) (x : A) :
  x ∈ List.filter f l <-> x ∈ l /\ f x = true.
Proof. rewrite !list_elem_of_In. apply filter_In. Qed.

Lemma truthy_lower (s : string) : Js.truthy (Js.toLowerCase s) = Js.truthy s.
Proof. destruct s; reflexivity. Qed.

Lemma bySearch_case (term term' : string) (r : Issue.t) :
  Js.toLowerCase term' = Js.toLowerCase term -> bySearch term' r = bySearch term r.
Proof.
  intros H. unfold bySearch. rewrite <- (truthy_lower term'), <- (truthy_lower term), H.
  reflexivity.
Qed.

(** The decimal digits of a number. *)
Lemma pretty_N_char_digit (x : N) : Re.isDigit (pretty_N_char x) = true.
Proof. unfold pretty_N_char. repeat case_match; reflexivity. Qed.

Lemma pretty_N_go_digits (x : N) (s : string) :
  Spec.allChars Re.isDigit s = true -> Spec.allChars Re.isDigit (pretty_N_go x s) = true.
Proof.
  revert s. induction (N.lt_wf_0 x) as [x _ IH]; intros s Hs.
  destruct (decide (x = 0)%N) as [->|Hx]; [rewrite pretty_N_go_0; exact Hs|].
  rewrite pretty_N_go_step by lia. apply IH.
  - apply N.div_lt; lia.
  - simpl. rewrite pretty_N_char_digit. exact Hs.
Qed.

Lemma pretty_nat_digits (n : nat) : Spec.allChars Re.isDigit (pretty n) = true.
Proof.
  unfold pretty, pretty_nat, pretty, pretty_N.
  destruct (decide (N.of_nat n = 0)%N); [reflexivity | apply pretty_N_go_digits; reflexivity].
Qed.

Lemma pretty_nat_not_empty (n : nat) : pretty n <> "".
Proof.
  unfold pretty, pretty_nat, pretty, pretty_N.
  destruct (decide (N.of_nat n = 0)%N) as [|Hn]; [discriminate|].
  rewrite pretty_N_go_step by lia.
  generalize (N.of_nat n `div` 10)%N (pretty_N_char (N.of_nat n `mod` 10)).
  intros x c. cut (forall s, s <> "" -> pretty_N_go x s <> ""); [intros H; apply H; discriminate|].
  induction (N.lt_wf_0 x) as [x _ IH]; intros s Hs.
  destruct (decide (x = 0)%N) as [->|Hx]; [rewrite pretty_N_go_0; exact Hs|].
  rewrite pretty_N_go_step by lia. apply IH; [apply N.div_lt; lia | discriminate].
Qed.

(** Digits followed by a hyphen: the digits are determined. *)
Lemma digits_then_hyphen (d1 d2 r1 r2 : string) :
  Spec.allChars Re.isDigit d1 = true -> Spec.allChars Re.isDigit d2 = true ->
  d1 +:+ String "-" r1 = d2 +:+ String "-" r2 -> d1 = d2.
Proof.
  revert d2. induction d1 as [|a d1 IH]; intros [|b d2] H1 H2 H; simpl in *.
  - reflexivity.
  - injection H as <- _. discriminate.
  - injection H as -> _. discriminate.
  - injection H as -> H. apply andb_true_iff in H1 as [_ H1], H2 as [_ H2].
    f_equal. apply IH; assumption.
Qed.

Lemma fileName_index (i j : nat) (r r' : Issue.t) :
  fileName i r = fileName j r' -> i = j.
Proof.
  unfold fileName. intros H. injection H as H.
  apply digits_then_hyphen in H; [|apply pretty_nat_digits..].
  apply (inj pretty) in H. lia.
Qed.

Lemma sanitize_chars (s : string) : Spec.allChars isNameChar (sanitize s) = true.
Proof.
  induction s as [|c s IH]; simpl; [reflexivity|]. rewrite IH, andb_true_r.
  unfold isNameChar. destruct (Re.isAlnum c) eqn:E; [rewrite E|]; reflexivity.
Qed.

Lemma sanitize_length (s : string) : String.length (sanitize s) = String.length s.
Proof. induction s as [|c s IH]; simpl; [reflexivity|]. rewrite IH. reflexivity. Qed.

Lemma substring_length (n : nat) (s : string) : String.length (String.substring 0 n s) <= n.
Proof.
  revert s. induction n as [|n IH]; intros [|c s]; simpl; try lia. specialize (IH s). lia.
Qed.

Lemma names_imap {A : Type} (g : nat -> A -> string) (h : nat -> A -> string) (l : list A) :
  map fst (imap (fun i x => (g i x, h i x)) l) = imap g l.
Proof.
  revert g h. induction l as [|x l IH]; intros g h; [reflexivity|].
  rewrite !imap_cons. simpl. f_equal. apply (IH (g ∘ S) (h ∘ S)).
Qed.

End DashboardFacts.

(** X23: the list the dashboard shows. With a [sort] that rearranges, an
    issue is shown exactly when it is a result that passes the priority
    filter and the search; no more issues are shown than are reported;
    with the filter [all] and an empty search every issue is shown;
    under [critical], [high] and [medium] only issues of exactly that priority
    are shown, so an issue of priority [Low], or of a priority that is none of
    the four, is hidden by each of these filters; and the search does not
    depend on the case of the term. *)
Theorem shown_issues
    (arraySort : (Issue.t -> Issue.t -> option Z) -> list Issue.t -> list Issue.t)
    (filter searchTerm sortBy : string) (results : list Issue.t) :
  (forall cmp l, arraySort cmp l ≡ₚ l) ->
  let shown := Dashboard.filteredResults arraySort filter searchTerm sortBy results in
  (forall r, r ∈ shown <->
             r ∈ results /\ Dashboard.byPriority filter r = true /\
             Dashboard.bySearch searchTerm r = true) /\
  length shown <= length results /\
  (filter = "all" -> searchTerm = "" -> shown ≡ₚ results) /\
  (forall r, r ∈ shown ->
     (filter = "critical" -> Issue.priority r = "Critical") /\
     (filter = "high" -> Issue.priority r = "High") /\
     (filter = "medium" -> Issue.priority r = "Medium")) /\
  (forall term', Js.toLowerCase term' = Js.toLowerCase searchTerm ->
     Dashboard.filteredResults arraySort filter term' sortBy results = shown).
Proof.
  intros Hsort shown. subst shown. unfold Dashboard.filteredResults.
  assert (Helem : forall r,
            r ∈ arraySort (Dashboard.compare sortBy)
                  (List.filter (Dashboard.bySearch searchTerm)
                     (List.filter (Dashboard.byPriority filter) results)) <->
            r ∈ results /\ Dashboard.byPriority filter r = true /\
            Dashboard.bySearch searchTerm r = true).
  { intros r. rewrite Hsort, !DashboardFacts.filter_elem. tauto. }
  split; [exact Helem|]. split; [|split; [|split]].
  - rewrite Hsort. etransitivity; [apply DashboardFacts.filter_shorter|].
    apply DashboardFacts.filter_shorter.
  - intros -> ->. rewrite Hsort, !DashboardFacts.filter_all; reflexivity.
  - intros r Hr. apply Helem in Hr as (_ & Hp & _). unfold Dashboard.byPriority in Hp.
    repeat split; intros ->; simpl in Hp; apply bool_decide_eq_true in Hp; exact Hp.
  - intros term' Hcase. f_equal.
    apply List.filter_ext. intros r. apply DashboardFacts.bySearch_case, Hcase.
Qed.

Lemma shown_issues_witness :
  Dashboard.filteredResults Example.sortBy "all" "" "impact" (results Shop.report)
    ≡ₚ results Shop.report.
Proof.
  apply (shown_issues Example.sortBy "all" "" "impact" (results Shop.report) sortBy_perm);
    reflexivity.
Defined.

(** X24: the screenshots that are downloaded. One file is made for every
    shown issue with a screenshot; its name is [error-], the decimal position
    in the download, a hyphen, at most thirty characters that are letters,
    digits or underscores, and [.png], so it holds no path separator; and no
    two files of one download have the same name. *)
Theorem screenshot_file_names (shown : list Issue.t) :
  let files := Dashboard.downloadAllScreenshots shown in
  length files = length (List.filter Dashboard.hasScreenshot shown) /\
  NoDup (map fst files) /\
  (forall name, name ∈ map fst files ->
     exists number body,
       name = "error-" +:+ number +:+ "-" +:+ body +:+ ".png" /\
       number <> "" /\ Spec.allChars Re.isDigit number = true /\
       Spec.allChars Dashboard.isNameChar body = true /\ String.length body <= 30).
Proof.
  intros files. subst files. unfold Dashboard.downloadAllScreenshots.
  rewrite DashboardFacts.names_imap, length_imap.
  split; [reflexivity|]. split.
  - apply NoDup_alt. intros i j name Hi Hj.
    rewrite list_lookup_imap in Hi, Hj.
    destruct (List.filter Dashboard.hasScreenshot shown !! i) as [r|]; [|discriminate].
    destruct (List.filter Dashboard.hasScreenshot shown !! j) as [r'|]; [|discriminate].
    simpl in Hi, Hj. injection Hi as Hi. injection Hj as Hj.
    eapply DashboardFacts.fileName_index. rewrite Hi, Hj. reflexivity.
  - intros name Hname. apply elem_of_lookup_imap in Hname as (i & r & -> & _).
    exists (pretty (i + 1)), (Dashboard.sanitize (String.substring 0 30 (Issue.linkText r))).
    split; [reflexivity|]. split; [apply DashboardFacts.pretty_nat_not_empty|].
    split; [apply DashboardFacts.pretty_nat_digits|].
    split; [apply DashboardFacts.sanitize_chars|].
    rewrite DashboardFacts.sanitize_length. apply DashboardFacts.substring_length.
Qed.
